(** * VS-Codex hub client: a shallow embedding of the browser-side code

    The development follows the scripts of the repository:
    - [static/js/monky-common.js]: the HTTP/JSON helper [fetchJSON] and the
      API facade built on it;
    - [dist/js/app.js]: the ping sampler with its rolling latency buffer and
      the sparkline renderer;
    - the home hub controller and the work hub controller (the second script
      of [static/js/monky-server.js]): lazy tab activation, loaders, vault
      unlock.

    JavaScript values are a tagged union and objects are property lists in
    insertion order.  Asynchronous code is written in a state-and-error monad
    whose world carries the page state, the log of the effects on the page
    and the network, and the answers the network is going to give.  Code is
    followed in program order: every call, awaited or not, runs to its end
    before its caller goes on, the answer to a request being there as soon
    as the request is issued.  Numbers are integers, except the clock
    readings and the canvas coordinates, which are exact rationals. *)

From Stdlib Require Import ZArith QArith Qround String Ascii List Lia DecimalString.
From stdpp Require Import gmap strings list.

Set Warnings "-register-all".
Open Scope Z_scope.

(** ** JavaScript values *)

Module JS.

(** Numbers are the integers: every number the modelled code inspects is
    either a count, a rounded latency or an integer literal of a JSON text.
    [JFormData] stands for a host [FormData] instance, whose entries the
    modelled code never reads. *)
Inductive jsval : Type :=
  | JUndefined
  | JNull
  | JBool (b : bool)
  | JNumber (n : Z)
  | JString (s : string)
  | JArray (xs : list jsval)
  | JObject (ps : list (string * jsval))
  | JFormData.

Abbreviation props := (list (string * jsval)).

(** ToBoolean *)
Definition truthy (v : jsval) : bool :=
  match v with
  | JUndefined | JNull => false
  | JBool b => b
  | JNumber n => negb (n =? 0)
  | JString s => negb (String.eqb s "")
  | JArray _ | JObject _ | JFormData => true
  end.

(** [typeof v] *)
Definition typeof (v : jsval) : string :=
  match v with
  | JUndefined => "undefined"
  | JNull => "object"
  | JBool _ => "boolean"
  | JNumber _ => "number"
  | JString _ => "string"
  | JArray _ | JObject _ | JFormData => "object"
  end.

(** [a || b] *)
Definition or_else (a b : jsval) : jsval := if truthy a then a else b.

(** [a ?? b] *)
Definition nullish (a b : jsval) : jsval :=
  match a with
  | JUndefined | JNull => b
  | _ => a
  end.

Definition is_FormData (v : jsval) : bool :=
  match v with JFormData => true | _ => false end.

Definition is_string (v : jsval) : bool :=
  match v with JString _ => true | _ => false end.

(** Own-property lookup in a property list. *)
Fixpoint lookup_prop (k : string) (ps : props) : option jsval :=
  match ps with
  | [] => None
  | (k', v) :: ps' => if String.eqb k k' then Some v else lookup_prop k ps'
  end.

(** [o[k] = v] on a property list: an existing key keeps its position. *)
Fixpoint set_prop (k : string) (v : jsval) (ps : props) : props :=
  match ps with
  | [] => [(k, v)]
  | (k', v') :: ps' =>
      if String.eqb k k' then (k, v) :: ps' else (k', v') :: set_prop k v ps'
  end.

(** Decimal rendering of an integer, as [Number.prototype.toString]. *)
Definition number_to_string (n : Z) : string :=
  NilZero.string_of_int (Z.to_int n).

(** [v.k] for a string key [k] that is not an array index.  Reading a
    property of [undefined] or [null] is a TypeError: [None]. *)
Definition get (v : jsval) (k : string) : option jsval :=
  match v with
  | JUndefined | JNull => None
  | JObject ps => Some (default JUndefined (lookup_prop k ps))
  | JArray xs =>
      Some (if String.eqb k "length" then JNumber (Z.of_nat (length xs))
            else JUndefined)
  | JString s =>
      Some (if String.eqb k "length" then JNumber (Z.of_nat (String.length s))
            else JUndefined)
  | JBool _ | JNumber _ | JFormData => Some JUndefined
  end.

(** [{...v}]: the own enumerable properties of [v]. *)
Definition indexed (xs : list jsval) : props :=
  imap (fun i x => (number_to_string (Z.of_nat i), x)) xs.

Fixpoint chars (s : string) : list jsval :=
  match s with
  | EmptyString => []
  | String c r => JString (String c EmptyString) :: chars r
  end.

Definition spread (v : jsval) : props :=
  match v with
  | JObject ps => ps
  | JArray xs => indexed xs
  | JString s => indexed (chars s)
  | _ => []
  end.

(** [{...a, ...b}] on property lists. *)
Definition assign (a b : props) : props :=
  fold_left (fun acc kv => set_prop (fst kv) (snd kv) acc) b a.

Fixpoint join (sep : string) (l : list string) : string :=
  match l with
  | [] => ""
  | [x] => x
  | x :: r => x +:+ sep +:+ join sep r
  end.

(** ToString, as applied by [new Error(message)] and by template strings. *)
Fixpoint ToString (v : jsval) : string :=
  match v with
  | JUndefined => "undefined"
  | JNull => "null"
  | JBool true => "true"
  | JBool false => "false"
  | JNumber n => number_to_string n
  | JString s => s
  | JArray xs =>
      join "," (List.map (fun x =>
                            match x with
                            | JUndefined | JNull => ""
                            | _ => ToString x
                            end) xs)
  | JObject _ => "[object Object]"
  | JFormData => "[object FormData]"
  end.

End JS.
Export JS.

(** ** The platform's JSON object

    [JSON.parse] throws on a text that is not JSON ([None]); [JSON.stringify]
    yields [undefined] on a value with no JSON form ([None]).  The helper is
    written against this interface; [RefJSON] below is an executable
    instance. *)

Class JSON := {
  JSON_parse : string -> option jsval;
  JSON_stringify : jsval -> option string
}.

Module RefJSON.

Definition dquote : ascii := "034"%char.
Definition backslash : ascii := "092"%char.

Definition is_ws (c : ascii) : bool :=
  let n := nat_of_ascii c in
  (n =? 32)%nat || (n =? 9)%nat || (n =? 10)%nat || (n =? 13)%nat.

Fixpoint skip_ws (s : string) : string :=
  match s with
  | String c r => if is_ws c then skip_ws r else s
  | EmptyString => s
  end.

Definition digit_of (c : ascii) : option Z :=
  let n := nat_of_ascii c in
  if (48 <=? n)%nat && (n <=? 57)%nat then Some (Z.of_nat n - 48) else None.

(** The digits at the head of [s], accumulated in base ten. *)
Fixpoint parse_digits (acc : Z) (s : string) : Z * string :=
  match s with
  | String c r =>
      match digit_of c with
      | Some d => parse_digits (10 * acc + d) r
      | None => (acc, s)
      end
  | EmptyString => (acc, s)
  end.

Definition starts_fraction_or_exponent (s : string) : bool :=
  match s with
  | String c _ =>
      let n := nat_of_ascii c in
      (n =? 46)%nat || (n =? 101)%nat || (n =? 69)%nat
  | EmptyString => false
  end.

(** An unsigned integer literal: [0], or a non-zero digit followed by
    digits.  A literal that goes on with a fraction or an exponent denotes a
    number outside the integers and is not accepted by this instance. *)
Definition parse_nat_literal (s : string) : option (Z * string) :=
  match s with
  | String c r =>
      match digit_of c with
      | Some 0 =>
          match r with
          | String c' _ =>
              match digit_of c' with
              | Some _ => None
              | None =>
                  if starts_fraction_or_exponent r then None else Some (0, r)
              end
          | EmptyString => Some (0, r)
          end
      | Some d =>
          let '(n, rest) := parse_digits d r in
          if starts_fraction_or_exponent rest then None else Some (n, rest)
      | None => None
      end
  | EmptyString => None
  end.

(** The characters of a string literal after its opening quote, up to the
    closing one.  The two-character escapes are decoded; unicode escapes are
    not accepted by this instance. *)
Fixpoint parse_chars (s : string) : option (string * string) :=
  match s with
  | EmptyString => None
  | String c r =>
      if Ascii.eqb c dquote then Some (EmptyString, r)
      else if Ascii.eqb c backslash then
        match r with
        | String e r' =>
            let n := nat_of_ascii e in
            let decoded :=
              if (n =? 34)%nat then Some dquote
              else if (n =? 92)%nat then Some backslash
              else if (n =? 47)%nat then Some "/"%char
              else if (n =? 98)%nat then Some "008"%char
              else if (n =? 102)%nat then Some "012"%char
              else if (n =? 110)%nat then Some "010"%char
              else if (n =? 114)%nat then Some "013"%char
              else if (n =? 116)%nat then Some "009"%char
              else None in
            match decoded with
            | Some d =>
                match parse_chars r' with
                | Some (str, rest) => Some (String d str, rest)
                | None => None
                end
            | None => None
            end
        | EmptyString => None
        end
      else if (nat_of_ascii c <? 32)%nat then None
      else
        match parse_chars r with
        | Some (str, rest) => Some (String c str, rest)
        | None => None
        end
  end.

Definition expect (lit : string) (v : jsval) (s : string)
  : option (jsval * string) :=
  if String.prefix lit s
  then Some (v, String.substring (String.length lit)
                   (String.length s - String.length lit) s)
  else None.

(** Recursive descent; [fuel] bounds the nesting and the number of items. *)
Fixpoint parse_value (fuel : nat) (s : string) : option (jsval * string) :=
  match fuel with
  | O => None
  | S fuel' =>
      match skip_ws s with
      | EmptyString => None
      | String c r =>
          let n := nat_of_ascii c in
          if (n =? 123)%nat then
            match skip_ws r with
            | String c' r' =>
                if (nat_of_ascii c' =? 125)%nat then Some (JObject [], r')
                else parse_members fuel' [] (skip_ws r)
            | EmptyString => None
            end
          else if (n =? 91)%nat then
            match skip_ws r with
            | String c' r' =>
                if (nat_of_ascii c' =? 93)%nat then Some (JArray [], r')
                else parse_elements fuel' [] (skip_ws r)
            | EmptyString => None
            end
          else if (n =? 34)%nat then
            match parse_chars r with
            | Some (str, rest) => Some (JString str, rest)
            | None => None
            end
          else if (n =? 45)%nat then
            match parse_nat_literal r with
            | Some (m, rest) => Some (JNumber (- m), rest)
            | None => None
            end
          else if (n =? 116)%nat then expect "true" (JBool true) (String c r)
          else if (n =? 102)%nat then expect "false" (JBool false) (String c r)
          else if (n =? 110)%nat then expect "null" JNull (String c r)
          else
            match parse_nat_literal (String c r) with
            | Some (m, rest) => Some (JNumber m, rest)
            | None => None
            end
      end
  end

with parse_elements (fuel : nat) (acc : list jsval) (s : string)
  : option (jsval * string) :=
  match fuel with
  | O => None
  | S fuel' =>
      match parse_value fuel' s with
      | Some (v, rest) =>
          match skip_ws rest with
          | String c r =>
              if (nat_of_ascii c =? 93)%nat then Some (JArray (acc ++ [v]), r)
              else if (nat_of_ascii c =? 44)%nat
              then parse_elements fuel' (acc ++ [v]) r
              else None
          | EmptyString => None
          end
      | None => None
      end
  end

with parse_members (fuel : nat) (acc : props) (s : string)
  : option (jsval * string) :=
  match fuel with
  | O => None
  | S fuel' =>
      match skip_ws s with
      | String q r =>
          if Ascii.eqb q dquote then
            match parse_chars r with
            | Some (k, rest) =>
                match skip_ws rest with
                | String colon rest' =>
                    if (nat_of_ascii colon =? 58)%nat then
                      match parse_value fuel' rest' with
                      | Some (v, rest'') =>
                          match skip_ws rest'' with
                          | String c r' =>
                              if (nat_of_ascii c =? 125)%nat
                              then Some (JObject (set_prop k v acc), r')
                              else if (nat_of_ascii c =? 44)%nat
                              then parse_members fuel' (set_prop k v acc) r'
                              else None
                          | EmptyString => None
                          end
                      | None => None
                      end
                    else None
                | EmptyString => None
                end
            | None => None
            end
          else None
      | EmptyString => None
      end
  end.

Definition parse (s : string) : option jsval :=
  match parse_value (2 * String.length s + 2) s with
  | Some (v, rest) =>
      match skip_ws rest with
      | EmptyString => Some v
      | String _ _ => None
      end
  | None => None
  end.

Definition hex_digit (n : nat) : ascii :=
  if (n <? 10)%nat then ascii_of_nat (48 + n) else ascii_of_nat (87 + n).

(** The body of a quoted string: quote, backslash and control characters
    escaped. *)
Fixpoint escape (s : string) : string :=
  match s with
  | EmptyString => EmptyString
  | String c r =>
      let n := nat_of_ascii c in
      if (n =? 34)%nat then String backslash (String dquote (escape r))
      else if (n =? 92)%nat then String backslash (String backslash (escape r))
      else if (n =? 8)%nat then String backslash (String "b" (escape r))
      else if (n =? 12)%nat then String backslash (String "f" (escape r))
      else if (n =? 10)%nat then String backslash (String "n" (escape r))
      else if (n =? 13)%nat then String backslash (String "r" (escape r))
      else if (n =? 9)%nat then String backslash (String "t" (escape r))
      else if (n <? 32)%nat then
        String backslash (String "u" (String "0" (String "0"
          (String (hex_digit (n / 16)) (String (hex_digit (n mod 16))
             (escape r))))))
      else String c (escape r)
  end.

Definition quote (s : string) : string :=
  String dquote (escape s +:+ String dquote EmptyString).

Fixpoint stringify (v : jsval) : option string :=
  match v with
  | JUndefined => None
  | JNull => Some "null"
  | JBool true => Some "true"
  | JBool false => Some "false"
  | JNumber n => Some (number_to_string n)
  | JString s => Some (quote s)
  | JArray xs =>
      Some ("[" +:+ join "," (List.map (fun x => default "null" (stringify x)) xs)
                +:+ "]")
  | JObject ps =>
      let member := fun kv : string * jsval =>
        match stringify (snd kv) with
        | Some s => [quote (fst kv) +:+ ":" +:+ s]
        | None => []
        end in
      Some ("{" +:+ join "," (List.concat (List.map member ps)) +:+ "}")
  | JFormData => Some "{}"
  end.

#[export] Instance ref_JSON : JSON :=
  {| JSON_parse := parse; JSON_stringify := stringify |}.

End RefJSON.

(** ** HTTP exchange, errors and the asynchronous monad *)

Record response := {
  status : Z;
  statusText : string;
  body : string
}.

(** [response.ok]: the status is in the range 200-299. *)
Definition ok (r : response) : bool :=
  (200 <=? status r) && (status r <=? 299).

(** What [fetch] settles to: a rejection (no response at all: DNS, refused
    connection, dropped body) or a response of any status. *)
Inductive fetch_outcome :=
  | NetworkError (reason : string)
  | Responded (r : response).

(** The two arguments of [fetch]. *)
Record request := {
  url : string;
  init : props
}.

Inductive error :=
  | Error (msg : string)
  | TypeError (msg : string).

(** [err.message] *)
Definition message (e : error) : string :=
  match e with Error m | TypeError m => m end.

Inductive completion (A : Type) :=
  | Return (a : A)
  | Throw (e : error).
Arguments Return {A} a.
Arguments Throw {A} e.

Inductive canvas_op :=
  | ClearRect (x y w h : Q)
  | BeginPath
  | MoveTo (x y : Q)
  | LineTo (x y : Q)
  | SetLineWidth (w : Z)
  | SetStrokeStyle (colour : string)
  | Stroke.

(** What a run leaves behind outside the page state. *)
Inductive effect :=
  | Fetch (r : request)
  | Toast (text variant : string)
  | ShowOnlyTab (elementId : string)
  | SetHidden (elementId : string) (hidden : bool)
  | Dom (routine : string)
  | Draw (ops : list canvas_op).

Section Async.

Context {S : Type}.

(** The page state, the effects so far, and the answers the network will
    give to the requests still to come, in the order they are issued.  A
    request issued when no answer is left fails in transport. *)
Record world := {
  store : S;
  effects : list effect;
  answers : list fetch_outcome
}.

Definition M (A : Type) : Type := world -> completion A * world.

Definition ret {A} (a : A) : M A := fun w => (Return a, w).

Definition throw {A} (e : error) : M A := fun w => (Throw e, w).

Definition bind {A B} (m : M A) (k : A -> M B) : M B :=
  fun w =>
    match m w with
    | (Return a, w') => k a w'
    | (Throw e, w') => (Throw e, w')
    end.

(** [try { body } catch (err) { handler }] *)
Definition try_catch {A} (body : M A) (handler : error -> M A) : M A :=
  fun w =>
    match body w with
    | (Return a, w') => (Return a, w')
    | (Throw e, w') => handler e w'
    end.

Definition read : M S := fun w => (Return (store w), w).

Definition modify (f : S -> S) : M unit :=
  fun w => (Return tt, {| store := f (store w); effects := effects w;
                          answers := answers w |}).

Definition emit (e : effect) : M unit :=
  fun w => (Return tt, {| store := store w; effects := effects w ++ [e];
                          answers := answers w |}).

(** [await fetch(url, init)] *)
Definition fetch (req : request) : M response :=
  fun w =>
    let w' := {| store := store w; effects := effects w ++ [Fetch req];
                 answers := tail (answers w) |} in
    match answers w with
    | Responded r :: _ => (Return r, w')
    | NetworkError reason :: _ => (Throw (TypeError reason), w')
    | [] => (Throw (TypeError "Failed to fetch"), w')
    end.

(** A property read that throws on [undefined] and [null]. *)
Definition get_or_throw (v : jsval) (k : string) : M jsval :=
  match get v k with
  | Some x => ret x
  | None => throw (TypeError ("Cannot read properties of " +:+ ToString v))
  end.

End Async.

Arguments world : clear implicits.
Arguments M : clear implicits.

Declare Scope async_scope.
Delimit Scope async_scope with async.
Notation "'let*' x := m 'in' k" := (bind m (fun x => k))
  (at level 10, x name, k at level 200) : async_scope.
Notation "m ;; k" := (bind m (fun _ => k))
  (at level 100, k at level 200, right associativity) : async_scope.
Open Scope async_scope.

(** ** static/js/monky-common.js *)

Module Common.

Section WithJSON.

Context `{JSON}.

(** [fetchJSON], lines 2-10: the options handed to [fetch]. *)
Definition prepare (options : props) : props :=
  let opts := assign [("method", JString "GET")] options in
  let headers :=
    if truthy (default JUndefined (lookup_prop "headers" opts))
    then spread (default JUndefined (lookup_prop "headers" opts))
    else [] in
  let opts := set_prop "headers" (JObject headers) opts in
  let body := default JUndefined (lookup_prop "body" opts) in
  if truthy body && negb (is_FormData body)
     && negb (truthy (default JUndefined (lookup_prop "Content-Type" headers)))
  then
    let headers := set_prop "Content-Type" (JString "application/json") headers in
    let opts := set_prop "headers" (JObject headers) opts in
    if negb (String.eqb (typeof body) "string")
    then set_prop "body"
           (match JSON_stringify body with
            | Some s => JString s
            | None => JUndefined
            end) opts
    else opts
  else opts.

(** [fetchJSON], lines 14-21: the payload read from the response text. *)
Definition payload_of (text : string) : jsval :=
  if String.eqb text "" then JNull
  else match JSON_parse text with
       | Some v => v
       | None => JString text
       end.

(** [fetchJSON], lines 23-25: the message of the error thrown on a
    response that is not ok. *)
Definition error_message (payload : jsval) (r : response) : jsval :=
  if truthy payload && String.eqb (typeof payload) "object"
  then or_else (default JUndefined (get payload "detail"))
         (or_else (default JUndefined (get payload "error"))
            (match JSON_stringify payload with
             | Some s => JString s
             | None => JUndefined
             end))
  else JString (statusText r).

(** [new Error(message)]: an [undefined] message leaves the empty string. *)
Definition new_Error (m : jsval) : error :=
  match m with
  | JUndefined => Error ""
  | _ => Error (ToString m)
  end.

(** [fetchJSON], lines 13-28: what the call settles to once the response
    is there. *)
Definition settle (r : response) : completion jsval :=
  let payload := payload_of (body r) in
  if negb (ok r) then Throw (new_Error (error_message payload r))
  else Return (nullish payload (JObject [])).

Definition fetchJSON {S} (u : string) (options : props) : M S jsval :=
  let* r := fetch {| url := u; init := prepare options |} in
  match settle r with
  | Return v => ret v
  | Throw e => throw e
  end.

End WithJSON.

End Common.
Export Common.

(** ** dist/js/app.js: ping sampler and sparkline *)

Module App.

(** The module-level [pingSeries] and the layout size of the [#pingline]
    canvas, which [drawSparkline] reads at every call. *)
Record page := {
  pingSeries : list Z;
  clientWidth : Z;
  clientHeight : Z
}.

Definition set_pingSeries (l : list Z) (p : page) : page :=
  {| pingSeries := l; clientWidth := clientWidth p;
     clientHeight := clientHeight p |}.

(** [Math.round] on an exact quotient: the nearest integer, ties upwards. *)
Definition Math_round (x : Q) : Z := Qfloor (x + (1 # 2)).

(** [Math.max(...values, 100)] *)
Definition Math_max_with (values : list Z) (floor : Z) : Z :=
  fold_right Z.max floor values.

(** The y-scale of a buffer, lines 150-151. *)
Definition scale (series : list Z) : Z :=
  Math_max_with (List.map (fun v => if v <? 0 then 0 else v) series) 100.

(** The horizontal distance between two samples, line 152. *)
Definition step (series : list Z) (w : Z) : Q :=
  inject_Z w / inject_Z (Z.max (Z.of_nat (length series) - 1) 1).

(** The point of sample [v] at index [i], lines 155-156. *)
Definition point_x (series : list Z) (w : Z) (i : nat) : Q :=
  inject_Z (Z.of_nat i) * step series w.

Definition point_y (series : list Z) (h : Z) (v : Z) : Q :=
  if v <? 0 then inject_Z (h - 2)
  else inject_Z h - (inject_Z v / inject_Z (scale series)) * inject_Z h.

(** The calls [drawSparkline] makes on the 2d context, lines 148-160.
    Coordinates are exact rationals. *)
Definition sparkline_ops (series : list Z) (w h : Z) : list canvas_op :=
  ClearRect 0 0 (inject_Z w) (inject_Z h) ::
  match series with
  | [] => []
  | _ :: _ =>
      BeginPath ::
      imap (fun i v =>
              let x := point_x series w i in
              let y := point_y series h v in
              if (i =? 0)%nat then MoveTo x y else LineTo x y) series
      ++ [SetLineWidth 2; SetStrokeStyle "#4B9FFF"; Stroke]
  end.

Definition drawSparkline : M page unit :=
  let* p := read in
  emit (Draw (sparkline_ops (pingSeries p) (clientWidth p) (clientHeight p))).

Section WithJSON.

Context `{JSON}.

(** [resp.json().catch(() => ({}))] *)
Definition json_or_empty (r : response) : jsval :=
  match JSON_parse (body r) with
  | Some v => v
  | None => JObject []
  end.

(** [ping(provider)], lines 74-86.  [t0] and [t1] are the two readings of
    [performance.now()]. *)
Definition ping (provider : string) (t0 t1 : Q) : M page unit :=
  let* resp := fetch {| url := "/ping/" +:+ provider; init := [] |} in
  let ms := Math_round (t1 - t0) in
  let data := json_or_empty resp in
  let* detail := get_or_throw data "detail" in
  emit (Dom "addMessage") ;;
  modify (fun p => set_pingSeries (pingSeries p ++ [if ok resp then ms else -1]) p) ;;
  let* p := read in
  (if (40 <? Z.of_nat (length (pingSeries p)))
   then modify (fun p => set_pingSeries (tail (pingSeries p)) p)
   else ret tt) ;;
  drawSparkline.

End WithJSON.

(** The page as the script leaves it at load time, line 3. *)
Definition fresh (w h : Z) : page :=
  {| pingSeries := []; clientWidth := w; clientHeight := h |}.

End App.

(** ** The API facade of monky-common.js (the endpoints the controllers
    below call) *)

Module Api.

Section WithJSON.

Context `{JSON} {S : Type}.

Definition POST (data : jsval) : props :=
  [("method", JString "POST"); ("body", data)].

Definition env : M S jsval := fetchJSON "/env" [].
Definition dashboard (scope : string) : M S jsval :=
  fetchJSON ("/dashboard/" +:+ scope) [].
Definition assistant_providers : M S jsval := fetchJSON "/assistant/providers" [].
Definition assistant_threads : M S jsval := fetchJSON "/assistant/threads" [].
Definition assistant_createThread (data : jsval) : M S jsval :=
  fetchJSON "/assistant/threads" (POST data).
Definition assistant_messages (threadId : jsval) : M S jsval :=
  let query := if truthy threadId then "?thread_id=" +:+ ToString threadId else "" in
  fetchJSON ("/assistant/messages" +:+ query) [].
Definition projects_list : M S jsval := fetchJSON "/projects" [].
Definition tasks_list : M S jsval := fetchJSON "/tasks" [].
Definition notes_list : M S jsval := fetchJSON "/notes" [].
Definition kpi_list : M S jsval := fetchJSON "/kpi/datasets" [].
Definition dataAssets_list : M S jsval := fetchJSON "/data/assets" [].
Definition rag_list : M S jsval := fetchJSON "/rag/docs" [].
Definition budgetSummary : M S jsval := fetchJSON "/budget/summary" [].
Definition sensors_list : M S jsval := fetchJSON "/sensors" [].
Definition vault_auth (pin : jsval) : M S jsval :=
  fetchJSON "/vault/auth" (POST (JObject [("pin", pin)])).
Definition vault_list (pin : jsval) : M S jsval :=
  fetchJSON "/vault/items/list" (POST (JObject [("pin", pin)])).
Definition dev_status : M S jsval := fetchJSON "/dev/status" [].
Definition settings_config : M S jsval := fetchJSON "/settings/config" [].

(** The completions of calls started together, in the order of the calls. *)
Fixpoint all_settled (calls : list (M S jsval)) : M S (list (completion jsval)) :=
  match calls with
  | [] => ret []
  | c :: rest =>
      fun w =>
        let '(r, w1) := c w in
        match all_settled rest w1 with
        | (Return rs, w2) => (Return (r :: rs), w2)
        | (Throw e, w2) => (Throw e, w2)
        end
  end.

Fixpoint first_rejection (rs : list (completion jsval)) : option error :=
  match rs with
  | [] => None
  | Throw e :: _ => Some e
  | Return _ :: rest => first_rejection rest
  end.

Definition fulfilled (rs : list (completion jsval)) : list jsval :=
  List.concat (List.map (fun r => match r with Return v => [v] | Throw _ => [] end) rs).

(** [await Promise.all([...])]: every call is started; the result is the
    list of values, or a rejection when some call rejects.  When several
    calls reject the one reported here is the first in the order of the
    calls (at run time: the first to settle). *)
Definition Promise_all (calls : list (M S jsval)) : M S (list jsval) :=
  let* rs := all_settled calls in
  match first_rejection rs with
  | Some e => throw e
  | None => ret (fulfilled rs)
  end.

End WithJSON.

End Api.

(** ** The hub controllers: the home hub script and the work hub script *)

Module Hub.

Inductive hub := Home | Work.

Record assistant_slice := {
  providers : jsval;
  provider : jsval;
  threads : jsval;
  threadId : jsval;
  messages : jsval
}.

Record vault_slice := {
  pin : jsval;
  unlocked : bool;
  items : jsval
}.

(** The module-level [state] object.  [slices] holds the top-level data
    properties ([env], [projects], [tasks], [notes], [dashboard], and
    [budget], [sensors] or [kpi], [ragDocs], [assets]) under their names. *)
Record state := {
  tabsLoaded : gmap string bool;
  assistant : assistant_slice;
  vault : vault_slice;
  slices : gmap string jsval
}.

Definition TAB_NAMES (h : hub) : list string :=
  match h with
  | Home => ["home"; "assistant"; "projects"; "budget"; "sensors"; "vault"; "dev"]
  | Work => ["home"; "assistant"; "projects"; "kpi"; "data"; "vault"; "dev"]
  end.

Definition initial_slices (h : hub) : gmap string jsval :=
  match h with
  | Home =>
      list_to_map [("env", JObject []); ("projects", JArray []);
                   ("tasks", JArray []); ("notes", JArray []);
                   ("dashboard", JNull); ("budget", JNull);
                   ("sensors", JArray [])]
  | Work =>
      list_to_map [("env", JObject []); ("projects", JArray []);
                   ("tasks", JArray []); ("notes", JArray []);
                   ("kpi", JArray []); ("ragDocs", JArray []);
                   ("assets", JArray []); ("dashboard", JNull)]
  end.

Definition initial_state (h : hub) : state := {|
  tabsLoaded := list_to_map (List.map (fun tab => (tab, false)) (TAB_NAMES h));
  assistant := {| providers := JArray []; provider := JString "local";
                  threads := JArray []; threadId := JNull;
                  messages := JArray [] |};
  vault := {| pin := JString ""; unlocked := false; items := JArray [] |};
  slices := initial_slices h
|}.

(** [state.tabsLoaded[k]] as a condition: a missing key is [undefined]. *)
Definition loaded (s : state) (k : string) : bool :=
  default false (tabsLoaded s !! k).

Definition set_loaded (k : string) (s : state) : state :=
  {| tabsLoaded := <[k := true]> (tabsLoaded s); assistant := assistant s;
     vault := vault s; slices := slices s |}.

Definition set_slice (k : string) (v : jsval) (s : state) : state :=
  {| tabsLoaded := tabsLoaded s; assistant := assistant s;
     vault := vault s; slices := <[k := v]> (slices s) |}.

Definition set_assistant (f : assistant_slice -> assistant_slice) (s : state) : state :=
  {| tabsLoaded := tabsLoaded s; assistant := f (assistant s);
     vault := vault s; slices := slices s |}.

Definition set_vault (f : vault_slice -> vault_slice) (s : state) : state :=
  {| tabsLoaded := tabsLoaded s; assistant := assistant s;
     vault := f (vault s); slices := slices s |}.

Definition with_providers (v : jsval) (a : assistant_slice) : assistant_slice :=
  {| providers := v; provider := provider a; threads := threads a;
     threadId := threadId a; messages := messages a |}.
Definition with_provider (v : jsval) (a : assistant_slice) : assistant_slice :=
  {| providers := providers a; provider := v; threads := threads a;
     threadId := threadId a; messages := messages a |}.
Definition with_threads (v : jsval) (a : assistant_slice) : assistant_slice :=
  {| providers := providers a; provider := provider a; threads := v;
     threadId := threadId a; messages := messages a |}.
Definition with_threadId (v : jsval) (a : assistant_slice) : assistant_slice :=
  {| providers := providers a; provider := provider a; threads := threads a;
     threadId := v; messages := messages a |}.
Definition with_messages (v : jsval) (a : assistant_slice) : assistant_slice :=
  {| providers := providers a; provider := provider a; threads := threads a;
     threadId := threadId a; messages := v |}.

Definition with_pin (v : jsval) (x : vault_slice) : vault_slice :=
  {| pin := v; unlocked := unlocked x; items := items x |}.
Definition with_unlocked (b : bool) (x : vault_slice) : vault_slice :=
  {| pin := pin x; unlocked := b; items := items x |}.
Definition with_items (v : jsval) (x : vault_slice) : vault_slice :=
  {| pin := pin x; unlocked := unlocked x; items := v |}.

(** [v[0]]; reading an index of [undefined] or [null] throws. *)
Definition first_of (v : jsval) : option jsval :=
  match v with
  | JUndefined | JNull => None
  | JArray xs => Some (default JUndefined (head xs))
  | JString s =>
      Some (match s with
            | String c _ => JString (String c EmptyString)
            | EmptyString => JUndefined
            end)
  | JObject ps => Some (default JUndefined (lookup_prop "0" ps))
  | JBool _ | JNumber _ | JFormData => Some JUndefined
  end.

(** [v?.k] *)
Definition get_opt (v : jsval) (k : string) : jsval :=
  default JUndefined (get v k).

Section Controllers.

Context `{JSON}.

(** Whether a DOM routine, called with these arguments on this state, throws
    (a renderer handed a payload of an unexpected shape).  The routines
    themselves are not modelled beyond their place in the control flow. *)
Variable dom_throws : string -> list jsval -> state -> option error.

Variable h : hub.

Definition dom (routine : string) (args : list jsval) : M state unit :=
  let* s := read in
  emit (Dom routine) ;;
  match dom_throws routine args s with
  | Some e => throw e
  | None => ret tt
  end.

(** [showToast(message, variant)] *)
Definition showToast (text variant : string) : M state unit :=
  emit (Toast text variant).

(** A call of an async function that is not awaited: the caller goes on
    whatever the call settles to.  The call is followed to its end first. *)
Definition detached (call : M state unit) : M state unit :=
  fun w => (Return tt, snd (call w)).

Definition loadEnv : M state unit :=
  try_catch
    (let* v := Api.env in
     modify (set_slice "env" v))
    (fun err => showToast ("Env load failed: " +:+ message err) "danger").

Definition loadHome : M state unit :=
  try_catch
    (let* summary := Api.dashboard (match h with Home => "home" | Work => "work" end) in
     modify (set_slice "dashboard" summary) ;;
     dom "renderHome" [summary] ;;
     match h with
     | Home => ret tt
     | Work => modify (set_loaded "home")
     end)
    (fun err => showToast ("Home load failed: " +:+ message err) "danger").

(** [ensureThread] (home hub), [ensureThreadExists] (work hub) *)
Definition ensureThread : M state unit :=
  let* threads := Api.assistant_threads in
  let* len := get_or_throw threads "length" in
  if negb (truthy len) then
    let* created :=
      Api.assistant_createThread
        (JObject [("title", JString (match h with
                                     | Home => "Home Thread"
                                     | Work => "Main Thread"
                                     end))]) in
    let* id := get_or_throw created "id" in
    modify (set_assistant (with_threadId id))
  else
    let* id := match first_of threads with
               | Some t => get_or_throw t "id"
               | None => throw (TypeError "Cannot read properties of undefined")
               end in
    modify (set_assistant (with_threadId id)).

(** [renderThreads] (home hub), [renderAssistantThreads] (work hub) *)
Definition renderThreads (activeId : jsval) : M state unit :=
  dom "renderThreads" [activeId] ;;
  modify (set_assistant (with_threadId activeId)).

Definition loadMessages (id : jsval) : M state unit :=
  try_catch
    (let* payload := Api.assistant_messages id in
     let* thread := get_or_throw payload "thread" in
     let* tid := get_or_throw thread "id" in
     modify (set_assistant (with_threadId tid)) ;;
     let* msgs := get_or_throw payload "messages" in
     modify (set_assistant (with_messages (or_else msgs (JArray [])))) ;;
     dom "renderMessages" [] ;;
     dom "renderModalMessages" [])
    (fun err =>
       showToast ((match h with
                   | Home => "Chat load failed: "
                   | Work => "Load messages failed: "
                   end) +:+ message err) "danger").

(** [refreshThreads]; [fuel] bounds the number of times the function calls
    itself. *)
Fixpoint refreshThreads_fuel (fuel : nat) (activeId : jsval) : M state unit :=
  let* threads := Api.assistant_threads in
  modify (set_assistant (with_threads threads)) ;;
  let* len := get_or_throw threads "length" in
  if negb (truthy len) then
    ensureThread ;;
    let* s := read in
    match fuel with
    | O => throw (TypeError "Failed to fetch")
    | S fuel' => refreshThreads_fuel fuel' (threadId (assistant s))
    end
  else
    let* s := read in
    let* activeId' :=
      if truthy activeId then ret activeId
      else if truthy (threadId (assistant s)) then ret (threadId (assistant s))
      else match first_of threads with
           | Some t => get_or_throw t "id"
           | None => throw (TypeError "Cannot read properties of undefined")
           end in
    renderThreads activeId' ;;
    loadMessages activeId'.

(** Every round of [refreshThreads] issues at least two requests before it
    calls itself, and a request with no answer left throws: the number of
    answers left bounds the rounds. *)
Definition refreshThreads (activeId : jsval) : M state unit :=
  fun w => refreshThreads_fuel (length (answers w)) activeId w.

Definition initAssistant : M state unit :=
  let* s := read in
  if loaded s (match h with Home => "assistant_init" | Work => "assistant" end)
  then ret tt
  else
    try_catch
      (let* providerData := Api.assistant_providers in
       let* ps := get_or_throw providerData "providers" in
       modify (set_assistant (with_providers (or_else ps (JArray [])))) ;;
       let* dflt := get_or_throw providerData "default" in
       let* s := read in
       let first := default JUndefined (first_of (providers (assistant s))) in
       modify (set_assistant
                 (with_provider
                    (or_else dflt (or_else (get_opt first "id") (JString "local"))))) ;;
       dom "populateProviderSelects" [] ;;
       ensureThread ;;
       let* s := read in
       refreshThreads (threadId (assistant s)) ;;
       dom "setupAssistantEvents" [] ;;
       match h with
       | Home => modify (set_loaded "assistant_init") ;; modify (set_loaded "assistant")
       | Work => modify (set_loaded "assistant")
       end)
      (fun err => showToast ("Assistant init failed: " +:+ message err) "danger").

Definition refreshProjectsSection : M state unit :=
  try_catch
    (let* rs := Api.Promise_all [Api.projects_list; Api.tasks_list; Api.notes_list] in
     modify (set_slice "projects" (nth 0 rs JUndefined)) ;;
     modify (set_slice "tasks" (nth 1 rs JUndefined)) ;;
     modify (set_slice "notes" (nth 2 rs JUndefined)) ;;
     dom "renderProjects" [] ;;
     dom "renderTasks" [] ;;
     dom "renderNotes" [] ;;
     dom "populateProjectSelects" [])
    (fun err => showToast ("Project load failed: " +:+ message err) "danger").

(** Home hub only. *)
Definition refreshBudget : M state unit :=
  try_catch
    (let* summary := Api.budgetSummary in
     modify (set_slice "budget" summary) ;;
     dom "renderBudget" [])
    (fun err => showToast ("Budget load failed: " +:+ message err) "danger").

(** Home hub only. *)
Definition refreshSensors : M state unit :=
  try_catch
    (let* v := Api.sensors_list in
     modify (set_slice "sensors" v) ;;
     dom "renderSensors" [])
    (fun err => showToast ("Sensor load failed: " +:+ message err) "danger").

(** Work hub only. *)
Definition refreshKpi : M state unit :=
  try_catch
    (let* v := Api.kpi_list in
     modify (set_slice "kpi" v) ;;
     dom "renderKpi" [] ;;
     dom "renderKpiVisuals" [v])
    (fun err => showToast ("KPI load failed: " +:+ message err) "danger").

(** Work hub only. *)
Definition refreshData : M state unit :=
  try_catch
    (let* rs := Api.Promise_all [Api.rag_list; Api.dataAssets_list] in
     modify (set_slice "ragDocs" (nth 0 rs JUndefined)) ;;
     modify (set_slice "assets" (nth 1 rs JUndefined)) ;;
     dom "renderRagDocs" [] ;;
     dom "renderAssets" [])
    (fun err => showToast ("Data load failed: " +:+ message err) "danger").

Definition refreshDev : M state unit :=
  try_catch
    (let* rs := Api.Promise_all [Api.dev_status; Api.settings_config] in
     dom "renderDevStatus" [nth 0 rs JUndefined] ;;
     dom "renderDevConfig" [nth 1 rs JUndefined] ;;
     match h with
     | Home => ret tt
     | Work => modify (set_loaded "dev")
     end)
    (fun err => showToast ("Dev load failed: " +:+ message err) "danger").

(** The loader the [switch] of [activateTab] starts for a tab id. *)
Definition loader_of (tabId : string) : option (M state unit) :=
  match h with
  | Home =>
      if String.eqb tabId "home" then Some loadHome
      else if String.eqb tabId "assistant" then Some initAssistant
      else if String.eqb tabId "projects" then Some refreshProjectsSection
      else if String.eqb tabId "budget" then Some refreshBudget
      else if String.eqb tabId "sensors" then Some refreshSensors
      else if String.eqb tabId "dev" then Some refreshDev
      else None
  | Work =>
      if String.eqb tabId "home" then Some loadHome
      else if String.eqb tabId "assistant" then Some initAssistant
      else if String.eqb tabId "projects" then Some refreshProjectsSection
      else if String.eqb tabId "kpi" then Some refreshKpi
      else if String.eqb tabId "data" then Some refreshData
      else if String.eqb tabId "dev" then Some refreshDev
      else None
  end.

Definition tab_element (tabId : string) : string :=
  match h with
  | Home => "home-tab-" +:+ tabId
  | Work => "tab-" +:+ tabId
  end.

Definition activateTab (tabId : string) : M state unit :=
  emit (ShowOnlyTab (tab_element tabId)) ;;
  let* s := read in
  if loaded s tabId then ret tt
  else
    match loader_of tabId with
    | Some loader => detached loader
    | None => ret tt
    end ;;
    modify (set_loaded tabId).

Definition loadVaultItems : M state unit :=
  try_catch
    (let* s := read in
     let* v := Api.vault_list (pin (vault s)) in
     modify (set_vault (with_items v)) ;;
     dom "renderVault" [])
    (fun err => showToast ("Vault load failed: " +:+ message err) "danger").

Definition vault_secure : string :=
  match h with
  | Home => "home-vault-secure"
  | Work => "vault-secure"
  end.

(** The submit listener [setupVaultTab] puts on the unlock form, after its
    [e.preventDefault()]; [p] is the form's [pin] entry. *)
Definition vault_unlock_submit (p : jsval) : M state unit :=
  try_catch
    (let* result := Api.vault_auth p in
     let* accepted := get_or_throw result "ok" in
     if truthy accepted then
       modify (set_vault (with_pin p)) ;;
       modify (set_vault (with_unlocked true)) ;;
       emit (SetHidden vault_secure false) ;;
       loadVaultItems ;;
       showToast "Vault unlocked" "success"
     else showToast "Invalid PIN" "danger")
    (fun err => showToast ("Vault auth failed: " +:+ message err) "danger").

End Controllers.

End Hub.

(** * Vocabulary of the properties *)

Import App Hub.

(** ** Sequences of pings *)

(** The last [n] elements of a list. *)
Definition lastn {A} (n : nat) (l : list A) : list A :=
  drop (length l - n) l.

(** A call of [ping]: the provider and the two clock readings. *)
Record ping_call := {
  call_provider : string;
  call_t0 : Q;
  call_t1 : Q
}.

(** Independent calls of [ping], each started when the one before it has
    settled; a call that throws does not stop the next. *)
Definition run_pings `{JSON} (calls : list ping_call) (w : world page) : world page :=
  fold_left (fun w c => snd (ping (call_provider c) (call_t0 c) (call_t1 c) w)) calls w.

(** The sample a call of [ping] is to record, read off the answer its request
    gets: nothing when there is no response or when the response body is the
    JSON text [null]. *)
Definition sample_of `{JSON} (c : ping_call) (answer : option fetch_outcome) : list Z :=
  match answer with
  | Some (Responded r) =>
      match get (json_or_empty r) "detail" with
      | Some _ => [if ok r then Math_round (call_t1 c - call_t0 c) else -1]
      | None => []
      end
  | _ => []
  end.

(** The samples a sequence of calls records, oldest first. *)
Fixpoint recorded `{JSON} (calls : list ping_call) (ans : list fetch_outcome) : list Z :=
  match calls with
  | [] => []
  | c :: rest => sample_of c (head ans) ++ recorded rest (tail ans)
  end.

(** [pingSeries.push(v); if (pingSeries.length > 40) pingSeries.shift()] *)
Definition push_capped (buf : list Z) (v : Z) : list Z :=
  if 40 <? Z.of_nat (length (buf ++ [v])) then tail (buf ++ [v]) else buf ++ [v].

(** ** Payloads and requests of [fetchJSON] *)

(** A payload that is an object to [typeof] and is not [null]. *)
Definition is_structured (p : jsval) : bool :=
  match p with
  | JObject _ | JArray _ | JFormData => true
  | _ => false
  end.

(** The text [{"detail":"not found"}]. *)
Definition body_detail_not_found : string :=
  "{" +:+ String RefJSON.dquote "detail" +:+ String RefJSON.dquote ":"
      +:+ String RefJSON.dquote "not found" +:+ String RefJSON.dquote "}".

(** The value an options bag gives to a header: [undefined] when the bag has
    no (truthy) [headers], or they lack the name. *)
Definition header_of (options : props) (name : string) : jsval :=
  let hv := default JUndefined (lookup_prop "headers" options) in
  if truthy hv then default JUndefined (lookup_prop name (spread hv))
  else JUndefined.

Definition body_of (options : props) : jsval :=
  default JUndefined (lookup_prop "body" options).

(** [JSON.stringify(v)] as a value. *)
Definition stringified `{JSON} (v : jsval) : jsval :=
  match JSON_stringify v with
  | Some s => JString s
  | None => JUndefined
  end.

(** The text [{"a":1}]. *)
Definition text_a_1 : string :=
  "{" +:+ String RefJSON.dquote "a" +:+ String RefJSON.dquote ":1}".

(** A request with no options. *)
Definition GET `{JSON} (u : string) : request := {| url := u; init := prepare [] |}.

(** The request of [api.vault.auth] and of [api.vault.list]: a POST of
    [{pin}] as JSON. *)
Definition pin_request `{JSON} (u : string) (p : jsval) : request :=
  {| url := u;
     init := [("method", JString "POST");
              ("body", stringified (JObject [("pin", p)]));
              ("headers", JObject [("Content-Type", JString "application/json")])] |}.

(** What a call of [fetchJSON] settles to, by the answer its request gets. *)
Definition outcome_of `{JSON} (a : option fetch_outcome) : completion jsval :=
  match a with
  | Some (Responded r) => settle r
  | Some (NetworkError reason) => Throw (TypeError reason)
  | None => Throw (TypeError "Failed to fetch")
  end.

(** The facade call that gets this answer fails: no response, or a response
    that is not 2xx. *)
Definition failed (a : option fetch_outcome) : bool :=
  match a with
  | Some (Responded r) => negb (ok r)
  | _ => true
  end.


(** ** Relations between the world before and after a computation *)

Class Frame {S : Type} (R : world S -> world S -> Prop) := {
  frame_refl : forall w, R w w;
  frame_trans : forall a b c, R a b -> R b c -> R a c;
  frame_emit : forall w e,
    R w {| store := store w; effects := effects w ++ [e]; answers := answers w |};
  frame_fetch : forall w req,
    R w {| store := store w; effects := effects w ++ [Fetch req];
           answers := tail (answers w) |}
}.

Definition keeps {S A : Type} (R : world S -> world S -> Prop) (m : M S A) : Prop :=
  forall w, R w (snd (m w)).

(** A state update that [R] allows. *)
Definition allowed {S : Type} (R : world S -> world S -> Prop) (f : S -> S) : Prop :=
  forall w, R w {| store := f (store w); effects := effects w; answers := answers w |}.

(** The state updates of the controllers that a relation allows: all those
    of the data slices, and the setting of the flags named in [keys]. *)
Class Updates (R : world state -> world state -> Prop) (keys : list string) := {
  upd_slice : forall k v, allowed R (set_slice k v);
  upd_assistant : forall f, allowed R (set_assistant f);
  upd_vault : forall f, allowed R (set_vault f);
  upd_loaded : forall k, In k keys -> allowed R (set_loaded k)
}.

(** From one world to the next the effect log is only appended to. *)
Definition effects_extend (w w' : world state) : Prop :=
  exists more, effects w' = effects w ++ more.

(** From one world to the next the flags of [tabsLoaded] stay as they are,
    except that those named in [keys] may have been set to [true]. *)
Definition flags_grow (keys : list string) (w w' : world state) : Prop :=
  forall k,
    tabsLoaded (store w') !! k = tabsLoaded (store w) !! k
    \/ (In k keys /\ tabsLoaded (store w') !! k = Some true).

(** From one world to the next no answer is added to those still to come. *)
Definition answers_shrink (w w' : world state) : Prop :=
  (length (answers w') <= length (answers w))%nat.

(** The pin and the lock of the vault are as they were. *)
Definition vault_key_kept (w w' : world state) : Prop :=
  pin (vault (store w')) = pin (vault (store w))
  /\ unlocked (vault (store w')) = unlocked (vault (store w)).

(** [fetches_first req m]: whatever the world, the first effect of [m] is
    the request [req]. *)
Definition fetches_first {A : Type} (req : request) (m : M state A) : Prop :=
  forall w, exists more, effects (snd (m w)) = effects w ++ Fetch req :: more.

(** ** Tabs and their loads *)

(** The flags [activateTab] may set for a tab: its own, and for the
    assistant the init flag of the home hub. *)
Definition touched (tabId : string) : list string :=
  if String.eqb tabId "assistant" then [tabId; "assistant_init"] else [tabId].

(** The first request of the load of a tab, for the tabs that have one. *)
Definition first_request (h : hub) (tabId : string) : option string :=
  if String.eqb tabId "home"
  then Some (match h with Home => "/dashboard/home" | Work => "/dashboard/work" end)
  else if String.eqb tabId "assistant" then Some "/assistant/providers"
  else if String.eqb tabId "projects" then Some "/projects"
  else if String.eqb tabId "dev" then Some "/dev/status"
  else match h with
       | Home =>
           if String.eqb tabId "budget" then Some "/budget/summary"
           else if String.eqb tabId "sensors" then Some "/sensors"
           else None
       | Work =>
           if String.eqb tabId "kpi" then Some "/kpi/datasets"
           else if String.eqb tabId "data" then Some "/rag/docs"
           else None
       end.

(** The flag [initAssistant] looks at before doing anything. *)
Definition init_guard (h : hub) : string :=
  match h with Home => "assistant_init" | Work => "assistant" end.

(** What happens on the page between two looks at it: a tab is activated,
    or some other listener or loader runs. *)
Inductive event :=
  | Activate (tabId : string)
  | Handler (run : M state unit).

(** A run in order: the tabs activated are tabs of the hub, and a listener
    sets no flag of [tabsLoaded] but those of the tabs activated before it
    ([done] lists them).  The listeners that leave the flags alone are in
    order wherever they come; a loader that sets the flag of its tab itself
    (in the work hub [refreshDev], behind the refresh button of the dev tab,
    and [loadHome]) is in order once its tab has been activated. *)
Fixpoint orderly (h : hub) (done : list string) (events : list event) : Prop :=
  match events with
  | [] => True
  | Activate tabId :: rest =>
      In tabId (TAB_NAMES h) /\ orderly h (done ++ [tabId]) rest
  | Handler m :: rest => keeps (flags_grow done) m /\ orderly h done rest
  end.

(** Events, one after the other. *)
Definition run_events `{JSON}
  (dom_throws : string -> list jsval -> state -> option error) (h : hub)
  (events : list event) (w : world state) : world state :=
  fold_left (fun w e => match e with
                        | Activate tabId => snd (activateTab dom_throws h tabId w)
                        | Handler m => snd (m w)
                        end) events w.

(** The tabs activated in a run, in order. *)
Definition activated (events : list event) : list string :=
  List.concat (List.map (fun e => match e with
                                  | Activate tabId => [tabId]
                                  | Handler _ => []
                                  end) events).

(** What the flags say after a run of activations: a tab is marked loaded
    exactly when it has been activated; the init flag of the assistant is set
    only after the assistant tab has been activated. *)
Definition tracks (done : list string) (w : world state) : Prop :=
  (forall k, k <> "assistant_init" -> loaded (store w) k = true <-> In k done)
  /\ (loaded (store w) "assistant_init" = true -> In "assistant" done).

(** The loaders that call the facade in one stage, before they touch the
    state. *)
Inductive loader :=
  | LoadEnv | LoadHome | RefreshProjectsSection | RefreshBudget | RefreshSensors
  | RefreshKpi | RefreshData | RefreshDev | LoadVaultItems.

Definition run `{JSON}
  (dom_throws : string -> list jsval -> state -> option error) (h : hub)
  (l : loader) : M state unit :=
  match l with
  | LoadEnv => loadEnv
  | LoadHome => loadHome dom_throws h
  | RefreshProjectsSection => refreshProjectsSection dom_throws
  | RefreshBudget => refreshBudget dom_throws
  | RefreshSensors => refreshSensors dom_throws
  | RefreshKpi => refreshKpi dom_throws
  | RefreshData => refreshData dom_throws
  | RefreshDev => refreshDev dom_throws h
  | LoadVaultItems => loadVaultItems dom_throws
  end.


(** ** The vault *)

(** The answer of the auth endpoint is an acceptance: a 2xx response whose
    payload has a truthy [ok]. *)
Definition auth_accepted `{JSON} (answer : option fetch_outcome) : bool :=
  match answer with
  | Some (Responded r) =>
      match settle r with
      | Return result => truthy (get_opt result "ok")
      | Throw _ => false
      end
  | _ => false
  end.

(** The world right after an accepted auth: pin stored, vault unlocked, the
    secure section revealed. *)
Definition unlocked_world `{JSON} (h : hub) (p : jsval) (w : world state) : world state :=
  {| store := set_vault (with_unlocked true) (set_vault (with_pin p) (store w));
     effects := effects w ++ [Fetch (pin_request "/vault/auth" p);
                              SetHidden (vault_secure h) false];
     answers := tail (answers w) |}.

(** * More of the scripts *)

(** ** Text operations of the platform, as the scripts use them *)

Module Text.

Definition newline : ascii := "010"%char.

(** [s.replace(/c/g, rep)] for a pattern of one character. *)
Fixpoint replace_char (c : ascii) (rep : string) (s : string) : string :=
  match s with
  | EmptyString => EmptyString
  | String x t =>
      if Ascii.eqb x c then rep +:+ replace_char c rep t
      else String x (replace_char c rep t)
  end.

Definition is_backtick (c : ascii) : bool := Ascii.eqb c "`"%char.

(** [s.replace(/```/g, '')] *)
Fixpoint remove_fences (s : string) : string :=
  match s with
  | EmptyString => EmptyString
  | String a r =>
      match r with
      | String b (String c t) =>
          if is_backtick a && is_backtick b && is_backtick c
          then remove_fences t
          else String a (remove_fences r)
      | _ => String a (remove_fences r)
      end
  end.

(** [s.split(/\n\n+/)], read left to right: [cur] is the block being read,
    [pending] the number of newlines just seen.  A run of two or more
    newlines ends the block; a single newline belongs to it. *)
Fixpoint split_blocks_from (s : string) (cur : string) (pending : nat) : list string :=
  match s with
  | EmptyString =>
      match pending with
      | O => [cur]
      | S O => [cur +:+ String newline EmptyString]
      | S (S _) => [cur; EmptyString]
      end
  | String c r =>
      if Ascii.eqb c newline then split_blocks_from r cur (S pending)
      else
        match pending with
        | O => split_blocks_from r (cur +:+ String c EmptyString) O
        | S O =>
            split_blocks_from r
              (cur +:+ String newline (String c EmptyString)) O
        | S (S _) => cur :: split_blocks_from r (String c EmptyString) O
        end
  end.

Definition split_blocks (s : string) : list string :=
  split_blocks_from s EmptyString O.

End Text.

(** ** More of dist/js/app.js *)

Module AppMore.

Import Text App.

(** [addMessage], lines 8-9: the markup of a message bubble.  Only the text
    goes through the replacement of line 8. *)
Definition addMessage_html (user text : string) (meta : jsval) : string :=
  let safe := replace_char "<" "&lt;" text in
  "<strong>" +:+ user +:+ ":</strong> " +:+ safe
  +:+ (if truthy meta
       then "<div class=" +:+ String RefJSON.dquote "meta" +:+ String RefJSON.dquote ">"
            +:+ ToString meta +:+ "</div>"
       else "").

(** The entries of a [select]: value and text. *)
Record select_option := {
  option_value : string;
  option_text : string
}.

(** [<option>Loading…</option>]: an option without a value attribute has
    its text as value. *)
Definition loading_option : select_option :=
  {| option_value := "Loading…"; option_text := "Loading…" |}.
Definition fallback_option : select_option :=
  {| option_value := "gpt-4o"; option_text := "gpt-4o" |}.

(** What [for (const m of v)] goes through; a value that is not iterable
    throws. *)
Definition iterate (v : jsval) : option (list jsval) :=
  match v with
  | JArray xs => Some xs
  | JString s => Some (chars s)
  | _ => None
  end.

(** A loop over a list with an awaited or plain body: the first throw ends
    it. *)
Fixpoint for_each {S A : Type} (l : list A) (body : A -> M S unit) : M S unit :=
  match l with
  | [] => ret tt
  | x :: rest => body x ;; for_each rest body
  end.

Section WithJSON.

Context `{JSON}.

(** The message of the SyntaxError a text that is not JSON is rejected
    with, which is the platform's. *)
Variable syntax_message : string -> string.

(** [await resp.json()] *)
Definition resp_json {S : Type} (r : response) : M S jsval :=
  match JSON_parse (body r) with
  | Some v => ret v
  | None => throw (Error (syntax_message (body r)))
  end.

(** [refreshModels], lines 15-40, on the entries of the [#model] select;
    [provider] is the value of the [#provider] select. *)
Definition refreshModels (provider : string) : M (list select_option) unit :=
  modify (fun _ => [loading_option]) ;;
  try_catch
    (let* resp := fetch {| url := "/models/" +:+ provider; init := [] |} in
     let* data := resp_json resp in
     modify (fun _ => []) ;;
     let* listed := get_or_throw data "models" in
     let models := or_else listed (JArray []) in
     let* len := get_or_throw models "length" in
     (if truthy len then
        match iterate models with
        | Some ms =>
            for_each ms (fun m =>
              let* mid := get_or_throw m "id" in
              let id := ToString (or_else mid m) in
              let* mname := get_or_throw m "name" in
              let name := or_else mname (JString id) in
              modify (fun opts =>
                opts ++ [{| option_value := id; option_text := ToString name |}]))
        | None => throw (TypeError "models is not iterable")
        end
      else modify (fun _ => [fallback_option])) ;;
     let* warning := get_or_throw data "warning" in
     if truthy warning then emit (Dom "console.warn") else ret tt)
    (fun err =>
       emit (Dom "console.error") ;;
       modify (fun _ => [fallback_option])).

(** [pingAll], lines 88-92.  [clock p] gives the two clock readings of the
    ping of provider [p]. *)
Definition providers_swept : list string :=
  ["openai"; "openrouter"; "qwen"; "ollama"; "genesis"].

Definition pingAll (clock : string -> Q * Q) : M page unit :=
  for_each providers_swept (fun p => ping p (fst (clock p)) (snd (clock p))).

End WithJSON.

(** The tick of [fetchUptime], lines 137-139; [elapsed] is
    [Date.now()/1000 - start].  The three numbers shown. *)
Definition uptime_parts (elapsed : Q) : Z * Z * Z :=
  let secs := Z.max 0 (Qfloor elapsed) in
  let h := secs / 3600 in
  let m := (secs mod 3600) / 60 in
  let s := secs mod 60 in
  (h, m, s).

Definition uptime_text (elapsed : Q) : string :=
  let '(h, m, s) := uptime_parts elapsed in
  number_to_string h +:+ "h " +:+ number_to_string m +:+ "m "
  +:+ number_to_string s +:+ "s".

End AppMore.

(** ** More of static/js/monky-common.js *)

Module CommonMore.

Import App.

(** [relativeTime], lines 70-81, from the difference
    [Date.now() - date.getTime()] in milliseconds: the amount and the unit
    shown, [None] for 'just now'. *)
Definition relativeTime_parts (diff : Z) : option (Z * string) :=
  let minutes := Math_round (diff # 60000) in
  if minutes <? 1 then None
  else if minutes <? 60 then Some (minutes, "m")
  else
    let hours := Math_round (minutes # 60) in
    if hours <? 24 then Some (hours, "h")
    else
      let days := Math_round (hours # 24) in
      if days <? 30 then Some (days, "d")
      else
        let months := Math_round (days # 30) in
        if months <? 12 then Some (months, "mo")
        else
          let years := Math_round (months # 12) in
          Some (years, "y").

Definition relativeTime_text (diff : Z) : string :=
  match relativeTime_parts diff with
  | None => "just now"
  | Some (n, unit) => number_to_string n +:+ unit +:+ " ago"
  end.

(** [relativeTime(value)], lines 66-82.  [time] is [new Date(value).getTime()],
    [None] when the date is invalid; [now] is [Date.now()]. *)
Definition relativeTime (value : jsval) (time : option Z) (now : Z) : jsval :=
  if negb (truthy value) then JString "—"
  else match time with
       | None => value
       | Some t => JString (relativeTime_text (now - t))
       end.

End CommonMore.

(** ** The Markdown of the chat, in both hub scripts *)

Module Markdown.

Import Text.

Section WithTrim.

(** [String.prototype.trim] *)
Variable trim : string -> string.

(** One block of [formatMarkdown]. *)
Definition render_block (block : string) : string :=
  if String.prefix "```" block
  then "<pre><code>" +:+ trim (remove_fences block) +:+ "</code></pre>"
  else "<p>" +:+ replace_char newline "<br />" block +:+ "</p>".

Definition escape (s : string) : string :=
  replace_char ">" "&gt;" (replace_char "<" "&lt;" (replace_char "&" "&amp;" s)).

(** [formatMarkdown(text)]; a truthy text that is not a string has no
    [replace]: [None]. *)
Definition formatMarkdown (text : jsval) : option string :=
  match or_else text (JString "") with
  | JString s =>
      Some (String.concat "" (List.map render_block (split_blocks (escape s))))
  | _ => None
  end.

End WithTrim.

(** A [trim] for texts whose white space is ASCII. *)
Definition is_space (c : ascii) : bool :=
  let n := nat_of_ascii c in
  (n =? 32)%nat || ((9 <=? n)%nat && (n <=? 13)%nat).

Fixpoint trim_start (s : string) : string :=
  match s with
  | String c r => if is_space c then trim_start r else s
  | EmptyString => s
  end.

Fixpoint trim_end (s : string) : string :=
  match s with
  | EmptyString => EmptyString
  | String c r =>
      match trim_end r with
      | EmptyString => if is_space c then EmptyString else String c EmptyString
      | r' => String c r'
      end
  end.

Definition ascii_trim (s : string) : string := trim_end (trim_start s).

End Markdown.

(** ** More of the API facade: the calls that change data *)

Module ApiMore.

Section WithJSON.

Context `{JSON} {S : Type}.

Definition PUT (data : jsval) : props :=
  [("method", JString "PUT"); ("body", data)].

Definition DELETE : props := [("method", JString "DELETE")].

Definition projects_create (data : jsval) : M S jsval :=
  fetchJSON "/projects" (Api.POST data).
Definition projects_update (id data : jsval) : M S jsval :=
  fetchJSON ("/projects/" +:+ ToString id) (PUT data).
Definition projects_remove (id : jsval) : M S jsval :=
  fetchJSON ("/projects/" +:+ ToString id) DELETE.
Definition tasks_create (data : jsval) : M S jsval :=
  fetchJSON "/tasks" (Api.POST data).
Definition tasks_update (id data : jsval) : M S jsval :=
  fetchJSON ("/tasks/" +:+ ToString id) (PUT data).
Definition tasks_remove (id : jsval) : M S jsval :=
  fetchJSON ("/tasks/" +:+ ToString id) DELETE.
Definition notes_create (data : jsval) : M S jsval :=
  fetchJSON "/notes" (Api.POST data).
Definition notes_remove (id : jsval) : M S jsval :=
  fetchJSON ("/notes/" +:+ ToString id) DELETE.
Definition vault_create (data : jsval) : M S jsval :=
  fetchJSON "/vault/items" (Api.POST data).
Definition vault_remove (id pin : jsval) : M S jsval :=
  fetchJSON ("/vault/items/" +:+ ToString id)
    [("method", JString "DELETE"); ("body", JObject [("pin", pin)])].

Definition kpi_upload (formData : jsval) : M S jsval :=
  fetchJSON "/kpi/upload" (Api.POST formData).
Definition budget_import (formData : jsval) : M S jsval :=
  fetchJSON "/budget/import" (Api.POST formData).
Definition settings_update (updates : jsval) : M S jsval :=
  fetchJSON "/settings/config" (Api.POST updates).

End WithJSON.

End ApiMore.

(** ** More of the hub controllers: the listeners that change data *)

Module HubMore.

Import Hub.

Section Listeners.

Context `{JSON}.

Variable dom_throws : string -> list jsval -> state -> option error.

Variable h : hub.

(** The three actions a project has: the forms of [setupProjectsTab]. *)
Inductive kind := Project | Task | Note.

Definition kind_name (k : kind) : string :=
  match k with Project => "Project" | Task => "Task" | Note => "Note" end.

Definition create (k : kind) (data : jsval) : M state jsval :=
  match k with
  | Project => ApiMore.projects_create data
  | Task => ApiMore.tasks_create data
  | Note => ApiMore.notes_create data
  end.

(** The submit listener of the project, task and note forms, after its
    [e.preventDefault()]; [data] is the object made of the form's entries.
    The home hub shows the toast after the lists are fetched again, the work
    hub before. *)
Definition form_submit (k : kind) (data : jsval) : M state unit :=
  try_catch
    (create k data ;;
     emit (Dom "reset") ;;
     match h with
     | Home =>
         refreshProjectsSection dom_throws ;;
         showToast (kind_name k +:+ " saved") "success"
     | Work =>
         showToast (kind_name k +:+ " saved") "success" ;;
         refreshProjectsSection dom_throws
     end)
    (fun err => showToast (kind_name k +:+ " error: " +:+ message err) "danger").

Definition updateProject (id patch : jsval) : M state unit :=
  try_catch
    (ApiMore.projects_update id patch ;;
     refreshProjectsSection dom_throws)
    (fun err =>
       showToast ((match h with
                   | Home => "Project update failed: "
                   | Work => "Update failed: "
                   end) +:+ message err) "danger").

Definition updateTask (id patch : jsval) : M state unit :=
  try_catch
    (ApiMore.tasks_update id patch ;;
     refreshProjectsSection dom_throws)
    (fun err => showToast ("Task update failed: " +:+ message err) "danger").

(** Work hub only.  [confirmed] is the answer to [confirm(...)]. *)
Definition deleteProject (confirmed : bool) (id : jsval) : M state unit :=
  if negb confirmed then ret tt
  else
    try_catch
      (ApiMore.projects_remove id ;;
       refreshProjectsSection dom_throws)
      (fun err => showToast ("Delete failed: " +:+ message err) "danger").

(** Work hub only. *)
Definition deleteTask (confirmed : bool) (id : jsval) : M state unit :=
  if negb confirmed then ret tt
  else
    try_catch
      (ApiMore.tasks_remove id ;;
       refreshProjectsSection dom_throws)
      (fun err => showToast ("Task delete failed: " +:+ message err) "danger").

(** Work hub only. *)
Definition deleteNote (confirmed : bool) (id : jsval) : M state unit :=
  if negb confirmed then ret tt
  else
    try_catch
      (ApiMore.notes_remove id ;;
       refreshProjectsSection dom_throws)
      (fun err => showToast ("Note delete failed: " +:+ message err) "danger").

(** The submit listener [setupVaultTab] puts on the form of a new secret,
    after its [e.preventDefault()]; [entries] are the form's entries. *)
Definition vault_form_submit (entries : props) : M state unit :=
  let* s := read in
  if negb (unlocked (vault s)) then showToast "Unlock vault first" "warn"
  else
    let data := JObject (set_prop "pin" (pin (vault s)) entries) in
    try_catch
      (ApiMore.vault_create data ;;
       emit (Dom "reset") ;;
       loadVaultItems dom_throws ;;
       showToast "Secret stored" "success")
      (fun err => showToast ("Vault error: " +:+ message err) "danger").

Definition deleteVaultItem (confirmed : bool) (id : jsval) : M state unit :=
  if negb confirmed then ret tt
  else
    try_catch
      (let* s := read in
       ApiMore.vault_remove id (pin (vault s)) ;;
       loadVaultItems dom_throws)
      (fun err =>
         showToast ((match h with
                     | Home => "Delete failed: "
                     | Work => "Vault delete failed: "
                     end) +:+ message err) "danger").

(** What [formData.get('file')] gives: nothing, a text, or a file of some
    size. *)
Inductive form_entry :=
  | NoEntry
  | TextEntry (s : string)
  | FileEntry (size : Z).

(** [!file] *)
Definition entry_missing (file : form_entry) : bool :=
  match file with
  | NoEntry => true
  | TextEntry s => String.eqb s ""
  | FileEntry _ => false
  end.

(** [!file.size], for an entry that is there *)
Definition entry_sizeless (file : form_entry) : bool :=
  match file with
  | FileEntry size => size =? 0
  | _ => true
  end.

(** The submit listener of [setupBudgetTab] (home hub), after its
    [e.preventDefault()]; [file] is the form's [file] entry. *)
Definition budget_import_submit (file : form_entry) : M state unit :=
  if entry_missing file || entry_sizeless file
  then showToast "Select a CSV/XLSX file" "warn"
  else
    try_catch
      (let* payload := ApiMore.budget_import JFormData in
       let* imported := get_or_throw payload "imported" in
       showToast ("Imported " +:+ ToString imported +:+ " bills") "success" ;;
       emit (Dom "reset") ;;
       refreshBudget dom_throws)
      (fun err => showToast ("Budget import failed: " +:+ message err) "danger").

(** The submit listener of [setupKpiTab] (work hub). *)
Definition kpi_upload_submit (file : form_entry) : M state unit :=
  if entry_missing file
  then showToast "Select a file to upload" "warn"
  else
    try_catch
      (ApiMore.kpi_upload JFormData ;;
       showToast "KPI uploaded" "success" ;;
       emit (Dom "reset") ;;
       refreshKpi dom_throws)
      (fun err => showToast ("KPI upload failed: " +:+ message err) "danger").

(** The message of the SyntaxError [JSON.parse] throws on a text, which is
    the platform's. *)
Variable syntax_message : string -> string.

(** [saveConfig] of the hubs; [text] is the content of the config
    textarea. *)
Definition saveConfig (text : string) : M state unit :=
  try_catch
    (match JSON_parse text with
     | None => throw (Error (syntax_message text))
     | Some parsed =>
         ApiMore.settings_update parsed ;;
         showToast "Config saved" "success"
     end)
    (fun err => showToast ("Config save failed: " +:+ message err) "danger").

End Listeners.

End HubMore.

(** ** static/js/monky-server.js: the credentials form of the server page *)

Module Server.

(** [name.split('.')] *)
Fixpoint split_dots_from (s : string) (cur : string) : list string :=
  match s with
  | EmptyString => [cur]
  | String c r =>
      if Ascii.eqb c "."%char then cur :: split_dots_from r EmptyString
      else split_dots_from r (cur +:+ String c EmptyString)
  end.

Definition split_dots (s : string) : list string := split_dots_from s EmptyString.

(** The names every object inherits from [Object.prototype].  Property
    lists hold own properties only: a walk that reads or writes under one of
    these names leaves plain data and is not followed. *)
Definition inherited_names : list string :=
  ["constructor"; "__proto__"; "hasOwnProperty"; "isPrototypeOf";
   "propertyIsEnumerable"; "toString"; "toLocaleString"; "valueOf";
   "__defineGetter__"; "__defineSetter__"; "__lookupGetter__";
   "__lookupSetter__"].

Definition inherited (segment : string) : bool :=
  existsb (String.eqb segment) inherited_names.

(** What [collectFormValues] comes to: the object it has built, a TypeError,
    or a walk that is not followed. *)
Inductive collected :=
  | Built (data : props)
  | Thrown
  | Unfollowed.

(** The walk of [collectFormValues], lines 219-227, along the path of one
    input, from the object [cursor].  The values it meets are those the
    function has put there: strings and plain objects.  Assigning a property
    on a string throws (the script is a module, so strict). *)
Fixpoint set_path (path : list string) (value : string) (cursor : props)
  : collected :=
  match path with
  | [] => Built cursor
  | segment :: rest =>
      if inherited segment then Unfollowed
      else
        match rest with
        | [] => Built (set_prop segment (JString value) cursor)
        | _ :: _ =>
            match or_else (default JUndefined (lookup_prop segment cursor))
                    (JObject []) with
            | JObject inner =>
                match set_path rest value inner with
                | Built inner' => Built (set_prop segment (JObject inner') cursor)
                | Thrown => Thrown
                | Unfollowed => Unfollowed
                end
            | JString _ | JNumber _ | JBool _ => Thrown
            | _ => Unfollowed
            end
        end
  end.

Fixpoint collect_from (inputs : list (string * string)) (data : props)
  : collected :=
  match inputs with
  | [] => Built data
  | (name, value) :: rest =>
      match set_path (split_dots name) value data with
      | Built data' => collect_from rest data'
      | Thrown => Thrown
      | Unfollowed => Unfollowed
      end
  end.

(** [collectFormValues(form)]; [inputs] are the names and values of the
    form's inputs, in document order. *)
Definition collectFormValues (inputs : list (string * string)) : collected :=
  collect_from inputs [].

(** The walk of [populateCredentialForm], lines 129-132:
    [value = value ? value[segment] : undefined] along the path.  [None]
    where the walk is not followed: it reads an inherited name, or a
    property of a truthy value that is not a plain object. *)
Fixpoint read_path (path : list string) (value : jsval) : option jsval :=
  match path with
  | [] => Some value
  | segment :: rest =>
      if truthy value then
        match value with
        | JObject ps =>
            if inherited segment then None
            else read_path rest (default JUndefined (lookup_prop segment ps))
        | _ => None
        end
      else read_path rest JUndefined
  end.

(** What [populateCredentialForm] does to one input. *)
Inductive filled :=
  | Written (s : string)
  | Untouched
  | Unread.

(** Lines 128-135, for the input of this name: it is written when the walk
    ends on a string. *)
Definition populate_value (config : jsval) (name : string) : filled :=
  match read_path (split_dots name) config with
  | Some (JString s) => Written s
  | Some _ => Untouched
  | None => Unread
  end.

(** [populateCredentialForm], lines 124-137, with [state.config] and the
    names of the form's inputs: nothing is written unless the config has
    (truthy) [integrations]. *)
Definition populateCredentialForm (config : jsval) (names : list string)
  : list filled :=
  if negb (truthy (Hub.get_opt config "integrations"))
  then List.map (fun _ => Untouched) names
  else List.map (populate_value config) names.

End Server.

(** * Vocabulary of the further properties *)

(** [c] does not occur in [s]. *)
Fixpoint lacks (c : ascii) (s : string) : Prop :=
  match s with
  | EmptyString => True
  | String x t => x <> c /\ lacks c t
  end.

(** The number of occurrences of [c] in [s]. *)
Fixpoint count_char (c : ascii) (s : string) : nat :=
  match s with
  | EmptyString => O
  | String x t => ((if Ascii.eqb x c then 1 else 0) + count_char c t)%nat
  end.

(** Markup whose only tags are those of [tags]: every angle bracket of the
    text belongs to one of them. *)
Inductive only_tags (tags : list string) : string -> Prop :=
  | only_tags_nil : only_tags tags EmptyString
  | only_tags_char c s :
      c <> "<"%char -> c <> ">"%char ->
      only_tags tags s -> only_tags tags (String c s)
  | only_tags_tag t s :
      In t tags -> only_tags tags s -> only_tags tags (t +:+ s).

(** The tags [formatMarkdown] writes. *)
Definition formatter_tags : list string :=
  ["<p>"; "</p>"; "<br />"; "<pre><code>"; "</code></pre>"].

(** The limit below which the amount of a unit of [relativeTime] stays. *)
Definition unit_limit (unit : string) : option Z :=
  if String.eqb unit "m" then Some 60
  else if String.eqb unit "h" then Some 24
  else if String.eqb unit "d" then Some 30
  else if String.eqb unit "mo" then Some 12
  else None.

(** The calls of a sweep that are started: those up to the first one that
    records nothing, included. *)
Fixpoint attempted `{JSON} (calls : list ping_call) (ans : list fetch_outcome)
  : list ping_call :=
  match calls with
  | [] => []
  | c :: rest =>
      c :: match sample_of c (head ans) with
           | [] => []
           | _ :: _ => attempted rest (tail ans)
           end
  end.

(** Every call records a sample. *)
Fixpoint recorded_all `{JSON} (calls : list ping_call) (ans : list fetch_outcome)
  : bool :=
  match calls with
  | [] => true
  | c :: rest =>
      match sample_of c (head ans) with
      | [] => false
      | _ :: _ => recorded_all rest (tail ans)
      end
  end.

(** The calls of [pingAll] under a clock. *)
Definition sweep_calls (clock : string -> Q * Q) : list ping_call :=
  List.map (fun p => {| call_provider := p; call_t0 := fst (clock p);
                        call_t1 := snd (clock p) |}) AppMore.providers_swept.

(** ** Listeners that change data *)

Import HubMore.

(** The world once a request has gone out and its answer has come. *)
Definition sent {S : Type} (req : request) (w : world S) : world S :=
  {| store := store w; effects := effects w ++ [Fetch req];
     answers := tail (answers w) |}.

(** The world with one more effect in its log. *)
Definition logged {S : Type} (e : effect) (w : world S) : world S :=
  {| store := store w; effects := effects w ++ [e]; answers := answers w |}.

(** The request of a facade call with these options. *)
Definition facade_request `{JSON} (u : string) (options : props) : request :=
  {| url := u; init := prepare options |}.

Definition create_request `{JSON} (k : kind) (data : jsval) : request :=
  facade_request (match k with
                  | Project => "/projects"
                  | Task => "/tasks"
                  | Note => "/notes"
                  end) (Api.POST data).

(** The calls that change or remove a project, a task or a note; the
    removals carry the answer given to the script's [confirm]. *)
Inductive mutation :=
  | UpdateProject (id patch : jsval)
  | UpdateTask (id patch : jsval)
  | DeleteProject (confirmed : bool) (id : jsval)
  | DeleteTask (confirmed : bool) (id : jsval)
  | DeleteNote (confirmed : bool) (id : jsval).

Definition run_mutation `{JSON}
  (dom_throws : string -> list jsval -> state -> option error) (h : hub)
  (m : mutation) : M state unit :=
  match m with
  | UpdateProject id patch => updateProject dom_throws h id patch
  | UpdateTask id patch => updateTask dom_throws id patch
  | DeleteProject confirmed id => deleteProject dom_throws confirmed id
  | DeleteTask confirmed id => deleteTask dom_throws confirmed id
  | DeleteNote confirmed id => deleteNote dom_throws confirmed id
  end.

(** The user has not declined the call. *)
Definition goes_ahead (m : mutation) : bool :=
  match m with
  | UpdateProject _ _ | UpdateTask _ _ => true
  | DeleteProject confirmed _ | DeleteTask confirmed _ | DeleteNote confirmed _ =>
      confirmed
  end.

Definition mutation_request `{JSON} (m : mutation) : request :=
  match m with
  | UpdateProject id patch =>
      facade_request ("/projects/" +:+ ToString id) (ApiMore.PUT patch)
  | UpdateTask id patch =>
      facade_request ("/tasks/" +:+ ToString id) (ApiMore.PUT patch)
  | DeleteProject _ id => facade_request ("/projects/" +:+ ToString id) ApiMore.DELETE
  | DeleteTask _ id => facade_request ("/tasks/" +:+ ToString id) ApiMore.DELETE
  | DeleteNote _ id => facade_request ("/notes/" +:+ ToString id) ApiMore.DELETE
  end.

(** The request that stores a secret: a POST of the form's entries with
    [pin] set to [p], as JSON. *)
Definition secret_request `{JSON} (p : jsval) (entries : props) : request :=
  {| url := "/vault/items";
     init := [("method", JString "POST");
              ("body", stringified (JObject (set_prop "pin" p entries)));
              ("headers", JObject [("Content-Type", JString "application/json")])] |}.

(** The request that removes a secret: a DELETE with [{pin}] as JSON body. *)
Definition removal_request `{JSON} (id p : jsval) : request :=
  {| url := "/vault/items/" +:+ ToString id;
     init := [("method", JString "DELETE");
              ("body", stringified (JObject [("pin", p)]));
              ("headers", JObject [("Content-Type", JString "application/json")])] |}.

(** The request of an upload: a POST whose body is the form data as it is,
    with no [Content-Type] of the helper's. *)
Definition upload_request (u : string) : request :=
  {| url := u;
     init := [("method", JString "POST"); ("body", JFormData);
              ("headers", JObject [])] |}.

(** The loaders and listeners of the hubs, the unlock form of the vault
    apart. *)
Inductive listener :=
  | Loader (l : loader)
  | InitAssistant
  | LoadMessages (id : jsval)
  | ActivateTab (tabId : string)
  | FormSubmit (k : kind) (data : jsval)
  | Mutation (m : mutation)
  | VaultFormSubmit (entries : props)
  | DeleteVaultItem (confirmed : bool) (id : jsval)
  | BudgetImportSubmit (file : form_entry)
  | KpiUploadSubmit (file : form_entry)
  | SaveConfig (syntax_message : string -> string) (text : string).

Definition run_listener `{JSON}
  (dom_throws : string -> list jsval -> state -> option error) (h : hub)
  (l : listener) : M state unit :=
  match l with
  | Loader l => run dom_throws h l
  | InitAssistant => initAssistant dom_throws h
  | LoadMessages id => loadMessages dom_throws h id
  | ActivateTab tabId => activateTab dom_throws h tabId
  | FormSubmit k data => form_submit dom_throws h k data
  | Mutation m => run_mutation dom_throws h m
  | VaultFormSubmit entries => vault_form_submit dom_throws entries
  | DeleteVaultItem confirmed id => deleteVaultItem dom_throws h confirmed id
  | BudgetImportSubmit file => budget_import_submit dom_throws file
  | KpiUploadSubmit file => kpi_upload_submit dom_throws file
  | SaveConfig syntax_message text => saveConfig syntax_message text
  end.

(** Listeners run one after the other, each to its end. *)
Definition run_listeners `{JSON}
  (dom_throws : string -> list jsval -> state -> option error) (h : hub)
  (ls : list listener) (w : world state) : world state :=
  fold_left (fun w l => snd (run_listener dom_throws h l w)) ls w.

(** ** Paths of form inputs *)







(** * Properties *)

(** ** Running calls one after the other *)

Lemma lastn_short {A} (n : nat) (l : list A) :
  (length l <= n)%nat -> lastn n l = l.
Proof.
  intros Hl. unfold lastn.
  replace (length l - n)%nat with 0%nat by lia. reflexivity.
Qed.

Lemma lastn_length {A} (n : nat) (l : list A) :
  (length (lastn n l) <= n)%nat.
Proof. unfold lastn. rewrite length_drop. lia. Qed.

Lemma push_capped_lastn (hist : list Z) (v : Z) :
  push_capped (lastn 40 hist) v = lastn 40 (hist ++ [v]).
Proof.
  unfold push_capped, lastn.
  rewrite !length_app, length_drop. simpl length.
  destruct (Nat.le_gt_cases (length hist) 39) as [Hs | Hl].
  - replace (length hist - 40)%nat with 0%nat by lia.
    replace (length hist + 1 - 40)%nat with 0%nat by lia.
    rewrite Nat.sub_0_r, !drop_0.
    destruct (Z.ltb_spec 40 (Z.of_nat (length hist + 1))); [ lia | reflexivity ].
  - destruct (Z.ltb_spec 40 (Z.of_nat (length hist - (length hist - 40) + 1))); [ | lia ].
    replace (length hist + 1 - 40)%nat with (S (length hist - 40)) by lia.
    destruct (drop (length hist - 40) hist) as [| x l'] eqn:D.
    + apply (f_equal length) in D. rewrite length_drop in D. simpl in D. lia.
    + simpl tail.
      replace (S (length hist - 40)) with ((length hist - 40) + 1)%nat by lia.
      rewrite <- drop_drop. rewrite drop_app_le by lia. rewrite D. reflexivity.
Qed.

Lemma fold_push_capped_lastn (l hist : list Z) :
  fold_left push_capped l (lastn 40 hist) = lastn 40 (hist ++ l).
Proof.
  revert hist. induction l as [| v l IH]; intros hist; simpl.
  - now rewrite app_nil_r.
  - rewrite push_capped_lastn, IH, <- app_assoc. reflexivity.
Qed.

(** One call of [ping], by the answer its request gets. *)
Lemma ping_unfold `{JSON} (c : ping_call) (w : world page) :
  let req := {| url := "/ping/" +:+ call_provider c; init := [] |} in
  let w' := snd (ping (call_provider c) (call_t0 c) (call_t1 c) w) in
  pingSeries (store w')
  = fold_left push_capped (sample_of c (head (answers w))) (pingSeries (store w))
  /\ answers w' = tail (answers w)
  /\ clientWidth (store w') = clientWidth (store w)
  /\ clientHeight (store w') = clientHeight (store w).
Proof.
  unfold ping, bind, fetch, get_or_throw, sample_of.
  destruct w as [p eff ans]. simpl.
  destruct ans as [| [reason | r] rest]; simpl; auto.
  destruct (get (json_or_empty r) "detail") as [d |]; simpl; auto.
  unfold push_capped.
  destruct (40 <? Z.of_nat (length (pingSeries p ++ [if ok r then _ else -1])));
    simpl; auto.
Qed.

Lemma run_pings_buffer `{JSON} (calls : list ping_call) (w : world page) :
  pingSeries (store (run_pings calls w))
  = fold_left push_capped (recorded calls (answers w)) (pingSeries (store w)).
Proof.
  revert w. induction calls as [| c calls IH]; intros w; simpl; [ reflexivity | ].
  unfold run_pings in *. simpl. rewrite IH.
  destruct (ping_unfold c w) as (Hb & Ha & _).
  rewrite Hb, Ha, fold_left_app. reflexivity.
Qed.

(** C1.  Whatever calls of [ping] are made on a freshly loaded page and
    whatever the network answers, the buffer holds at most 40 entries and is
    exactly the last 40 of the samples recorded so far, oldest first. *)
Theorem pingSeries_is_last_40 `{JSON}
  (calls : list ping_call) (ans : list fetch_outcome) (w h : Z) :
  let buf := pingSeries (store (run_pings calls
               {| store := fresh w h; effects := []; answers := ans |})) in
  (length buf <= 40)%nat /\ buf = lastn 40 (recorded calls ans).
Proof.
  simpl. rewrite run_pings_buffer. simpl.
  pose proof (fold_push_capped_lastn (recorded calls ans) []) as E.
  simpl in E. unfold lastn at 1 in E. simpl in E. rewrite E.
  split; [ apply lastn_length | reflexivity ].
Qed.

(** ** C2: what one call of [ping] records *)

Lemma Math_round_nonneg (x : Q) : (0 <= x)%Q -> 0 <= Math_round x.
Proof.
  intros Hx. unfold Math_round.
  change 0 with (Qfloor 0). apply Qfloor_resp_le.
  apply Qle_trans with x; [ exact Hx | ].
  rewrite <- (Qplus_0_r x) at 1. apply Qplus_le_r. discriminate.
Qed.

(** C2, as stated, fails: a call whose request gets no response at all
    throws at [await fetch] and leaves the buffer as it was. *)
Lemma ping_without_response_records_nothing :
  let w := {| store := fresh 300 60; effects := [];
              answers := [NetworkError "Failed to fetch"] |} in
  let out := @ping RefJSON.ref_JSON "openai" 0%Q 12%Q w in
  fst out = Throw (TypeError "Failed to fetch")
  /\ pingSeries (store (snd out)) = pingSeries (store w)
  /\ length (pingSeries (store (snd out))) = 0%nat.
Proof. vm_compute. auto. Qed.

(** C2, amended.  A call of [ping] whose request gets a response (with a
    body that is not the JSON text [null]) returns and appends exactly one
    entry before the cap is applied: [-1] when the response is not ok, the
    rounded elapsed time when it is ok, which is not negative as the clock
    does not run backwards.  The entry is a number, never a negative one
    other than [-1]. *)
Theorem ping_with_response_records_one `{JSON}
  (c : ping_call) (w : world page) (r : response) (rest : list fetch_outcome) :
  answers w = Responded r :: rest ->
  get (json_or_empty r) "detail" <> None ->
  (call_t0 c <= call_t1 c)%Q ->
  let v := if ok r then Math_round (call_t1 c - call_t0 c) else -1 in
  let out := ping (call_provider c) (call_t0 c) (call_t1 c) w in
  fst out = Return tt
  /\ pingSeries (store (snd out)) = push_capped (pingSeries (store w)) v
  /\ (ok r = false -> v = -1)
  /\ (ok r = true -> 0 <= v)
  /\ (v = -1 \/ 0 <= v).
Proof.
  intros Hans Hbody Hclock v out.
  assert (Hms : 0 <= Math_round (call_t1 c - call_t0 c)).
  { apply Math_round_nonneg. unfold Qminus.
    rewrite <- (Qplus_opp_r (call_t0 c)). apply Qplus_le_l. exact Hclock. }
  repeat split.
  - subst out. unfold ping, bind, fetch, get_or_throw.
    destruct w as [p eff ans]. simpl in *. subst ans. simpl.
    destruct (get (json_or_empty r) "detail") as [d |]; [ | congruence ].
    simpl.
    destruct (40 <? Z.of_nat (length (pingSeries p ++ [if ok r then _ else -1])));
      reflexivity.
  - subst out. destruct (ping_unfold c w) as (Hb & _). rewrite Hb, Hans.
    unfold sample_of. simpl.
    destruct (get (json_or_empty r) "detail") as [d |]; [ | congruence ].
    reflexivity.
  - intros E. subst v. now rewrite E.
  - intros E. subst v. now rewrite E.
  - subst v. destruct (ok r); [ right; exact Hms | left; reflexivity ].
Qed.

Lemma ping_with_response_records_one_witness :
  let c := {| call_provider := "ollama"; call_t0 := 0%Q; call_t1 := 12%Q |} in
  let r := {| status := 200; statusText := "OK"; body := "{}" |} in
  let w := {| store := fresh 300 60; effects := []; answers := [Responded r] |} in
  pingSeries (store (snd (@ping RefJSON.ref_JSON "ollama" 0%Q 12%Q w))) = [12].
Proof.
  intros c r w.
  destruct (@ping_with_response_records_one RefJSON.ref_JSON c w r [])
    as (_ & Hbuf & _).
  - reflexivity.
  - vm_compute. discriminate.
  - vm_compute. discriminate.
  - exact Hbuf.
Defined.

(** ** C3, C10: what [fetchJSON] settles to *)

Lemma structured_iff (p : jsval) :
  truthy p && String.eqb (typeof p) "object" = is_structured p.
Proof. destruct p as [| | [] | n | s | xs | ps |]; try reflexivity.
  - simpl. now rewrite andb_false_r.
  - simpl. now rewrite andb_false_r.
Qed.

(** Once the response is there, [fetchJSON] settles as [settle] says, having
    issued exactly the prepared request and leaving the page state alone. *)
Lemma fetchJSON_responded `{JSON} {S : Type}
  (u : string) (options : props) (w : world S) (r : response) (rest : list fetch_outcome) :
  answers w = Responded r :: rest ->
  fetchJSON u options w
  = (settle r, {| store := store w;
                  effects := effects w ++ [Fetch {| url := u; init := prepare options |}];
                  answers := rest |}).
Proof.
  intros Hans. unfold fetchJSON, bind, fetch. rewrite Hans. simpl.
  destruct (settle r); reflexivity.
Qed.

Lemma fetchJSON_no_response `{JSON} {S : Type}
  (u : string) (options : props) (w : world S) :
  (forall r rest, answers w <> Responded r :: rest) ->
  exists e,
    fetchJSON u options w
    = (Throw e, {| store := store w;
                   effects := effects w ++ [Fetch {| url := u; init := prepare options |}];
                   answers := tail (answers w) |}).
Proof.
  intros Hans. unfold fetchJSON, bind, fetch.
  destruct (answers w) as [| [reason | r] rest] eqn:E; simpl.
  - eexists; reflexivity.
  - eexists; reflexivity.
  - exfalso. apply (Hans r rest). reflexivity.
Qed.

(** C3.  On a response that is not 2xx, [fetchJSON] throws an [Error] whose
    message is: for a structured payload, its [detail] if truthy, else its
    [error] if truthy, else the serialized payload; for any other payload
    (none, or a text that is not JSON, or a JSON scalar), the HTTP status
    text.  A 404 with body [{"detail":"not found"}] gives ["not found"]; a
    500 with body [oops] gives the status text. *)
Theorem fetchJSON_error_message :
  (forall (J : JSON) (S : Type) (u : string) (options : props) (w : world S)
          (r : response) (rest : list fetch_outcome),
      answers w = Responded r :: rest ->
      ok r = false ->
      exists msg,
        fst (fetchJSON u options w) = Throw (Error msg)
        /\ store (snd (fetchJSON u options w)) = store w
        /\ let p := payload_of (body r) in
           if is_structured p then
             if truthy (get_opt p "detail") then msg = ToString (get_opt p "detail")
             else if truthy (get_opt p "error") then msg = ToString (get_opt p "error")
             else msg = default "" (JSON_stringify p)
           else msg = statusText r)
  /\ (forall (S : Type) (u : string) (options : props) (s : S) (st : string),
        fst (@fetchJSON RefJSON.ref_JSON S u options
               {| store := s; effects := [];
                  answers := [Responded {| status := 404; statusText := st;
                                           body := body_detail_not_found |}] |})
        = Throw (Error "not found"))
  /\ (forall (S : Type) (u : string) (options : props) (s : S) (st : string),
        fst (@fetchJSON RefJSON.ref_JSON S u options
               {| store := s; effects := [];
                  answers := [Responded {| status := 500; statusText := st;
                                           body := "oops" |}] |})
        = Throw (Error st)).
Proof.
  split; [ | split ].
  - intros J S u options w r rest Hans Hok.
    rewrite (fetchJSON_responded u options w r rest Hans). simpl.
    unfold settle. rewrite Hok. simpl.
    unfold error_message. rewrite structured_iff.
    set (p := payload_of (body r)).
    destruct (is_structured p) eqn:Hs.
    + unfold get_opt, or_else.
      destruct (truthy (default JUndefined (get p "detail"))) eqn:Hd.
      * exists (ToString (default JUndefined (get p "detail"))).
        repeat split.
        destruct (default JUndefined (get p "detail")); try reflexivity; discriminate.
      * destruct (truthy (default JUndefined (get p "error"))) eqn:He.
        -- exists (ToString (default JUndefined (get p "error"))).
           repeat split.
           destruct (default JUndefined (get p "error")); try reflexivity; discriminate.
        -- exists (default "" (JSON_stringify p)).
           repeat split.
           destruct (JSON_stringify p); reflexivity.
    + exists (statusText r). repeat split.
  - intros S u options s st.
    erewrite fetchJSON_responded by reflexivity. reflexivity.
  - intros S u options s st.
    erewrite fetchJSON_responded by reflexivity. reflexivity.
Qed.

Lemma fetchJSON_error_message_witness :
  exists msg,
    fst (@fetchJSON RefJSON.ref_JSON unit "/projects/7" []
           {| store := tt; effects := [];
              answers := [Responded {| status := 422; statusText := "Unprocessable Entity";
                                       body := "[1,2]" |}] |})
    = Throw (Error msg) /\ msg = "[1,2]".
Proof.
  destruct (proj1 fetchJSON_error_message RefJSON.ref_JSON unit "/projects/7" []
              {| store := tt; effects := [];
                 answers := [Responded {| status := 422; statusText := "Unprocessable Entity";
                                          body := "[1,2]" |}] |}
              {| status := 422; statusText := "Unprocessable Entity"; body := "[1,2]" |}
              [] eq_refl eq_refl) as (msg & Hthrow & _ & Hmsg).
  exists msg. split; [ exact Hthrow | exact Hmsg ].
Defined.

(** C10.  On a 2xx response with an empty body [fetchJSON] resolves to the
    empty object; on a 2xx response whose body is not empty and is not JSON
    it resolves to the body text. *)
Theorem fetchJSON_success_fallbacks `{JSON} {S : Type}
  (u : string) (options : props) (w : world S) (r : response) (rest : list fetch_outcome) :
  answers w = Responded r :: rest ->
  ok r = true ->
  (body r = "" -> fst (fetchJSON u options w) = Return (JObject []))
  /\ (body r <> "" -> JSON_parse (body r) = None ->
      fst (fetchJSON u options w) = Return (JString (body r))).
Proof.
  intros Hans Hok.
  rewrite (fetchJSON_responded u options w r rest Hans). simpl.
  unfold settle, payload_of. rewrite Hok. simpl. split.
  - intros ->. reflexivity.
  - intros Hne Hparse. rewrite Hparse.
    destruct (String.eqb_spec (body r) ""); [ contradiction | reflexivity ].
Qed.

Lemma fetchJSON_success_fallbacks_witness :
  fst (@fetchJSON RefJSON.ref_JSON unit "/dev/backup" [("method", JString "POST")]
         {| store := tt; effects := [];
            answers := [Responded {| status := 204; statusText := "No Content";
                                     body := "" |}] |})
  = Return (JObject [])
  /\ fst (@fetchJSON RefJSON.ref_JSON unit "/env" []
            {| store := tt; effects := [];
               answers := [Responded {| status := 200; statusText := "OK";
                                        body := "pong" |}] |})
     = Return (JString "pong").
Proof.
  split.
  - apply (proj1 (@fetchJSON_success_fallbacks RefJSON.ref_JSON unit "/dev/backup"
                    [("method", JString "POST")]
                    {| store := tt; effects := [];
                       answers := [Responded {| status := 204; statusText := "No Content";
                                                body := "" |}] |}
                    {| status := 204; statusText := "No Content"; body := "" |}
                    [] eq_refl eq_refl)).
    reflexivity.
  - apply (proj2 (@fetchJSON_success_fallbacks RefJSON.ref_JSON unit "/env" []
                    {| store := tt; effects := [];
                       answers := [Responded {| status := 200; statusText := "OK";
                                                body := "pong" |}] |}
                    {| status := 200; statusText := "OK"; body := "pong" |}
                    [] eq_refl eq_refl)).
    + discriminate.
    + reflexivity.
Defined.

(** ** C4: the request [fetchJSON] issues *)

Lemma lookup_set_prop_eq (k : string) (v : jsval) (ps : props) :
  lookup_prop k (set_prop k v ps) = Some v.
Proof.
  induction ps as [| [k' v'] ps IH]; simpl.
  - now rewrite String.eqb_refl.
  - destruct (String.eqb k k') eqn:E; simpl.
    + now rewrite String.eqb_refl.
    + now rewrite E.
Qed.

Lemma lookup_set_prop_ne (k k' : string) (v : jsval) (ps : props) :
  k <> k' -> lookup_prop k (set_prop k' v ps) = lookup_prop k ps.
Proof.
  intros Hne. induction ps as [| [k1 v1] ps IH]; simpl.
  - destruct (String.eqb_spec k k'); [ contradiction | reflexivity ].
  - destruct (String.eqb_spec k' k1) as [-> | Hk1]; simpl.
    + destruct (String.eqb_spec k k1); [ contradiction | reflexivity ].
    + destruct (String.eqb_spec k k1); [ reflexivity | exact IH ].
Qed.

Lemma lookup_prop_absent (k : string) (ps : props) :
  ~ In k (List.map fst ps) -> lookup_prop k ps = None.
Proof.
  induction ps as [| [k' v'] ps IH]; simpl; intros Hnin; [ reflexivity | ].
  destruct (String.eqb_spec k k') as [-> | Hne].
  - exfalso. apply Hnin. now left.
  - apply IH. intros Hin. apply Hnin. now right.
Qed.

(** Spreading an object whose keys are distinct over another: its
    properties win. *)
Lemma lookup_assign (k : string) (a b : props) :
  List.NoDup (List.map fst b) ->
  lookup_prop k (assign a b)
  = match lookup_prop k b with
    | Some v => Some v
    | None => lookup_prop k a
    end.
Proof.
  unfold assign. revert a.
  induction b as [| [k1 v1] b IH]; intros a Hnd; simpl; [ reflexivity | ].
  inversion Hnd as [| ? ? Hnin Hnd']; subst.
  rewrite (IH _ Hnd').
  destruct (String.eqb_spec k k1) as [-> | Hne].
  - rewrite (lookup_prop_absent k1 b Hnin). apply lookup_set_prop_eq.
  - destruct (lookup_prop k b); [ reflexivity | ].
    now apply lookup_set_prop_ne.
Qed.

Lemma prepare_sets_body_and_headers `{JSON} (options : props) :
  List.NoDup (List.map fst options) ->
  let opts := prepare options in
  if truthy (body_of options) && negb (is_FormData (body_of options))
     && negb (truthy (header_of options "Content-Type"))
  then header_of opts "Content-Type" = JString "application/json"
       /\ body_of opts = (if String.eqb (typeof (body_of options)) "string"
                          then body_of options
                          else stringified (body_of options))
  else header_of opts "Content-Type" = header_of options "Content-Type"
       /\ body_of opts = body_of options.
Proof.
  intros Hnd. unfold prepare, header_of, body_of, stringified.
  set (opts0 := assign [("method", JString "GET")] options).
  assert (Hh0 : lookup_prop "headers" opts0 = lookup_prop "headers" options).
  { subst opts0. rewrite (lookup_assign _ _ options Hnd). simpl.
    destruct (lookup_prop "headers" options); reflexivity. }
  assert (Hb0 : lookup_prop "body" opts0 = lookup_prop "body" options).
  { subst opts0. rewrite (lookup_assign _ _ options Hnd). simpl.
    destruct (lookup_prop "body" options); reflexivity. }
  rewrite Hh0.
  set (hv := default JUndefined (lookup_prop "headers" options)).
  set (headers := if truthy hv then spread hv else []).
  rewrite (lookup_set_prop_ne "body" "headers") by discriminate.
  rewrite Hb0.
  set (bv := default JUndefined (lookup_prop "body" options)).
  assert (Hold : default JUndefined (lookup_prop "Content-Type" headers)
                 = if truthy hv
                   then default JUndefined (lookup_prop "Content-Type" (spread hv))
                   else JUndefined).
  { subst headers. destruct (truthy hv); reflexivity. }
  rewrite <- Hold.
  destruct (truthy bv && negb (is_FormData bv)
            && negb (truthy (default JUndefined (lookup_prop "Content-Type" headers)))).
  - destruct (String.eqb (typeof bv) "string"); cbv beta iota delta [negb].
    + rewrite lookup_set_prop_eq. cbn [default from_option id truthy spread].
      rewrite lookup_set_prop_eq. split; [ reflexivity | ].
      rewrite !(lookup_set_prop_ne "body" "headers") by discriminate.
      rewrite Hb0. reflexivity.
    + rewrite (lookup_set_prop_ne "headers" "body") by discriminate.
      rewrite lookup_set_prop_eq. cbn [default from_option id truthy spread].
      rewrite !lookup_set_prop_eq. split; reflexivity.
  - rewrite lookup_set_prop_eq. cbn [default from_option id truthy spread].
    rewrite (lookup_set_prop_ne "body" "headers") by discriminate.
    rewrite Hb0. split; reflexivity.
Qed.

Lemma fetchJSON_issues `{JSON} {S : Type} (u : string) (options : props) (w : world S) :
  effects (snd (fetchJSON u options w))
  = effects w ++ [Fetch {| url := u; init := prepare options |}].
Proof.
  unfold fetchJSON, bind, fetch.
  destruct (answers w) as [| [reason | r] rest]; simpl; try reflexivity.
  destruct (settle r); reflexivity.
Qed.

(** C4, as stated, fails: a body that is not a string nor a [FormData] but is
    falsy (here the number [0]) skips the guard of line 5; the request goes
    out with no [Content-Type] and the body as given. *)
Lemma fetchJSON_falsy_body_left_alone :
  let options := [("method", JString "POST"); ("body", JNumber 0)] in
  let w := {| store := tt; effects := []; answers := [] |} in
  effects (snd (@fetchJSON RefJSON.ref_JSON unit "/tasks" options w))
  = [Fetch {| url := "/tasks";
              init := [("method", JString "POST"); ("body", JNumber 0);
                       ("headers", JObject [])] |}]
  /\ typeof (body_of options) <> "string"
  /\ is_FormData (body_of options) = false
  /\ header_of options "Content-Type" = JUndefined
  /\ header_of (@prepare RefJSON.ref_JSON options) "Content-Type" <> JString "application/json"
  /\ body_of (@prepare RefJSON.ref_JSON options)
     <> @stringified RefJSON.ref_JSON (body_of options).
Proof. vm_compute. repeat split; discriminate. Qed.

(** C4, amended.  For options with a truthy body that is neither a string
    nor a [FormData] and with no (truthy) [Content-Type] header, the request
    issued carries [Content-Type: application/json] and the JSON
    serialization of the body.  The header the request carries differs from
    the caller's only when the caller gave none and the body is truthy and
    not a [FormData].  A body [{a:1}] goes out as the text [{"a":1}]. *)
Theorem fetchJSON_serializes_truthy_body :
  (forall (J : JSON) (S : Type) (u : string) (options : props) (w : world S),
      List.NoDup (List.map fst options) ->
      effects (snd (fetchJSON u options w))
      = effects w ++ [Fetch {| url := u; init := prepare options |}]
      /\ (truthy (body_of options) = true ->
          is_FormData (body_of options) = false ->
          typeof (body_of options) <> "string" ->
          truthy (header_of options "Content-Type") = false ->
          header_of (prepare options) "Content-Type" = JString "application/json"
          /\ body_of (prepare options) = stringified (body_of options))
      /\ (header_of (prepare options) "Content-Type"
          <> header_of options "Content-Type" ->
          header_of (prepare options) "Content-Type" = JString "application/json"
          /\ truthy (header_of options "Content-Type") = false
          /\ truthy (body_of options) = true
          /\ is_FormData (body_of options) = false))
  /\ (let options := [("method", JString "POST");
                      ("body", JObject [("a", JNumber 1)])] in
      @prepare RefJSON.ref_JSON options
      = [("method", JString "POST"); ("body", JString text_a_1);
         ("headers", JObject [("Content-Type", JString "application/json")])]).
Proof.
  split; [ | reflexivity ].
  intros J S u options w Hnd.
  split; [ apply fetchJSON_issues | ].
  pose proof (prepare_sets_body_and_headers options Hnd) as Hp. simpl in Hp.
  split.
  - intros Hb Hf Hs Hc. rewrite Hb, Hf, Hc in Hp. simpl in Hp.
    destruct Hp as [Hct Hbody]. split; [ exact Hct | ].
    rewrite Hbody.
    destruct (String.eqb_spec (typeof (body_of options)) "string");
      [ contradiction | reflexivity ].
  - intros Hdiff.
    destruct (truthy (body_of options)) eqn:Hb;
      destruct (is_FormData (body_of options)) eqn:Hf;
      destruct (truthy (header_of options "Content-Type")) eqn:Hc;
      simpl in Hp; destruct Hp as [Hct _]; try contradiction.
    repeat split; assumption.
Qed.

Lemma fetchJSON_serializes_truthy_body_witness :
  let options := [("method", JString "PUT");
                  ("body", JObject [("status", JString "done")])] in
  header_of (@prepare RefJSON.ref_JSON options) "Content-Type"
  = JString "application/json"
  /\ body_of (@prepare RefJSON.ref_JSON options)
     = @stringified RefJSON.ref_JSON (JObject [("status", JString "done")]).
Proof.
  intros options.
  destruct (proj1 fetchJSON_serializes_truthy_body RefJSON.ref_JSON unit
              "/projects/3" options {| store := tt; effects := []; answers := [] |})
    as (_ & Hset & _).
  - vm_compute. repeat constructor; intros Hin; repeat destruct Hin as [Hin | Hin];
      try discriminate Hin; exact Hin.
  - apply Hset.
    + reflexivity.
    + reflexivity.
    + vm_compute. discriminate.
    + reflexivity.
Defined.

(** ** C5, C6: the sparkline *)

Lemma Math_max_with_bounds (values : list Z) (floor : Z) :
  floor <= Math_max_with values floor
  /\ (forall v, In v values -> v <= Math_max_with values floor)
  /\ (Math_max_with values floor = floor \/ In (Math_max_with values floor) values).
Proof.
  unfold Math_max_with. induction values as [| x l (IH1 & IH2 & IH3)]; simpl.
  - repeat split; [ lia | intros v [] | now left ].
  - repeat split.
    + lia.
    + intros v [-> | Hin]; [ lia | specialize (IH2 v Hin); lia ].
    + destruct (Z.max_spec x (fold_right Z.max floor l)) as [[_ E] | [_ E]];
        rewrite E; [ destruct IH3; auto | right; now left ].
Qed.

Lemma scale_bounds (series : list Z) :
  100 <= scale series /\ forall v, In v series -> v <= scale series.
Proof.
  unfold scale.
  destruct (Math_max_with_bounds
              (List.map (fun v => if v <? 0 then 0 else v) series) 100)
    as (H1 & H2 & _).
  split; [ exact H1 | ].
  intros v Hin.
  assert (Hc : (if v <? 0 then 0 else v)
               <= Math_max_with (List.map (fun v => if v <? 0 then 0 else v) series) 100).
  { apply H2. apply (in_map (fun v => if v <? 0 then 0 else v)). exact Hin. }
  destruct (Z.ltb_spec v 0); lia.
Qed.

(** C6.  With an empty buffer [drawSparkline] clears the canvas and makes no
    other call on the context. *)
Theorem drawSparkline_empty_only_clears
  (cw ch : Z) (eff : list effect) (ans : list fetch_outcome) :
  drawSparkline {| store := {| pingSeries := []; clientWidth := cw; clientHeight := ch |};
                   effects := eff; answers := ans |}
  = (Return tt,
     {| store := {| pingSeries := []; clientWidth := cw; clientHeight := ch |};
        effects := eff ++ [Draw [ClearRect 0 0 (inject_Z cw) (inject_Z ch)]];
        answers := ans |}).
Proof. reflexivity. Qed.

Lemma sparkline_ops_nonempty (series : list Z) (w h : Z) :
  series <> [] ->
  sparkline_ops series w h
  = ClearRect 0 0 (inject_Z w) (inject_Z h) :: BeginPath ::
    imap (fun i v =>
            if (i =? 0)%nat
            then MoveTo (point_x series w i) (point_y series h v)
            else LineTo (point_x series w i) (point_y series h v)) series
    ++ [SetLineWidth 2; SetStrokeStyle "#4B9FFF"; Stroke].
Proof. destruct series; [ congruence | reflexivity ]. Qed.

(** C5.  On a page whose buffer is not empty, [drawSparkline] returns
    having made these calls on the context, and no other effect: the clear
    and [beginPath]; then one point per sample, moved to for the first and
    lined to for the others, sample [i] at
    [x = i * (width / max(length - 1, 1))], where the step of a one-sample
    buffer is the width itself, a failed sample at [height - 2], any other
    at [height - (v / scale) * height]; then the stroke.  The y-scale is the
    largest of the samples (a failure counting as 0) and 100, so it is at
    least 100 and the divisions are by non-zero numbers.  Coordinates are
    exact rationals: the values of the expressions of the source, before
    any rounding to a double. *)
Theorem drawSparkline_points
  (series : list Z) (w h : Z) (eff : list effect) (ans : list fetch_outcome) :
  series <> [] ->
  let p := {| pingSeries := series; clientWidth := w; clientHeight := h |} in
  exists ops,
    drawSparkline {| store := p; effects := eff; answers := ans |}
    = (Return tt, {| store := p; effects := eff ++ [Draw ops]; answers := ans |})
    /\ scale series
       = fold_right Z.max 100 (List.map (fun v => if v <? 0 then 0 else v) series)
    /\ 100 <= scale series
    /\ (forall v, In v series -> v <= scale series)
    /\ 1 <= Z.max (Z.of_nat (length series) - 1) 1
    /\ (length series = 1%nat -> (step series w == inject_Z w)%Q)
    /\ ops !! 0%nat = Some (ClearRect 0 0 (inject_Z w) (inject_Z h))
    /\ ops !! 1%nat = Some BeginPath
    /\ (forall (i : nat) (v : Z),
          series !! i = Some v ->
          let x := (inject_Z (Z.of_nat i)
                    * (inject_Z w
                       / inject_Z (Z.max (Z.of_nat (length series) - 1) 1)))%Q in
          let y := if v <? 0 then inject_Z (h - 2)
                   else (inject_Z h
                         - (inject_Z v / inject_Z (scale series)) * inject_Z h)%Q in
          ops !! (2 + i)%nat
          = Some (match i with O => MoveTo x y | S _ => LineTo x y end))
    /\ drop (2 + length series) ops
       = [SetLineWidth 2; SetStrokeStyle "#4B9FFF"; Stroke].
Proof.
  intros Hne p.
  exists (sparkline_ops series w h).
  split; [ reflexivity | ].
  destruct (scale_bounds series) as [Hs1 Hs2].
  split; [ reflexivity | ].
  split; [ exact Hs1 | ].
  split; [ exact Hs2 | ].
  split; [ lia | ].
  split.
  { intros Hlen. unfold step. rewrite Hlen. simpl.
    unfold Qdiv. change (/ inject_Z 1)%Q with 1%Q. apply Qmult_1_r. }
  rewrite (sparkline_ops_nonempty series w h Hne).
  split; [ reflexivity | ].
  split; [ reflexivity | ].
  split.
  - intros i v Hi. cbv zeta.
    change (2 + i)%nat with (S (S i)). simpl lookup.
    rewrite lookup_app_l.
    2:{ rewrite length_imap. apply lookup_lt_Some in Hi. exact Hi. }
    rewrite list_lookup_imap, Hi. simpl.
    unfold point_x, point_y, step.
    destruct i; reflexivity.
  - change (2 + length series)%nat with (S (S (length series))). simpl drop.
    rewrite drop_app_length'; [ reflexivity | symmetry; apply length_imap ].
Qed.

Lemma drawSparkline_points_witness :
  let p := {| pingSeries := [120; -1; 80]; clientWidth := 300; clientHeight := 60 |} in
  exists ops,
    drawSparkline {| store := p; effects := []; answers := [] |}
    = (Return tt, {| store := p; effects := [Draw ops]; answers := [] |})
    /\ ops !! 1%nat = Some BeginPath
    /\ ops !! 3%nat
       = Some (LineTo (inject_Z 1 * (inject_Z 300 / inject_Z 2)) (inject_Z 58))
    /\ drop 5 ops = [SetLineWidth 2; SetStrokeStyle "#4B9FFF"; Stroke]
    /\ scale [120; -1; 80] = 120.
Proof.
  intros p.
  destruct (drawSparkline_points [120; -1; 80] 300 60 [] [])
    as (ops & Hrun & Hscale & _ & _ & _ & _ & _ & Hbegin & Hpoint & Hstroke);
    [ discriminate | ].
  exists ops.
  split; [ exact Hrun | ].
  split; [ exact Hbegin | ].
  split; [ exact (Hpoint 1%nat (-1) eq_refl) | ].
  split; [ exact Hstroke | ].
  rewrite Hscale. reflexivity.
Defined.

(** ** Relating the world before and after a computation

    [keeps R m]: whatever the world, running [m] leaves a world related to it
    by [R].  For a relation that is reflexive and transitive and that holds
    across the logging of an effect and the issuing of a request, [keeps R]
    goes through every construct of the monad; only the state updates need a
    look. *)

Section Keeps.

Context {S : Type} {R : world S -> world S -> Prop} `{!Frame R}.

Lemma keeps_ret {A} (a : A) : keeps R (ret a).
Proof. intros w. apply frame_refl. Qed.

Lemma keeps_throw {A} (e : error) : keeps R (@throw S A e).
Proof. intros w. apply frame_refl. Qed.

Lemma keeps_read : keeps R (@read S).
Proof. intros w. apply frame_refl. Qed.

Lemma keeps_emit (e : effect) : keeps R (@emit S e).
Proof. intros w. apply frame_emit. Qed.

Lemma keeps_modify (f : S -> S) : allowed R f -> keeps R (modify f).
Proof. intros Hf w. apply Hf. Qed.

Lemma keeps_bind {A B} (m : M S A) (k : A -> M S B) :
  keeps R m -> (forall a, keeps R (k a)) -> keeps R (bind m k).
Proof.
  intros Hm Hk w. unfold bind. specialize (Hm w).
  destruct (m w) as [[a | e] w1]; simpl in *.
  - eapply frame_trans; [ exact Hm | apply Hk ].
  - exact Hm.
Qed.

Lemma keeps_try_catch {A} (m : M S A) (handler : error -> M S A) :
  keeps R m -> (forall e, keeps R (handler e)) -> keeps R (try_catch m handler).
Proof.
  intros Hm Hh w. unfold try_catch. specialize (Hm w).
  destruct (m w) as [[a | e] w1]; simpl in *.
  - exact Hm.
  - eapply frame_trans; [ exact Hm | apply Hh ].
Qed.

Lemma keeps_fetch (req : request) : keeps R (@fetch S req).
Proof.
  intros w. unfold fetch. generalize (frame_fetch w req).
  destruct (answers w) as [| [reason | r] rest]; simpl; auto.
Qed.

Lemma keeps_get_or_throw (v : jsval) (k : string) : keeps R (@get_or_throw S v k).
Proof.
  unfold get_or_throw. destruct (get v k); [ apply keeps_ret | apply keeps_throw ].
Qed.

Lemma keeps_fetchJSON `{JSON} (u : string) (options : props) :
  keeps R (@fetchJSON _ S u options).
Proof.
  unfold fetchJSON. apply keeps_bind; [ apply keeps_fetch | ].
  intros r. destruct (settle r); [ apply keeps_ret | apply keeps_throw ].
Qed.

Lemma keeps_all_settled `{JSON} (calls : list (M S jsval)) :
  Forall (keeps R) calls -> keeps R (Api.all_settled calls).
Proof.
  induction 1 as [| c rest Hc _ IH]; intros w; simpl.
  - apply frame_refl.
  - specialize (Hc w). destruct (c w) as [r w1]. simpl in Hc.
    specialize (IH w1).
    destruct (Api.all_settled rest w1) as [[rs | e] w2]; simpl in *;
      eapply frame_trans; eassumption.
Qed.

Lemma keeps_Promise_all `{JSON} (calls : list (M S jsval)) :
  Forall (keeps R) calls -> keeps R (Api.Promise_all calls).
Proof.
  intros Hc. unfold Api.Promise_all.
  apply keeps_bind; [ now apply keeps_all_settled | ].
  intros rs. destruct (Api.first_rejection rs); [ apply keeps_throw | apply keeps_ret ].
Qed.

End Keeps.

(** ** The hub controllers and the relations they keep *)

Section KeepsControllers.

Context `{JSON} (dom_throws : string -> list jsval -> state -> option error).
Context {R : world state -> world state -> Prop} `{!Frame R}.

Lemma keeps_dom (routine : string) (args : list jsval) :
  keeps R (dom dom_throws routine args).
Proof.
  unfold dom. apply keeps_bind; [ apply keeps_read | intros s ].
  apply keeps_bind; [ apply keeps_emit | intros _ ].
  destruct (dom_throws routine args s); [ apply keeps_throw | apply keeps_ret ].
Qed.

Lemma keeps_detached (call : M state unit) :
  keeps R call -> keeps R (detached call).
Proof. intros Hc w. apply Hc. Qed.

End KeepsControllers.

#[export] Instance effects_extend_frame : Frame effects_extend.
Proof.
  split.
  - intros w. exists []. now rewrite app_nil_r.
  - intros a b c [l1 E1] [l2 E2]. exists (l1 ++ l2).
    now rewrite E2, E1, app_assoc.
  - intros w e. now exists [e].
  - intros w req. now exists [Fetch req].
Qed.

Lemma effects_extend_allowed (f : state -> state) : allowed effects_extend f.
Proof. intros w. exists []. simpl. now rewrite app_nil_r. Qed.

#[export] Instance effects_extend_updates (keys : list string) :
  Updates effects_extend keys.
Proof. split; intros; apply effects_extend_allowed. Qed.

(** One step of a [keeps] proof on the syntax of the computation. *)
Ltac keep_step :=
  match goal with
  | |- Frame _ => exact _
  | |- keeps effects_extend (modify _) =>
      apply keeps_modify; apply effects_extend_allowed
  | |- keeps _ (bind _ _) => apply keeps_bind; [ | intros ]
  | |- keeps _ (try_catch _ _) => apply keeps_try_catch; [ | intros ]
  | |- keeps _ (ret _) => apply keeps_ret
  | |- keeps _ (throw _) => apply keeps_throw
  | |- keeps _ read => apply keeps_read
  | |- keeps _ (emit _) => apply keeps_emit
  | |- keeps _ (showToast _ _) => apply keeps_emit
  | |- keeps _ (modify (set_slice _ _)) =>
      apply keeps_modify; solve [ unshelve (eapply upd_slice); exact _ ]
  | |- keeps _ (modify (set_assistant _)) =>
      apply keeps_modify; solve [ unshelve (eapply upd_assistant); exact _ ]
  | |- keeps _ (modify (set_vault _)) =>
      apply keeps_modify; solve [ unshelve (eapply upd_vault); exact _ ]
  | |- keeps _ (modify (set_loaded _)) =>
      apply keeps_modify;
      solve [ unshelve (eapply upd_loaded);
              first [ exact _ | eassumption | simpl; tauto ] ]
  | |- keeps _ (get_or_throw _ _) => apply keeps_get_or_throw
  | |- keeps _ (fetchJSON _ _) => apply keeps_fetchJSON
  | |- keeps _ (Api.Promise_all _) =>
      apply keeps_Promise_all; repeat constructor
  | |- keeps _ (dom _ _ _) => apply keeps_dom
  | |- keeps _ (detached _) => apply keeps_detached
  | |- keeps _ (if ?b then _ else _) => destruct b
  | |- keeps _ (match ?x with _ => _ end) => destruct x
  end.

Ltac keep :=
  unfold Api.env, Api.dashboard, Api.assistant_providers, Api.assistant_threads,
    Api.assistant_createThread, Api.assistant_messages, Api.projects_list,
    Api.tasks_list, Api.notes_list, Api.kpi_list, Api.dataAssets_list,
    Api.rag_list, Api.budgetSummary, Api.sensors_list, Api.vault_auth,
    Api.vault_list, Api.dev_status, Api.settings_config;
  repeat keep_step.

Section Loaders.

Context `{JSON} (dom_throws : string -> list jsval -> state -> option error).
Context {R : world state -> world state -> Prop} `{!Frame R}.
Context {keys : list string} `{!Updates R keys}.

Lemma loadEnv_keeps : keeps R loadEnv.
Proof. unfold loadEnv. keep. Qed.

Lemma loadHome_keeps (h : hub) : In "home" keys -> keeps R (loadHome dom_throws h).
Proof. intros Hk. unfold loadHome. keep. Qed.

Lemma ensureThread_keeps (h : hub) : keeps R (ensureThread h).
Proof. unfold ensureThread. keep. Qed.

Lemma renderThreads_keeps (activeId : jsval) :
  keeps R (renderThreads dom_throws activeId).
Proof. unfold renderThreads. keep. Qed.

Lemma loadMessages_keeps (h : hub) (id : jsval) :
  keeps R (loadMessages dom_throws h id).
Proof. unfold loadMessages. keep. Qed.

Lemma refreshThreads_fuel_keeps (h : hub) (fuel : nat) (activeId : jsval) :
  keeps R (refreshThreads_fuel dom_throws h fuel activeId).
Proof.
  revert activeId. induction fuel as [| fuel IH]; intros activeId; simpl.
  - keep; try apply ensureThread_keeps; try apply renderThreads_keeps;
      try apply loadMessages_keeps.
  - keep; try apply ensureThread_keeps; try apply renderThreads_keeps;
      try apply loadMessages_keeps; try apply IH.
Qed.

Lemma refreshThreads_keeps (h : hub) (activeId : jsval) :
  keeps R (refreshThreads dom_throws h activeId).
Proof. intros w. unfold refreshThreads. apply refreshThreads_fuel_keeps. Qed.

Lemma initAssistant_keeps (h : hub) :
  In "assistant" keys -> In "assistant_init" keys ->
  keeps R (initAssistant dom_throws h).
Proof.
  intros Ha Hi. unfold initAssistant.
  keep; try apply ensureThread_keeps; try apply refreshThreads_keeps.
Qed.

Lemma refreshProjectsSection_keeps : keeps R (refreshProjectsSection dom_throws).
Proof. unfold refreshProjectsSection. keep. Qed.

Lemma refreshBudget_keeps : keeps R (refreshBudget dom_throws).
Proof. unfold refreshBudget. keep. Qed.

Lemma refreshSensors_keeps : keeps R (refreshSensors dom_throws).
Proof. unfold refreshSensors. keep. Qed.

Lemma refreshKpi_keeps : keeps R (refreshKpi dom_throws).
Proof. unfold refreshKpi. keep. Qed.

Lemma refreshData_keeps : keeps R (refreshData dom_throws).
Proof. unfold refreshData. keep. Qed.

Lemma refreshDev_keeps (h : hub) : In "dev" keys -> keeps R (refreshDev dom_throws h).
Proof. intros Hk. unfold refreshDev. keep. Qed.

Lemma loadVaultItems_keeps : keeps R (loadVaultItems dom_throws).
Proof. unfold loadVaultItems. keep. Qed.

Lemma vault_unlock_submit_keeps (h : hub) (p : jsval) :
  keeps R (vault_unlock_submit dom_throws h p).
Proof. unfold vault_unlock_submit. keep. apply loadVaultItems_keeps. Qed.

(** Every loader [activateTab] can start for [tabId] is kept, when the flag
    of the tab may be set, and the init flag of the assistant too. *)
Lemma loader_of_keeps (h : hub) (tabId : string) (loader : M state unit) :
  In tabId keys ->
  (tabId = "assistant" -> In "assistant_init" keys) ->
  loader_of dom_throws h tabId = Some loader ->
  keeps R loader.
Proof.
  intros Hk Hi. unfold loader_of.
  destruct h;
    repeat match goal with
           | |- (if String.eqb tabId ?s then _ else _) = _ -> _ =>
               destruct (String.eqb_spec tabId s) as [-> | _]
           end;
    intros [= <-];
    auto using loadHome_keeps, initAssistant_keeps, refreshProjectsSection_keeps,
      refreshBudget_keeps, refreshSensors_keeps, refreshKpi_keeps,
      refreshData_keeps, refreshDev_keeps.
Qed.

Lemma activateTab_keeps (h : hub) (tabId : string) :
  In tabId keys ->
  (tabId = "assistant" -> In "assistant_init" keys) ->
  keeps R (activateTab dom_throws h tabId).
Proof.
  intros Hk Hi. unfold activateTab.
  apply keeps_bind; [ apply keeps_emit | intros _ ].
  apply keeps_bind; [ apply keeps_read | intros s ].
  destruct (loaded s tabId); [ apply keeps_ret | ].
  apply keeps_bind.
  - destruct (loader_of dom_throws h tabId) as [loader |] eqn:El.
    + apply keeps_detached. now apply (loader_of_keeps h tabId).
    + apply keeps_ret.
  - intros _. apply keeps_modify. now apply upd_loaded.
Qed.

End Loaders.

(** ** C7: lazy loading of the tabs *)

#[export] Instance flags_grow_frame (keys : list string) : Frame (flags_grow keys).
Proof.
  split.
  - intros w k. now left.
  - intros a b c Hab Hbc k.
    destruct (Hbc k) as [E | [Hin E]]; [ | right; now split ].
    rewrite E. apply Hab.
  - intros w e k. now left.
  - intros w req k. now left.
Qed.

#[export] Instance flags_grow_updates (keys : list string) :
  Updates (flags_grow keys) keys.
Proof.
  split.
  - intros k v w k'. now left.
  - intros f w k'. now left.
  - intros f w k'. now left.
  - intros k Hin w k'. simpl.
    destruct (decide (k = k')) as [<- | Hne].
    + right. split; [ exact Hin | apply lookup_insert_eq ].
    + left. now apply lookup_insert_ne.
Qed.

Lemma tab_names_real (h : hub) (tabId : string) :
  In tabId (TAB_NAMES h) -> tabId <> "assistant_init".
Proof. destruct h; simpl; intuition (subst; discriminate). Qed.

Section LazyTabs.

Context `{JSON} (dom_throws : string -> list jsval -> state -> option error).
Context (h : hub).

Lemma activateTab_loaded (tabId : string) (w : world state) :
  loaded (store w) tabId = true ->
  activateTab dom_throws h tabId w
  = (Return tt, {| store := store w;
                   effects := effects w ++ [ShowOnlyTab (tab_element h tabId)];
                   answers := answers w |}).
Proof.
  intros Hl. unfold activateTab, bind, emit, read. simpl. now rewrite Hl.
Qed.

Lemma activateTab_unloaded (tabId : string) (w : world state) :
  loaded (store w) tabId = false ->
  let w1 := {| store := store w;
               effects := effects w ++ [ShowOnlyTab (tab_element h tabId)];
               answers := answers w |} in
  let w2 := match loader_of dom_throws h tabId with
            | Some loader => snd (loader w1)
            | None => w1
            end in
  activateTab dom_throws h tabId w
  = (Return tt, {| store := set_loaded tabId (store w2); effects := effects w2;
                   answers := answers w2 |}).
Proof.
  intros Hl. unfold activateTab, bind, emit, read, detached, modify. simpl.
  rewrite Hl. destruct (loader_of dom_throws h tabId); reflexivity.
Qed.

Lemma activateTab_returns (tabId : string) (w : world state) :
  fst (activateTab dom_throws h tabId w) = Return tt
  /\ loaded (store (snd (activateTab dom_throws h tabId w))) tabId = true.
Proof.
  destruct (loaded (store w) tabId) eqn:Hl.
  - rewrite activateTab_loaded by exact Hl. simpl. auto.
  - rewrite activateTab_unloaded by exact Hl. simpl. split; [ reflexivity | ].
    unfold loaded. simpl. now rewrite lookup_insert_eq.
Qed.

Lemma touched_spec (tabId k : string) :
  In k (touched tabId) -> k = tabId \/ (k = "assistant_init" /\ tabId = "assistant").
Proof.
  unfold touched. destruct (String.eqb_spec tabId "assistant") as [-> | Hne]; simpl.
  - intros [<- | [<- | []]]; auto.
  - intros [<- | []]. auto.
Qed.

Lemma activateTab_flags (tabId : string) :
  keeps (flags_grow (touched tabId)) (activateTab dom_throws h tabId).
Proof.
  apply (activateTab_keeps dom_throws (keys := touched tabId) h tabId).
  - unfold touched. destruct (String.eqb tabId "assistant"); now left.
  - intros ->. simpl. auto.
Qed.

Lemma tracks_step (done : list string) (tabId : string) (w : world state) :
  tabId <> "assistant_init" ->
  tracks done w ->
  tracks (done ++ [tabId]) (snd (activateTab dom_throws h tabId w)).
Proof.
  intros Hreal [Hk Hi].
  destruct (activateTab_returns tabId w) as [_ Hset].
  pose proof (activateTab_flags tabId w) as Hg.
  set (w' := snd (activateTab dom_throws h tabId w)) in *.
  split.
  - intros k Hne. rewrite in_app_iff. split.
    + intros Hl. destruct (Hg k) as [E | [Hin _]].
      * left. apply Hk; [ exact Hne | ]. unfold loaded in *. now rewrite <- E.
      * right. left. destruct (touched_spec _ _ Hin) as [-> | [-> _]]; congruence.
    + intros [Hin | [<- | []]]; [ | exact Hset ].
      apply Hk in Hin; [ | exact Hne ].
      unfold loaded in *. destruct (Hg k) as [E | [_ E]]; rewrite E; auto.
  - intros Hl. rewrite in_app_iff.
    destruct (Hg "assistant_init") as [E | [Hin _]].
    + left. apply Hi. unfold loaded in *. now rewrite <- E.
    + right. left. destruct (touched_spec _ _ Hin) as [E | [_ E]]; congruence.
Qed.

Lemma tracks_handler (done : list string) (m : M state unit) (w : world state) :
  ~ In "assistant_init" done ->
  keeps (flags_grow done) m -> tracks done w -> tracks done (snd (m w)).
Proof.
  intros Hreal Hm [Hk Hi]. split.
  - intros k Hne. unfold loaded in *.
    destruct (Hm w k) as [E | [Hin E]]; rewrite E.
    + now apply Hk.
    + simpl. split; [ intros _; exact Hin | reflexivity ].
  - unfold loaded in *.
    destruct (Hm w "assistant_init") as [E | [Hin _]]; [ | contradiction ].
    rewrite E. exact Hi.
Qed.

Lemma tracks_run (events : list event) (done : list string) (w : world state) :
  ~ In "assistant_init" done ->
  orderly h done events ->
  tracks done w ->
  tracks (done ++ activated events) (run_events dom_throws h events w).
Proof.
  revert done w.
  induction events as [| e events IH]; intros done w Hreal Hord Htr.
  - simpl. now rewrite app_nil_r.
  - destruct e as [t | m]; destruct Hord as [He Hord];
      cbn [run_events fold_left activated List.map List.concat].
    + change (done ++ [t] ++ activated events)
        with (done ++ [t] ++ activated events).
      rewrite app_assoc. apply IH.
      * rewrite in_app_iff. intros [Hin | [E | []]]; [ contradiction | ].
        apply (tab_names_real h t He). now symmetry.
      * exact Hord.
      * apply tracks_step; [ now apply (tab_names_real h) | exact Htr ].
    + cbn [app]. apply IH; [ exact Hreal | exact Hord | ].
      now apply tracks_handler.
Qed.

Lemma loaded_initial (k : string) : loaded (initial_state h) k = false.
Proof.
  unfold loaded, initial_state. simpl.
  destruct h; simpl;
    repeat (rewrite lookup_insert; case_decide; [ reflexivity | ]);
    now rewrite lookup_empty.
Qed.

Lemma tracks_initial (eff : list effect) (ans : list fetch_outcome) :
  tracks [] {| store := initial_state h; effects := eff; answers := ans |}.
Proof.
  split; simpl.
  - intros k _. rewrite loaded_initial. split; [ discriminate | intros [] ].
  - rewrite loaded_initial. discriminate.
Qed.

End LazyTabs.

Section FetchesFirst.

Context `{JSON}.

Lemma fetches_first_then {A} (req : request) (m : M state A) (w w' : world state) :
  fetches_first req m -> effects_extend (snd (m w)) w' ->
  exists more, effects w' = effects w ++ Fetch req :: more.
Proof.
  intros Hm [l E]. destruct (Hm w) as [more Em].
  exists (more ++ l). rewrite E, Em, <- app_assoc. reflexivity.
Qed.

Lemma fetches_first_fetchJSON (u : string) (options : props) :
  fetches_first {| url := u; init := prepare options |} (fetchJSON u options).
Proof. intros w. exists []. apply fetchJSON_issues. Qed.

Lemma fetches_first_bind {A B} (req : request) (m : M state A) (k : A -> M state B) :
  fetches_first req m -> (forall a, keeps effects_extend (k a)) ->
  fetches_first req (bind m k).
Proof.
  intros Hm Hk w. apply (fetches_first_then req m w); [ exact Hm | ].
  unfold bind. destruct (m w) as [[a | e] w1]; simpl.
  - apply Hk.
  - apply frame_refl.
Qed.

Lemma fetches_first_try_catch {A} (req : request) (m : M state A)
  (handler : error -> M state A) :
  fetches_first req m -> (forall e, keeps effects_extend (handler e)) ->
  fetches_first req (try_catch m handler).
Proof.
  intros Hm Hh w. apply (fetches_first_then req m w); [ exact Hm | ].
  unfold try_catch. destruct (m w) as [[a | e] w1]; simpl.
  - apply frame_refl.
  - apply Hh.
Qed.

Lemma fetches_first_Promise_all (req : request) (c : M state jsval)
  (rest : list (M state jsval)) :
  fetches_first req c -> Forall (keeps effects_extend) rest ->
  fetches_first req (Api.Promise_all (c :: rest)).
Proof.
  intros Hc Hrest w. apply (fetches_first_then req c w); [ exact Hc | ].
  unfold Api.Promise_all, bind. simpl.
  destruct (c w) as [r w1]. simpl.
  pose proof (keeps_all_settled rest Hrest w1) as Hs.
  destruct (Api.all_settled rest w1) as [[rs | e] w2]; simpl in *.
  - destruct r as [v | e]; [ destruct (Api.first_rejection rs) | ]; exact Hs.
  - exact Hs.
Qed.

End FetchesFirst.

(** One step of a [fetches_first] proof. *)
Ltac first_step :=
  match goal with
  | |- fetches_first _ (try_catch _ _) =>
      apply fetches_first_try_catch; [ | intros; keep ]
  | |- fetches_first _ (bind _ _) =>
      apply fetches_first_bind; [ | intros; keep ]
  | |- fetches_first _ (Api.Promise_all _) =>
      apply fetches_first_Promise_all;
      [ | repeat constructor; apply keeps_fetchJSON ]
  | |- fetches_first _ (fetchJSON _ _) => apply fetches_first_fetchJSON
  end.

Section FirstRequests.

Context `{JSON} (dom_throws : string -> list jsval -> state -> option error).

Lemma loadHome_first (h : hub) :
  fetches_first (GET (match h with
                      | Home => "/dashboard/home"
                      | Work => "/dashboard/work"
                      end)) (loadHome dom_throws h).
Proof.
  unfold loadHome, Api.dashboard, GET. destruct h; repeat first_step.
Qed.

Lemma refreshProjectsSection_first :
  fetches_first (GET "/projects") (refreshProjectsSection dom_throws).
Proof.
  unfold refreshProjectsSection, Api.projects_list, Api.tasks_list,
    Api.notes_list, GET.
  repeat first_step.
Qed.

Lemma refreshBudget_first :
  fetches_first (GET "/budget/summary") (refreshBudget dom_throws).
Proof. unfold refreshBudget, Api.budgetSummary, GET. repeat first_step. Qed.

Lemma refreshSensors_first :
  fetches_first (GET "/sensors") (refreshSensors dom_throws).
Proof. unfold refreshSensors, Api.sensors_list, GET. repeat first_step. Qed.

Lemma refreshKpi_first :
  fetches_first (GET "/kpi/datasets") (refreshKpi dom_throws).
Proof. unfold refreshKpi, Api.kpi_list, GET. repeat first_step. Qed.

Lemma refreshData_first :
  fetches_first (GET "/rag/docs") (refreshData dom_throws).
Proof.
  unfold refreshData, Api.rag_list, Api.dataAssets_list, GET. repeat first_step.
Qed.

Lemma refreshDev_first (h : hub) :
  fetches_first (GET "/dev/status") (refreshDev dom_throws h).
Proof.
  unfold refreshDev, Api.dev_status, Api.settings_config, GET.
  repeat first_step.
Qed.

Lemma initAssistant_first (h : hub) (w : world state) :
  loaded (store w) (init_guard h) = false ->
  exists more,
    effects (snd (initAssistant dom_throws h w))
    = effects w ++ Fetch (GET "/assistant/providers") :: more.
Proof.
  intros Hg. unfold initAssistant.
  change (bind read ?k w) with (k (store w) w). cbv beta.
  unfold init_guard in Hg. rewrite Hg.
  match goal with
  | |- exists more, effects (snd (?m w)) = _ =>
      assert (Hf : fetches_first (GET "/assistant/providers") m); [ | apply Hf ]
  end.
  unfold Api.assistant_providers, GET.
  repeat first_step;
    first [ apply (ensureThread_keeps (keys := []))
          | apply (refreshThreads_keeps dom_throws (keys := [])) ].
Qed.

(** The load [activateTab] starts for a tab begins with the first request
    of the tab; a tab with no loader has no first request. *)
Lemma loader_first_request (h : hub) (tabId : string) (w : world state) :
  (tabId = "assistant" -> loaded (store w) (init_guard h) = false) ->
  match loader_of dom_throws h tabId, first_request h tabId with
  | Some loader, Some u =>
      exists more, effects (snd (loader w)) = effects w ++ Fetch (GET u) :: more
  | None, None => True
  | _, _ => False
  end.
Proof.
  intros Hg. unfold loader_of, first_request.
  destruct h;
    repeat match goal with
           | |- context [String.eqb tabId ?s] =>
               destruct (String.eqb_spec tabId s) as [-> | ?]
           end;
    try exact I; try discriminate;
    first [ apply (loadHome_first Home) | apply (loadHome_first Work)
          | apply initAssistant_first; now apply Hg
          | apply refreshProjectsSection_first
          | apply refreshBudget_first | apply refreshSensors_first
          | apply refreshKpi_first | apply refreshData_first
          | apply refreshDev_first ].
Qed.

End FirstRequests.

(** The listeners and loaders of either hub are in order: all leave
    [tabsLoaded] alone but [loadHome] and [refreshDev], which in the work hub
    set the flag of their tab. *)
Lemma listeners_in_order `{JSON}
  (dom_throws : string -> list jsval -> state -> option error) (h : hub)
  (p id : jsval) (done : list string) :
  keeps (flags_grow done) loadEnv
  /\ keeps (flags_grow done) (refreshProjectsSection dom_throws)
  /\ keeps (flags_grow done) (refreshBudget dom_throws)
  /\ keeps (flags_grow done) (refreshSensors dom_throws)
  /\ keeps (flags_grow done) (refreshKpi dom_throws)
  /\ keeps (flags_grow done) (refreshData dom_throws)
  /\ keeps (flags_grow done) (loadMessages dom_throws h id)
  /\ keeps (flags_grow done) (loadVaultItems dom_throws)
  /\ keeps (flags_grow done) (vault_unlock_submit dom_throws h p)
  /\ (In "dev" done -> keeps (flags_grow done) (refreshDev dom_throws h))
  /\ (In "home" done -> keeps (flags_grow done) (loadHome dom_throws h)).
Proof.
  repeat split;
    eauto using loadEnv_keeps, refreshProjectsSection_keeps, refreshBudget_keeps,
      refreshSensors_keeps, refreshKpi_keeps, refreshData_keeps,
      loadMessages_keeps, loadVaultItems_keeps, vault_unlock_submit_keeps,
      refreshDev_keeps, loadHome_keeps
      with typeclass_instances.
Qed.

(** C7, as stated, fails: in the work hub [refreshDev] sets the flag of the
    dev tab itself, and the refresh button of that tab is bound when the
    page loads.  Run from the button before the dev tab is first activated,
    it leaves the tab marked loaded, and the first activation of the tab
    then loads nothing: it only switches the visible tab. *)
Lemma refresh_before_activation_loads_nothing :
  let answer := Responded {| status := 200; statusText := "OK"; body := "{}" |} in
  let before := [Handler (@refreshDev RefJSON.ref_JSON (fun _ _ _ => None) Work)] in
  let w := @run_events RefJSON.ref_JSON (fun _ _ _ => None) Work before
             {| store := initial_state Work; effects := [];
                answers := [answer; answer] |} in
  ~ In "dev" (activated before)
  /\ effects w
     = [Fetch (@GET RefJSON.ref_JSON "/dev/status");
        Fetch (@GET RefJSON.ref_JSON "/settings/config");
        Dom "renderDevStatus"; Dom "renderDevConfig"]
  /\ loaded (store w) "dev" = true
  /\ @activateTab RefJSON.ref_JSON (fun _ _ _ => None) Work "dev" w
     = (Return tt,
        {| store := store w; effects := effects w ++ [ShowOnlyTab "tab-dev"];
           answers := answers w |}).
Proof.
  intros answer before w.
  assert (Hl : loaded (store w) "dev" = true) by (vm_compute; reflexivity).
  split; [ simpl; tauto | ].
  split; [ vm_compute; reflexivity | ].
  split; [ exact Hl | ].
  apply activateTab_loaded. exact Hl.
Qed.

(** C7, amended.  In either hub, on a page freshly loaded, after any run in
    order (tab activations, and listeners that set no flag but those of tabs
    activated before them), and for any tab of the hub: a call of
    [activateTab] returns with the tab marked loaded; if the tab was
    activated before, the call only switches the visible tab, leaving the
    state and the network alone; if it was not, the flag of the tab goes
    from unset to set and the load of the tab starts, its first request
    going out right after the visibility switch (a tab with no loader, such
    as the vault, starts none). *)
Theorem activateTab_loads_once `{JSON}
  (dom_throws : string -> list jsval -> state -> option error) (h : hub)
  (tabId : string) (before : list event)
  (eff : list effect) (ans : list fetch_outcome) :
  In tabId (TAB_NAMES h) ->
  orderly h [] before ->
  let w := run_events dom_throws h before
             {| store := initial_state h; effects := eff; answers := ans |} in
  let out := activateTab dom_throws h tabId w in
  let shown := ShowOnlyTab (tab_element h tabId) in
  fst out = Return tt
  /\ loaded (store (snd out)) tabId = true
  /\ (In tabId (activated before) ->
      loaded (store w) tabId = true
      /\ snd out = {| store := store w; effects := effects w ++ [shown];
                      answers := answers w |})
  /\ (~ In tabId (activated before) ->
      loaded (store w) tabId = false
      /\ match first_request h tabId with
         | Some u =>
             exists more,
               effects (snd out) = effects w ++ shown :: Fetch (GET u) :: more
         | None =>
             snd out = {| store := set_loaded tabId (store w);
                          effects := effects w ++ [shown];
                          answers := answers w |}
         end).
Proof.
  intros Htab Hbefore w out shown.
  pose proof (tab_names_real h tabId Htab) as Hreal.
  pose proof (tracks_run dom_throws h before [] _ ltac:(intros [])
                Hbefore (tracks_initial h eff ans))
    as [Hk Hi].
  simpl in Hk, Hi. fold w in Hk, Hi.
  destruct (activateTab_returns dom_throws h tabId w) as [Hret Hset].
  split; [ exact Hret | ]. split; [ exact Hset | ]. split.
  - intros Hin. apply Hk in Hin; [ | exact Hreal ].
    split; [ exact Hin | ].
    subst out. now rewrite activateTab_loaded.
  - intros Hnin.
    assert (Hl : loaded (store w) tabId = false).
    { destruct (loaded (store w) tabId) eqn:E; [ | reflexivity ].
      exfalso. apply Hnin. now apply Hk. }
    split; [ exact Hl | ].
    subst out. rewrite activateTab_unloaded by exact Hl.
    fold shown.
    set (w1 := {| store := store w; effects := effects w ++ [shown];
                  answers := answers w |}).
    assert (Hguard : tabId = "assistant" -> loaded (store w1) (init_guard h) = false).
    { intros ->. simpl. destruct h; simpl; [ | exact Hl ].
      destruct (loaded (store w) "assistant_init") eqn:E; [ | reflexivity ].
      exfalso. apply Hnin. now apply Hi. }
    pose proof (loader_first_request dom_throws h tabId w1 Hguard) as Hfirst.
    destruct (loader_of dom_throws h tabId) as [loader |];
      destruct (first_request h tabId) as [u |]; try contradiction.
    + destruct Hfirst as [more E]. exists more. cbn [snd effects].
      rewrite E. subst w1. cbn [effects]. now rewrite <- app_assoc.
    + reflexivity.
Qed.

(** The work hub, with the dev tab refreshed from its button once it has
    been activated. *)
Lemma activateTab_loads_once_witness :
  let before := [Handler (@loadEnv RefJSON.ref_JSON); Activate "home";
                 Activate "dev";
                 Handler (@refreshDev RefJSON.ref_JSON (fun _ _ _ => None) Work);
                 Handler (@vault_unlock_submit RefJSON.ref_JSON (fun _ _ _ => None)
                            Work (JString "2468"))] in
  let w := @run_events RefJSON.ref_JSON (fun _ _ _ => None) Work before
             {| store := initial_state Work; effects := []; answers := [] |} in
  snd (@activateTab RefJSON.ref_JSON (fun _ _ _ => None) Work "dev" w)
  = {| store := store w;
       effects := effects w ++ [ShowOnlyTab "tab-dev"];
       answers := answers w |}.
Proof.
  intros before w.
  destruct (@activateTab_loads_once RefJSON.ref_JSON (fun _ _ _ => None) Work
              "dev" before [] [])
    as (_ & _ & Hagain & _).
  - simpl. tauto.
  - simpl.
    split; [ exact (loadEnv_keeps (R := flags_grow []) (keys := [])) | ].
    split; [ tauto | ]. split; [ tauto | ].
    split.
    { apply (refreshDev_keeps (R := flags_grow ["home"; "dev"])
               (fun _ _ _ => None) (keys := ["home"; "dev"]) Work).
      simpl. tauto. }
    split; [ | exact I ].
    exact (vault_unlock_submit_keeps (R := flags_grow ["home"; "dev"])
             (fun _ _ _ => None) (keys := ["home"; "dev"]) Work (JString "2468")).
  - apply Hagain. simpl. tauto.
Defined.

(** ** C8: unlocking the vault *)

#[export] Instance vault_key_kept_frame : Frame vault_key_kept.
Proof.
  split.
  - intros w. now split.
  - intros a b c [E1 E2] [E3 E4]. split; congruence.
  - intros w e. now split.
  - intros w req. now split.
Qed.

Section Vault.

Context `{JSON} (dom_throws : string -> list jsval -> state -> option error).
Context (h : hub).

Lemma settle_not_nullish (r : response) (v : jsval) :
  settle r = Return v -> exists x, get v "ok" = Some x /\ get_opt v "ok" = x.
Proof.
  unfold settle. destruct (negb (ok r)); [ discriminate | ].
  intros [= <-]. unfold get_opt.
  destruct (payload_of (body r)); simpl; eexists; split; reflexivity.
Qed.

Lemma prepare_pin (p : jsval) :
  prepare (Api.POST (JObject [("pin", p)]))
  = init (pin_request "/vault/auth" p).
Proof. reflexivity. Qed.

Lemma loadVaultItems_key : keeps vault_key_kept (loadVaultItems dom_throws).
Proof.
  unfold loadVaultItems. keep.
  apply keeps_modify. intros w. now split.
Qed.

Lemma loadVaultItems_requests (w : world state) :
  exists more,
    effects (snd (loadVaultItems dom_throws w))
    = effects w ++ Fetch (pin_request "/vault/items/list" (pin (vault (store w)))) :: more.
Proof.
  unfold loadVaultItems.
  change (try_catch (bind read ?k) ?hd w) with (try_catch (k (store w)) hd w).
  cbv beta.
  match goal with
  | |- exists more, effects (snd (?m w)) = _ =>
      assert (Hf : fetches_first
                     (pin_request "/vault/items/list" (pin (vault (store w)))) m);
        [ | apply Hf ]
  end.
  unfold Api.vault_list.
  apply fetches_first_try_catch; [ | intros; keep ].
  apply fetches_first_bind; [ | intros; keep ].
  exact (fetches_first_fetchJSON "/vault/items/list"
           (Api.POST (JObject [("pin", pin (vault (store w)))]))).
Qed.


Lemma loadVaultItems_returns (w : world state) :
  fst (loadVaultItems dom_throws w) = Return tt.
Proof.
  unfold loadVaultItems, try_catch.
  match goal with
  | |- fst (match ?m w with _ => _ end) = _ => destruct (m w) as [[[] | e] w1]
  end; reflexivity.
Qed.

Lemma vault_unlock_accepted (p : jsval) (w : world state) :
  auth_accepted (head (answers w)) = true ->
  vault_unlock_submit dom_throws h p w
  = emit (Toast "Vault unlocked" "success")
      (snd (loadVaultItems dom_throws (unlocked_world h p w))).
Proof.
  unfold auth_accepted.
  destruct (answers w) as [| [reason | r] rest] eqn:Hans; simpl;
    try discriminate.
  destruct (settle r) as [result | e] eqn:Hr; [ | discriminate ].
  intros Hok.
  destruct (settle_not_nullish r result Hr) as (x & Hget & Hx).
  rewrite Hx in Hok.
  unfold vault_unlock_submit, try_catch, Api.vault_auth.
  unfold bind at 1.
  rewrite (fetchJSON_responded _ _ w r rest Hans), Hr.
  unfold bind at 1. unfold get_or_throw. rewrite Hget.
  cbv beta iota delta [ret]. rewrite Hok.
  unfold bind at 1. cbv beta iota delta [modify fst snd store effects answers].
  unfold bind at 1. cbv beta iota delta [modify fst snd store effects answers].
  unfold bind at 1. cbv beta iota delta [emit fst snd store effects answers].
  rewrite <- app_assoc. simpl app.
  unfold bind at 1.
  pose proof (loadVaultItems_returns (unlocked_world h p w)) as Hret.
  unfold unlocked_world in *. rewrite Hans in *. simpl tail in *.
  rewrite prepare_pin. simpl init.
  destruct (loadVaultItems dom_throws _) as [c w3]. simpl in Hret. subst c.
  reflexivity.
Qed.


End Vault.



(** ** C9: what a failed load leaves behind *)

Section FailedLoads.

Context `{JSON}.

Lemma fetchJSON_unfold {S : Type} (u : string) (options : props) (w : world S) :
  fetchJSON u options w
  = (outcome_of (head (answers w)),
     {| store := store w;
        effects := effects w ++ [Fetch {| url := u; init := prepare options |}];
        answers := tail (answers w) |}).
Proof.
  unfold fetchJSON, bind, fetch, outcome_of.
  destruct (answers w) as [| [reason | r] rest]; simpl; try reflexivity.
  destruct (settle r); reflexivity.
Qed.

Lemma failed_throws (a : option fetch_outcome) :
  failed a = true -> exists e, outcome_of a = Throw e.
Proof.
  destruct a as [[reason | r] |]; simpl; intros Hf; try (eexists; reflexivity).
  unfold settle. rewrite Hf. eexists; reflexivity.
Qed.




End FailedLoads.

Section FailedLoaders.

Context `{JSON} (dom_throws : string -> list jsval -> state -> option error).




End FailedLoaders.




(** ** The bound on the rounds of [refreshThreads] *)

#[export] Instance answers_shrink_frame : Frame answers_shrink.
Proof.
  split; unfold answers_shrink.
  - intros w. lia.
  - intros a b c. lia.
  - intros w e. simpl. lia.
  - intros w req. simpl. destruct (answers w); simpl; lia.
Qed.

#[export] Instance answers_shrink_updates (keys : list string) :
  Updates answers_shrink keys.
Proof. split; intros; intros w; unfold answers_shrink; simpl; lia. Qed.

Lemma bind_ext {S A B : Type} (m : M S A) (k1 k2 : A -> M S B) (w : world S) :
  (forall a w', m w = (Return a, w') -> k1 a w' = k2 a w') ->
  bind m k1 w = bind m k2 w.
Proof.
  intros Hk. unfold bind. destruct (m w) as [[a | e] w']; [ | reflexivity ].
  now apply Hk.
Qed.

Section Rounds.

Context `{JSON} (dom_throws : string -> list jsval -> state -> option error).
Context (h : hub).

(** More fuel than there are answers left changes nothing: the branch that
    runs out of fuel is never taken. *)
Lemma refreshThreads_fuel_enough (n fuel : nat) (activeId : jsval) (w : world state) :
  (length (answers w) <= n)%nat -> (n <= fuel)%nat ->
  refreshThreads_fuel dom_throws h fuel activeId w
  = refreshThreads_fuel dom_throws h n activeId w.
Proof.
  revert fuel activeId w.
  induction n as [| n IH]; intros fuel activeId w Hlen Hfuel.
  - destruct (answers w) eqn:Hans; [ | simpl in Hlen; lia ].
    assert (Hthrow : forall k : jsval -> M state unit,
               bind Api.assistant_threads k w
               = (Throw (TypeError "Failed to fetch"),
                  {| store := store w;
                     effects := effects w
                                ++ [Fetch {| url := "/assistant/threads";
                                             init := prepare [] |}];
                     answers := [] |})).
    { intros k. unfold bind, Api.assistant_threads.
      rewrite fetchJSON_unfold, Hans. reflexivity. }
    destruct fuel; simpl; rewrite !Hthrow; reflexivity.
  - destruct fuel as [| fuel]; [ lia | ].
    simpl. apply bind_ext. intros threads w1 Hfetch.
    unfold Api.assistant_threads in Hfetch. rewrite fetchJSON_unfold in Hfetch.
    assert (Hlen1 : (length (answers w1) <= n)%nat).
    { injection Hfetch as Hout <-. simpl.
      destruct (answers w); [ discriminate Hout | simpl in *; lia ]. }
    apply bind_ext. intros [] w2 Hmod.
    assert (Hlen2 : (length (answers w2) <= n)%nat).
    { injection Hmod as <-. exact Hlen1. }
    apply bind_ext. intros len w3 Hget.
    assert (Hlen3 : (length (answers w3) <= n)%nat).
    { unfold get_or_throw in Hget. destruct (get threads "length");
        injection Hget as _ <-; exact Hlen2. }
    destruct (negb (truthy len)); [ | reflexivity ].
    apply bind_ext. intros [] w4 Hens.
    assert (Hlen4 : (length (answers w4) <= n)%nat).
    { pose proof (ensureThread_keeps (R := answers_shrink) (keys := []) h w3) as Hs.
      rewrite Hens in Hs. unfold answers_shrink in Hs. simpl in Hs. lia. }
    apply bind_ext. intros s w5 Hread. injection Hread as <- <-.
    apply IH; [ exact Hlen4 | lia ].
Qed.

Lemma refreshThreads_any_fuel (fuel : nat) (activeId : jsval) (w : world state) :
  (length (answers w) <= fuel)%nat ->
  refreshThreads dom_throws h activeId w
  = refreshThreads_fuel dom_throws h fuel activeId w.
Proof.
  intros Hfuel. unfold refreshThreads. symmetry.
  now apply refreshThreads_fuel_enough.
Qed.

End Rounds.

(** ** Runs on concrete inputs *)

(** Forty-one pings answered in 1, 2, ..., 41 ms, the last one by a 502: the
    first sample is gone, the last is the sentinel. *)
Example pingSeries_after_41_pings :
  let calls := List.map (fun i => {| call_provider := "openai"; call_t0 := 0%Q;
                                     call_t1 := inject_Z i |}) (seqZ 1 41) in
  let answer := fun i =>
    Responded {| status := if i =? 41 then 502 else 200;
                 statusText := ""; body := "{}" |} in
  pingSeries (store (@run_pings RefJSON.ref_JSON calls
                       {| store := fresh 300 60; effects := [];
                          answers := List.map answer (seqZ 1 41) |}))
  = seqZ 2 39 ++ [-1].
Proof. vm_compute. reflexivity. Qed.

(** A response whose body is the JSON text [null] makes [ping] throw on
    [data.detail], before the push. *)
Example ping_null_body_throws :
  let w := {| store := fresh 300 60; effects := [];
              answers := [Responded {| status := 200; statusText := "OK";
                                       body := "null" |}] |} in
  fst (@ping RefJSON.ref_JSON "qwen" 0%Q 3%Q w)
  = Throw (TypeError "Cannot read properties of null")
  /\ pingSeries (store (snd (@ping RefJSON.ref_JSON "qwen" 0%Q 3%Q w))) = [].
Proof. vm_compute. auto. Qed.

(** One sample: the point is at the left edge, the step being the width. *)
Example sparkline_single_sample :
  sparkline_ops [50] 300 60
  = [ClearRect 0 0 (inject_Z 300) (inject_Z 60); BeginPath;
     MoveTo (inject_Z 0 * (inject_Z 300 / inject_Z 1))
            (inject_Z 60 - (inject_Z 50 / inject_Z 100) * inject_Z 60);
     SetLineWidth 2; SetStrokeStyle "#4B9FFF"; Stroke].
Proof. reflexivity. Qed.

(** A validation error whose [detail] is a list of objects: the message is
    the list coerced to a string. *)
Example fetchJSON_detail_list :
  let text := "{" +:+ String RefJSON.dquote "detail" +:+ String RefJSON.dquote
              ":[{},{}]}" in
  @settle RefJSON.ref_JSON {| status := 422; statusText := ""; body := text |}
  = Throw (Error "[object Object],[object Object]").
Proof. vm_compute. reflexivity. Qed.

(** The first activation of the vault tab of the work hub loads nothing. *)
Example vault_tab_loads_nothing :
  @activateTab RefJSON.ref_JSON (fun _ _ _ => None) Work "vault"
    {| store := initial_state Work; effects := []; answers := [] |}
  = (Return tt, {| store := set_loaded "vault" (initial_state Work);
                   effects := [ShowOnlyTab "tab-vault"]; answers := [] |}).
Proof. reflexivity. Qed.

(** Unlocking with a wrong pin, then with the right one; the list request
    of the second submission fails: the pin is stored all the same. *)
Example unlock_then_failed_list :
  let no := "{" +:+ String RefJSON.dquote "ok" +:+ String RefJSON.dquote ":false}" in
  let yes := "{" +:+ String RefJSON.dquote "ok" +:+ String RefJSON.dquote ":true}" in
  let w0 := {| store := initial_state Home; effects := [];
               answers := [Responded {| status := 200; statusText := "OK"; body := no |};
                           Responded {| status := 200; statusText := "OK"; body := yes |};
                           NetworkError "Failed to fetch"] |} in
  let w1 := snd (@vault_unlock_submit RefJSON.ref_JSON (fun _ _ _ => None) Home
                   (JString "0000") w0) in
  let w2 := snd (@vault_unlock_submit RefJSON.ref_JSON (fun _ _ _ => None) Home
                   (JString "2468") w1) in
  store w1 = store w0
  /\ vault (store w2) = {| pin := JString "2468"; unlocked := true; items := JArray [] |}
  /\ List.filter (fun e => match e with Toast _ _ => true | _ => false end) (effects w2)
     = [Toast "Invalid PIN" "danger";
        Toast "Vault load failed: Failed to fetch" "danger";
        Toast "Vault unlocked" "success"].
Proof. vm_compute. auto. Qed.

(** * Properties of the rest of the scripts *)

Import Text AppMore CommonMore Markdown.

(** ** Characters and tags *)

Lemma lacks_app (c : ascii) (a b : string) :
  lacks c (a +:+ b) <-> lacks c a /\ lacks c b.
Proof.
  induction a as [| x a IH]; simpl; [ tauto | ]. rewrite IH. tauto.
Qed.

Lemma replace_char_lacks (c : ascii) (rep s : string) :
  lacks c rep -> lacks c (replace_char c rep s).
Proof.
  intros Hrep. induction s as [| x s IH]; simpl; [ exact I | ].
  destruct (Ascii.eqb_spec x c) as [-> | Hne].
  - apply lacks_app. now split.
  - simpl. now split.
Qed.

Lemma replace_char_keeps_lacks (d c : ascii) (rep s : string) :
  lacks d rep -> lacks d s -> lacks d (replace_char c rep s).
Proof.
  intros Hrep. induction s as [| x s IH]; simpl; [ trivial | ].
  intros [Hx Hs]. destruct (Ascii.eqb x c).
  - apply lacks_app. split; auto.
  - simpl. split; auto.
Qed.

Lemma count_char_app (c : ascii) (a b : string) :
  count_char c (a +:+ b) = (count_char c a + count_char c b)%nat.
Proof.
  induction a as [| x a IH]; simpl; [ reflexivity | ]. rewrite IH. lia.
Qed.

Lemma lacks_count_char (c : ascii) (s : string) :
  lacks c s -> count_char c s = O.
Proof.
  induction s as [| x s IH]; simpl; [ reflexivity | ].
  intros [Hx Hs]. rewrite (IH Hs).
  destruct (Ascii.eqb_spec x c); [ contradiction | reflexivity ].
Qed.

Lemma remove_fences_lacks_upto (d : ascii) (n : nat) :
  forall s, (String.length s <= n)%nat -> lacks d s -> lacks d (remove_fences s).
Proof.
  induction n as [| n IH]; intros s Hlen Hs.
  - destruct s; [ exact I | simpl in Hlen; lia ].
  - destruct s as [| a r]; [ exact I | ].
    simpl in Hlen. destruct Hs as [Ha Hr].
    assert (Hrec : lacks d (String a (remove_fences r))).
    { simpl. split; [ exact Ha | apply IH; [ lia | exact Hr ] ]. }
    destruct r as [| b [| c t]]; try exact Hrec.
    change (remove_fences (String a (String b (String c t))))
      with (if is_backtick a && is_backtick b && is_backtick c
            then remove_fences t
            else String a (remove_fences (String b (String c t)))).
    destruct (is_backtick a && is_backtick b && is_backtick c); [ | exact Hrec ].
    apply IH; [ simpl in Hlen; lia | ].
    simpl in Hr. tauto.
Qed.

Lemma remove_fences_lacks (d : ascii) (s : string) :
  lacks d s -> lacks d (remove_fences s).
Proof. apply (remove_fences_lacks_upto d (String.length s)). lia. Qed.

Lemma split_blocks_from_lacks (d : ascii) :
  d <> newline ->
  forall s cur pending,
    lacks d s -> lacks d cur ->
    Forall (lacks d) (split_blocks_from s cur pending).
Proof.
  intros Hd. induction s as [| c r IH]; intros cur pending Hs Hcur; simpl.
  - destruct pending as [| [| k]].
    + constructor; [ exact Hcur | constructor ].
    + constructor; [ | constructor ].
      apply lacks_app. split; [ exact Hcur | ]. simpl. auto.
    + constructor; [ exact Hcur | ]. constructor; [ exact I | constructor ].
  - destruct Hs as [Hc Hr].
    destruct (Ascii.eqb c newline); [ now apply IH | ].
    destruct pending as [| [| k]].
    + apply IH; [ exact Hr | ]. apply lacks_app. simpl. auto.
    + apply IH; [ exact Hr | ]. apply lacks_app. simpl. auto.
    + constructor; [ exact Hcur | ]. apply IH; [ exact Hr | ]. simpl. auto.
Qed.

Lemma escape_lacks_lt (s : string) : lacks "<" (escape s).
Proof.
  unfold escape. apply replace_char_keeps_lacks.
  - simpl. repeat split; discriminate.
  - apply replace_char_lacks. simpl. repeat split; discriminate.
Qed.

Lemma escape_lacks_gt (s : string) : lacks ">" (escape s).
Proof.
  unfold escape. apply replace_char_lacks. simpl. repeat split; discriminate.
Qed.

Lemma lacks_only_tags (tags : list string) (s : string) :
  lacks "<" s -> lacks ">" s -> only_tags tags s.
Proof.
  induction s as [| c s IH]; simpl; [ constructor | ].
  intros [Hl Hls] [Hg Hgs]. constructor; auto.
Qed.

Lemma string_app_cons (x : ascii) (a b : string) :
  String x a +:+ b = String x (a +:+ b).
Proof. reflexivity. Qed.

Lemma string_app_assoc (a b c : string) : (a +:+ b) +:+ c = a +:+ (b +:+ c).
Proof.
  induction a as [| x a IH]; [ reflexivity | ].
  rewrite !string_app_cons. f_equal. exact IH.
Qed.

Lemma string_app_empty (a : string) : a +:+ "" = a.
Proof.
  induction a as [| x a IH]; [ reflexivity | ].
  rewrite string_app_cons. f_equal. exact IH.
Qed.

Lemma only_tags_app (tags : list string) (a b : string) :
  only_tags tags a -> only_tags tags b -> only_tags tags (a +:+ b).
Proof.
  intros Ha Hb. induction Ha as [| c s Hl Hg Hs IH | t s Ht Hs IH].
  - exact Hb.
  - rewrite string_app_cons. constructor; assumption.
  - rewrite string_app_assoc. constructor; assumption.
Qed.

Lemma only_tags_one (tags : list string) (t : string) :
  In t tags -> only_tags tags t.
Proof.
  intros Ht. rewrite <- (string_app_empty t).
  constructor; [ exact Ht | constructor ].
Qed.

Lemma line_breaks_only_tags (block : string) :
  lacks "<" block -> lacks ">" block ->
  only_tags formatter_tags (replace_char newline "<br />" block).
Proof.
  induction block as [| c s IH]; simpl; [ constructor | ].
  intros [Hl Hls] [Hg Hgs]. destruct (Ascii.eqb c newline).
  - constructor; [ simpl; tauto | auto ].
  - constructor; auto.
Qed.

Lemma render_block_only_tags (trim : string -> string) (block : string) :
  (forall c s, lacks c s -> lacks c (trim s)) ->
  lacks "<" block -> lacks ">" block ->
  only_tags formatter_tags (render_block trim block).
Proof.
  intros Htrim Hl Hg. unfold render_block.
  destruct (String.prefix "```" block).
  - apply (only_tags_tag formatter_tags "<pre><code>"); [ simpl; tauto | ].
    apply only_tags_app.
    + apply lacks_only_tags; apply Htrim; now apply remove_fences_lacks.
    + apply only_tags_one. simpl. tauto.
  - apply (only_tags_tag formatter_tags "<p>"); [ simpl; tauto | ].
    apply only_tags_app.
    + now apply line_breaks_only_tags.
    + apply only_tags_one. simpl. tauto.
Qed.

Lemma concat_only_tags (tags : list string) (l : list string) :
  Forall (only_tags tags) l -> only_tags tags (String.concat "" l).
Proof.
  induction 1 as [| x l Hx Hl IH]; [ constructor | ].
  destruct l as [| y l]; [ exact Hx | ].
  change (String.concat "" (x :: y :: l))
    with (x +:+ "" +:+ String.concat "" (y :: l)).
  apply only_tags_app; [ exact Hx | exact IH ].
Qed.

(** Whatever text a chat message carries, the markup [formatMarkdown] makes
    of it holds no tag but the formatter's own five: every angle bracket of
    the result belongs to one of them.  [trim] only has to take characters
    away. *)
Theorem formatMarkdown_only_own_tags
  (trim : string -> string) (text : jsval) (out : string) :
  (forall c s, lacks c s -> lacks c (trim s)) ->
  formatMarkdown trim text = Some out ->
  only_tags formatter_tags out.
Proof.
  intros Htrim. unfold formatMarkdown.
  destruct (or_else text (JString "")) as [ | | | | s | | | ]; try discriminate.
  intros [= <-]. apply concat_only_tags.
  apply List.Forall_map.
  pose proof (split_blocks_from_lacks "<" ltac:(discriminate) (escape s) "" O
                (escape_lacks_lt s) I) as Hl.
  pose proof (split_blocks_from_lacks ">" ltac:(discriminate) (escape s) "" O
                (escape_lacks_gt s) I) as Hg.
  fold (split_blocks (escape s)) in Hl, Hg.
  rewrite List.Forall_forall in *. intros block Hin.
  apply render_block_only_tags; auto.
Qed.

Lemma trim_start_lacks (c : ascii) (s : string) :
  lacks c s -> lacks c (trim_start s).
Proof.
  induction s as [| x s IH]; simpl; [ trivial | ].
  intros [Hx Hs]. destruct (is_space x); simpl; auto.
Qed.

Lemma trim_end_lacks (c : ascii) (s : string) :
  lacks c s -> lacks c (trim_end s).
Proof.
  induction s as [| x s IH]; simpl; [ trivial | ].
  intros [Hx Hs]. specialize (IH Hs).
  destruct (trim_end s) as [| y r].
  - destruct (is_space x); simpl; auto.
  - simpl in *. tauto.
Qed.

Lemma ascii_trim_lacks (c : ascii) (s : string) :
  lacks c s -> lacks c (ascii_trim s).
Proof. intros Hs. apply trim_end_lacks, trim_start_lacks, Hs. Qed.

Lemma formatMarkdown_only_own_tags_witness :
  formatMarkdown ascii_trim
    (JString ("a <b>bold</b> line" +:+ String newline (String newline "``` x < y ```")))
  = Some "<p>a &lt;b&gt;bold&lt;/b&gt; line</p><pre><code>x &lt; y</code></pre>"
  /\ only_tags formatter_tags
       "<p>a &lt;b&gt;bold&lt;/b&gt; line</p><pre><code>x &lt; y</code></pre>".
Proof.
  split; [ reflexivity | ].
  apply (formatMarkdown_only_own_tags ascii_trim
           (JString ("a <b>bold</b> line"
                     +:+ String newline (String newline "``` x < y ```")))).
  - exact ascii_trim_lacks.
  - reflexivity.
Defined.

(** The text of a chat bubble of dist/js/app.js adds no opening angle
    bracket to its markup: those of the markup are the two of the [strong]
    element, the two of the [meta] element when there is one, and whatever
    the user name and the meta text carry, which are written as they are. *)
Theorem addMessage_text_opens_no_tag (user text : string) (meta : jsval) :
  count_char "<" (addMessage_html user text meta)
  = (2 + count_char "<" user
     + (if truthy meta then 2 + count_char "<" (ToString meta) else 0))%nat.
Proof.
  unfold addMessage_html.
  rewrite !count_char_app.
  rewrite (lacks_count_char "<" (replace_char "<" "&lt;" text)).
  2:{ apply replace_char_lacks. simpl. repeat split; discriminate. }
  destruct (truthy meta); simpl.
  - rewrite !count_char_app. simpl. lia.
  - lia.
Qed.

Example split_blocks_runs :
  split_blocks (String "a" (String newline (String newline (String newline
                 (String "b" (String newline (String "c" (String newline
                    (String newline EmptyString)))))))))
  = ["a"; String "b" (String newline "c"); ""].
Proof. reflexivity. Qed.


(** ** Elapsed times *)

Lemma Math_round_fraction (z : Z) (p : positive) :
  Math_round (z # p) = (2 * z + Z.pos p) / (2 * Z.pos p).
Proof.
  unfold Math_round, Qfloor, Qplus. simpl.
  f_equal; lia.
Qed.

(** [relativeTime] says 'just now' exactly below half a minute; otherwise
    the amount it shows is at least 1 and stays below the size of the next
    unit: under 60 minutes, 24 hours, 30 days, 12 months. *)
Theorem relativeTime_amount_in_range (diff : Z) :
  (relativeTime_parts diff = None <-> diff < 30000)
  /\ forall n unit,
       relativeTime_parts diff = Some (n, unit) ->
       1 <= n
       /\ In unit ["m"; "h"; "d"; "mo"; "y"]
       /\ forall limit, unit_limit unit = Some limit -> n < limit.
Proof.
  unfold relativeTime_parts. rewrite !Math_round_fraction.
  set (minutes := (2 * diff + 60000) / (2 * 60000)).
  set (hours := (2 * minutes + 60) / (2 * 60)).
  set (days := (2 * hours + 24) / (2 * 24)).
  set (months := (2 * days + 30) / (2 * 30)).
  set (years := (2 * months + 12) / (2 * 12)).
  assert (Hmin : minutes < 1 <-> diff < 30000).
  { unfold minutes. split; intros Hlt.
    - apply Z.nle_gt. intros Hge. apply (Z.lt_irrefl 1).
      eapply Z.le_lt_trans; [ | exact Hlt ].
      apply Z.div_le_lower_bound; lia.
    - apply Z.div_lt_upper_bound; lia. }
  destruct (Z.ltb_spec minutes 1) as [L1 | L1].
  { split; [ tauto | intros n unit; discriminate ]. }
  split.
  { split; [ | intros Hd; apply Hmin in Hd; lia ].
    destruct (minutes <? 60), (hours <? 24), (days <? 30), (months <? 12);
      discriminate. }
  intros n unit.
  destruct (Z.ltb_spec minutes 60) as [L2 | L2].
  { intros [= <- <-]. repeat split; [ lia | simpl; tauto | ].
    intros limit; simpl; intros [= <-]. exact L2. }
  assert (1 <= hours) by (apply Z.div_le_lower_bound; lia).
  destruct (Z.ltb_spec hours 24) as [L3 | L3].
  { intros [= <- <-]. repeat split; [ lia | simpl; tauto | ].
    intros limit; simpl; intros [= <-]. exact L3. }
  assert (1 <= days) by (apply Z.div_le_lower_bound; lia).
  destruct (Z.ltb_spec days 30) as [L4 | L4].
  { intros [= <- <-]. repeat split; [ lia | simpl; tauto | ].
    intros limit; simpl; intros [= <-]. exact L4. }
  assert (1 <= months) by (apply Z.div_le_lower_bound; lia).
  destruct (Z.ltb_spec months 12) as [L5 | L5].
  { intros [= <- <-]. repeat split; [ lia | simpl; tauto | ].
    intros limit; simpl; intros [= <-]. exact L5. }
  assert (1 <= years) by (apply Z.div_le_lower_bound; lia).
  intros [= <- <-]. repeat split; [ lia | simpl; tauto | ].
  intros limit. simpl. discriminate.
Qed.

(** The three numbers of the uptime display add up to the whole seconds
    elapsed (none when the clock runs behind the start), with minutes and
    seconds below 60. *)
Theorem uptime_parts_add_up (elapsed : Q) :
  let '(h, m, s) := uptime_parts elapsed in
  3600 * h + 60 * m + s = Z.max 0 (Qfloor elapsed)
  /\ 0 <= h /\ 0 <= m < 60 /\ 0 <= s < 60.
Proof.
  unfold uptime_parts.
  set (secs := Z.max 0 (Qfloor elapsed)).
  assert (0 <= secs) by (unfold secs; lia).
  clearbody secs.
  simpl. Z.div_mod_to_equations. lia.
Qed.

(** ** The sweep of all providers *)

Lemma ping_throws_iff `{JSON} (c : ping_call) (w : world page) :
  match sample_of c (head (answers w)) with
  | [] => exists e, fst (ping (call_provider c) (call_t0 c) (call_t1 c) w) = Throw e
  | _ :: _ => fst (ping (call_provider c) (call_t0 c) (call_t1 c) w) = Return tt
  end.
Proof.
  unfold ping, bind, fetch, get_or_throw, sample_of, drawSparkline, emit, modify, read, ret.
  destruct w as [p eff ans]. simpl.
  destruct ans as [| [reason | r] rest]; simpl; eauto.
  destruct (get (json_or_empty r) "detail") as [d |]; simpl; eauto.
  destruct (40 <? Z.of_nat (length (pingSeries p ++ [if ok r then _ else -1])));
    reflexivity.
Qed.

Lemma for_each_pings `{JSON} (calls : list ping_call) (w : world page) :
  snd (for_each calls (fun c => ping (call_provider c) (call_t0 c) (call_t1 c)) w)
  = run_pings (attempted calls (answers w)) w
  /\ (recorded_all calls (answers w) = true <->
      fst (for_each calls (fun c => ping (call_provider c) (call_t0 c) (call_t1 c)) w)
      = Return tt).
Proof.
  revert w. induction calls as [| c calls IH]; intros w.
  - simpl. split; [ reflexivity | tauto ].
  - simpl. unfold bind.
    pose proof (ping_throws_iff c w) as Hp.
    destruct (ping_unfold c w) as (_ & Ha & _).
    destruct (ping (call_provider c) (call_t0 c) (call_t1 c) w) as [[[] | e] w'] eqn:E;
      simpl in *.
    + destruct (sample_of c (head (answers w))) as [| v vs];
        [ destruct Hp; discriminate | ].
      unfold run_pings. simpl. rewrite <- Ha. apply IH.
    + destruct (sample_of c (head (answers w))) as [| v vs]; [ | discriminate ].
      unfold run_pings. simpl.
      split; [ reflexivity | split; discriminate ].
Qed.

Lemma for_each_map {S A B : Type} (f : A -> B) (body : B -> M S unit) (l : list A) :
  for_each (List.map f l) body = for_each l (fun a => body (f a)).
Proof. induction l as [| a l IH]; simpl; [ reflexivity | now rewrite IH ]. Qed.

(** [pingAll] is the five pings in the fixed order, cut after the first one
    that throws: the page ends as after the independent calls of the pings
    that were started, no later provider is pinged, and the sweep returns
    exactly when each of the five pings records a sample. *)
Theorem pingAll_stops_at_first_failure `{JSON}
  (clock : string -> Q * Q) (w : world page) :
  snd (pingAll clock w) = run_pings (attempted (sweep_calls clock) (answers w)) w
  /\ (recorded_all (sweep_calls clock) (answers w) = true
      <-> fst (pingAll clock w) = Return tt).
Proof.
  pose proof (for_each_pings (sweep_calls clock) w) as Hs.
  unfold sweep_calls in Hs at 1 4. rewrite for_each_map in Hs. exact Hs.
Qed.


(** ** The model list *)

Lemma chars_length (s : string) : length (chars s) = String.length s.
Proof. induction s as [| c s IH]; simpl; [ reflexivity | now rewrite IH ]. Qed.

(** The loop of [refreshModels] over the listed models: it touches neither
    the log nor the network, and when it completes it has added one entry
    per model. *)
Lemma model_loop_adds `{JSON} (ms : list jsval) (w : world (list select_option)) :
  let r := for_each ms (fun m =>
             let* mid := get_or_throw m "id" in
             let id := ToString (or_else mid m) in
             let* mname := get_or_throw m "name" in
             let name := or_else mname (JString id) in
             modify (fun opts =>
               opts ++ [{| option_value := id; option_text := ToString name |}])) w in
  effects (snd r) = effects w /\ answers (snd r) = answers w
  /\ (fst r = Return tt ->
      length (store (snd r)) = (length (store w) + length ms)%nat).
Proof.
  revert w. induction ms as [| m ms IH]; intros w; simpl.
  - unfold ret. simpl. repeat split. intros _. lia.
  - unfold bind, get_or_throw, throw, ret, modify in *.
    destruct (get m "id") as [mid |]; [ | simpl; repeat split; discriminate ].
    destruct (get m "name") as [mname |]; [ | simpl; repeat split; discriminate ].
    match goal with
    | |- context [for_each ms ?b ?w1] => specialize (IH w1)
    end.
    simpl in IH. destruct IH as (He & Ha & Hl).
    repeat split; [ exact He | exact Ha | ].
    intros Hr. rewrite (Hl Hr). rewrite length_app. simpl. lia.
Qed.

Lemma refreshModels_outcome `{JSON} (syntax_message : string -> string)
  (provider : string) (w : world (list select_option)) :
  exists opts console,
    refreshModels syntax_message provider w
    = (Return tt,
       {| store := opts;
          effects := (effects w ++ [Fetch {| url := "/models/" +:+ provider;
                                             init := [] |}]) ++ console;
          answers := tail (answers w) |})
    /\ opts <> []
    /\ Forall (fun e => e = Dom "console.warn" \/ e = Dom "console.error") console.
Proof.
  assert (Hleaf0 : forall (opts : list select_option) (eff : list effect)
                          (ans : list fetch_outcome),
    opts <> [] ->
    exists opts' console,
      (Return tt, {| store := opts; effects := eff; answers := ans |})
      = (Return tt, {| store := opts'; effects := eff ++ console; answers := ans |})
      /\ opts' <> []
      /\ Forall (fun e => e = Dom "console.warn" \/ e = Dom "console.error") console).
  { intros opts eff ans Ho. exists opts, []. rewrite app_nil_r.
    repeat split; [ exact Ho | constructor ]. }
  assert (Hleaf1 : forall (opts : list select_option) (eff : list effect)
                          (ans : list fetch_outcome) (e : effect),
    opts <> [] -> e = Dom "console.warn" \/ e = Dom "console.error" ->
    exists opts' console,
      (Return tt, {| store := opts; effects := eff ++ [e]; answers := ans |})
      = (Return tt, {| store := opts'; effects := eff ++ console; answers := ans |})
      /\ opts' <> []
      /\ Forall (fun e => e = Dom "console.warn" \/ e = Dom "console.error") console).
  { intros opts eff ans e Ho He. exists opts, [e].
    repeat split; [ exact Ho | constructor; [ exact He | constructor ] ]. }
  unfold refreshModels, try_catch, resp_json.
  unfold bind at 1. unfold modify at 1. unfold bind at 1. unfold fetch at 1.
  cbn [store effects answers].
  destruct (answers w) as [| [reason | r] rest]; cbn [tail];
    try (apply Hleaf1; [ discriminate | now right ]).
  destruct (JSON_parse (body r)) as [data |];
    [ | apply Hleaf1; [ discriminate | now right ] ].
  unfold ret at 1. unfold bind at 1. unfold modify at 1. cbn [store effects answers].
  unfold bind at 1. unfold get_or_throw at 1.
  destruct (get data "models") as [listed |];
    [ | apply Hleaf1; [ discriminate | now right ] ].
  unfold ret at 1. unfold bind at 1. unfold get_or_throw at 1.
  cbn [store effects answers].
  set (models := or_else listed (JArray [])).
  assert (Hwarn : forall (opts : list select_option) (eff : list effect),
    opts <> [] ->
    exists opts' console,
      (let (c, w') :=
         (let* warning := get_or_throw data "warning" in
          if truthy warning then emit (Dom "console.warn") else ret tt)
           {| store := opts; effects := eff; answers := rest |} in
       match c with
       | Return a => (Return a, w')
       | Throw _ =>
           (emit (Dom "console.error") ;;
            modify (fun _ : list select_option => [fallback_option])) w'
       end)
      = (Return tt, {| store := opts'; effects := eff ++ console; answers := rest |})
      /\ opts' <> []
      /\ Forall (fun e => e = Dom "console.warn" \/ e = Dom "console.error") console).
  { intros opts eff Ho. unfold bind at 1. unfold get_or_throw.
    destruct (get data "warning") as [wv |];
      [ | apply Hleaf1; [ discriminate | now right ] ].
    unfold ret at 1. destruct (truthy wv).
    - apply Hleaf1; [ exact Ho | now left ].
    - apply Hleaf0. exact Ho. }
  destruct (get models "length") as [len |] eqn:Hget;
    [ | apply Hleaf1; [ discriminate | now right ] ].
  unfold ret at 1. unfold bind at 1.
  destruct (truthy len) eqn:Hlen.
  - destruct (iterate models) as [ms |] eqn:Hit;
      [ | apply Hleaf1; [ discriminate | now right ] ].
    assert (Hms : ms <> []).
    { intros ->. destruct models; try discriminate; simpl in Hit, Hget.
      - injection Hit as Hc. injection Hget as <-.
        rewrite <- chars_length, Hc in Hlen. discriminate.
      - injection Hit as ->. injection Hget as <-. discriminate. }
    unfold bind at 1.
    match goal with
    | |- context [for_each ms ?b ?w1] =>
        pose proof (model_loop_adds ms w1) as Hloop;
        destruct (for_each ms b w1) as [[[] | e] [s3 e3 a3]]
    end; cbn [fst snd store effects answers] in Hloop;
      destruct Hloop as (-> & -> & Hl).
    + apply Hwarn. specialize (Hl eq_refl). destruct s3; [ | discriminate ].
      destruct ms; [ congruence | discriminate ].
    + apply Hleaf1; [ discriminate | now right ].
  - unfold bind at 1. unfold modify at 1. cbn [store effects answers].
    apply Hwarn. discriminate.
Qed.

(** [refreshModels] never throws and never leaves the select empty,
    whatever the network does; it issues one request, for the models of the
    chosen provider, and writes nothing but console lines besides. *)
Theorem refreshModels_leaves_a_choice `{JSON} (syntax_message : string -> string)
  (provider : string) (w : world (list select_option)) :
  let r := refreshModels syntax_message provider w in
  fst r = Return tt
  /\ store (snd r) <> []
  /\ answers (snd r) = tail (answers w)
  /\ exists console,
       effects (snd r)
       = effects w ++ Fetch {| url := "/models/" +:+ provider; init := [] |} :: console
       /\ Forall (fun e => e = Dom "console.warn" \/ e = Dom "console.error") console.
Proof.
  destruct (refreshModels_outcome syntax_message provider w) as (opts & console & E & Ho & Hc).
  simpl. rewrite E. simpl. repeat split; [ exact Ho | ].
  exists console. split; [ | exact Hc ].
  rewrite <- app_assoc. reflexivity.
Qed.

(** A payload that lists one model as an object and one as a plain id. *)
Example refreshModels_lists_models :
  let q := String RefJSON.dquote EmptyString in
  let body_text :=
    "{" +:+ q +:+ "models" +:+ q +:+ ":[{" +:+ q +:+ "id" +:+ q +:+ ":" +:+ q +:+ "m1" +:+ q
    +:+ "," +:+ q +:+ "name" +:+ q +:+ ":" +:+ q +:+ "Model One" +:+ q +:+ "},"
    +:+ q +:+ "m2" +:+ q +:+ "]}" in
  let w := {| store := []; effects := [];
              answers := [Responded {| status := 200; statusText := "OK";
                                       body := body_text |}] |} in
  store (snd (@refreshModels RefJSON.ref_JSON (fun _ => "bad JSON") "openai" w))
  = [{| option_value := "m1"; option_text := "Model One" |};
     {| option_value := "m2"; option_text := "m2" |}]
  /\ store (snd (@refreshModels RefJSON.ref_JSON (fun _ => "bad JSON") "openai"
                   {| store := []; effects := []; answers := [] |}))
     = [fallback_option].
Proof. split; reflexivity. Qed.


(** ** Listeners that change data *)

Import HubMore.

Lemma succeeded_returns `{JSON} (a : option fetch_outcome) :
  failed a = false -> exists v, outcome_of a = Return v.
Proof.
  destruct a as [[reason | r] |]; simpl; try discriminate.
  intros Hf. unfold settle. rewrite Hf. eexists; reflexivity.
Qed.

Lemma try_catch_returns {S : Type} (m : M S unit) (handler : error -> M S unit)
  (w : world S) :
  (forall e w', fst (handler e w') = Return tt) ->
  fst (try_catch m handler w) = Return tt.
Proof.
  intros Hh. unfold try_catch. destruct (m w) as [[[] | e] w1]; [ reflexivity | apply Hh ].
Qed.

Lemma toast_returns (text variant : string) (w : world state) :
  fst (showToast text variant w) = Return tt.
Proof. reflexivity. Qed.

Section Refresh.

Context `{JSON} (dom_throws : string -> list jsval -> state -> option error).

Lemma refreshProjectsSection_returns (w : world state) :
  fst (refreshProjectsSection dom_throws w) = Return tt.
Proof. apply try_catch_returns. intros; apply toast_returns. Qed.

(** A guarded facade call followed by more: by the answer the call gets. *)
Lemma try_fetch_then (u : string) (o : props) (k : M state unit)
  (handler : error -> M state unit) (w : world state) :
  try_catch (fetchJSON u o ;; k) handler w
  = match outcome_of (head (answers w)) with
    | Return _ => try_catch k handler (sent (facade_request u o) w)
    | Throw e => handler e (sent (facade_request u o) w)
    end.
Proof.
  unfold try_catch at 1. unfold bind. rewrite fetchJSON_unfold.
  destruct (outcome_of (head (answers w))) as [v | e]; reflexivity.
Qed.

(** The same, when what follows uses the payload. *)
Lemma try_fetch_bind (u : string) (o : props) (k : jsval -> M state unit)
  (handler : error -> M state unit) (w : world state) :
  try_catch (bind (fetchJSON u o) k) handler w
  = match outcome_of (head (answers w)) with
    | Return v => try_catch (k v) handler (sent (facade_request u o) w)
    | Throw e => handler e (sent (facade_request u o) w)
    end.
Proof.
  unfold try_catch at 1. unfold bind. rewrite fetchJSON_unfold.
  destruct (outcome_of (head (answers w))) as [v | e]; reflexivity.
Qed.

End Refresh.

(** Submitting the form of a project, a task or a note.  When the create
    call fails, the form is not reset and the lists are not fetched again:
    the request and one danger toast are all there is, and the state is as
    before.  When it succeeds, the form is reset and the lists are fetched
    again, and the success toast is shown whatever becomes of that fetch:
    after it on the home hub, before it on the work hub. *)
Theorem form_submit_outcome `{JSON}
  (dom_throws : string -> list jsval -> state -> option error) (h : hub)
  (k : kind) (data : jsval) (w : world state) :
  let saved := Toast (kind_name k +:+ " saved") "success" in
  let created := logged (Dom "reset") (sent (create_request k data) w) in
  if failed (head (answers w)) then
    exists text,
      form_submit dom_throws h k data w
      = (Return tt, logged (Toast text "danger") (sent (create_request k data) w))
  else
    form_submit dom_throws h k data w
    = (Return tt,
       match h with
       | Home => logged saved (snd (refreshProjectsSection dom_throws created))
       | Work => snd (refreshProjectsSection dom_throws (logged saved created))
       end).
Proof.
  intros saved created. unfold form_submit.
  assert (E : create k data
              = fetchJSON (url (create_request k data)) (Api.POST data))
    by (destruct k; reflexivity).
  rewrite E. rewrite try_fetch_then.
  change (facade_request (url (create_request k data)) (Api.POST data))
    with (create_request k data).
  destruct (failed (head (answers w))) eqn:Hf.
  - destruct (failed_throws _ Hf) as [e ->]. eexists. reflexivity.
  - destruct (succeeded_returns _ Hf) as [v ->].
    unfold try_catch.
    change (bind (emit (Dom "reset")) ?K (sent (create_request k data) w))
      with (K tt created).
    cbv beta. destruct h.
    + unfold bind.
      pose proof (refreshProjectsSection_returns dom_throws created) as Hr.
      destruct (refreshProjectsSection dom_throws created) as [c w2].
      simpl in Hr. subst c. reflexivity.
    + change (bind (showToast ?t ?v) ?K created)
        with (K tt (logged (Toast t v) created)).
      cbv beta. fold saved.
      pose proof (refreshProjectsSection_returns dom_throws (logged saved created)) as Hr.
      destruct (refreshProjectsSection dom_throws (logged saved created)) as [c w2].
      simpl in Hr. subst c. reflexivity.
Qed.

(** Changing or removing a project, a task or a note.  A removal the user
    declines does nothing at all.  Otherwise one request goes out; when it
    fails there is one danger toast, the lists are not fetched again and the
    state is as before; when it succeeds the lists are fetched again. *)
Theorem mutation_outcome `{JSON}
  (dom_throws : string -> list jsval -> state -> option error) (h : hub)
  (m : mutation) (w : world state) :
  if negb (goes_ahead m) then run_mutation dom_throws h m w = (Return tt, w)
  else if failed (head (answers w)) then
    exists text,
      run_mutation dom_throws h m w
      = (Return tt, logged (Toast text "danger") (sent (mutation_request m) w))
  else
    run_mutation dom_throws h m w
    = (Return tt,
       snd (refreshProjectsSection dom_throws (sent (mutation_request m) w))).
Proof.
  assert (Hgo : forall u o handler,
    (forall e w', exists text, handler e w' = (Return tt, logged (Toast text "danger") w')) ->
    if failed (head (answers w)) then
      exists text,
        try_catch (fetchJSON u o ;; refreshProjectsSection dom_throws) handler w
        = (Return tt, logged (Toast text "danger") (sent (facade_request u o) w))
    else
      try_catch (fetchJSON u o ;; refreshProjectsSection dom_throws) handler w
      = (Return tt,
         snd (refreshProjectsSection dom_throws (sent (facade_request u o) w)))).
  { intros u o handler Hh. rewrite try_fetch_then.
    destruct (failed (head (answers w))) eqn:Hf.
    - destruct (failed_throws _ Hf) as [e ->]. apply Hh.
    - destruct (succeeded_returns _ Hf) as [v ->]. unfold try_catch.
      pose proof (refreshProjectsSection_returns dom_throws
                    (sent (facade_request u o) w)) as Hr.
      destruct (refreshProjectsSection dom_throws _) as [c w2].
      simpl in Hr. subst c. reflexivity. }
  destruct m as [id patch | id patch | [] id | [] id | [] id]; simpl;
    try reflexivity;
    apply Hgo; intros e w'; eexists; reflexivity.
Qed.


(** ** The vault after the unlock *)

Section VaultListeners.

Context `{JSON} (dom_throws : string -> list jsval -> state -> option error).

Lemma prepare_secret (p : jsval) (entries : props) :
  prepare (Api.POST (JObject (set_prop "pin" p entries)))
  = init (secret_request p entries).
Proof. reflexivity. Qed.

Lemma prepare_removal (id p : jsval) :
  prepare [("method", JString "DELETE"); ("body", JObject [("pin", p)])]
  = init (removal_request id p).
Proof. reflexivity. Qed.

End VaultListeners.

(** Submitting the form of a new secret.  While the vault is locked the
    listener only warns: no request goes out.  Once it is unlocked, the
    secret is posted with the pin of the state, whatever [pin] the form
    itself carries; a failed post gives one danger toast and leaves the rest
    alone, a successful one resets the form, fetches the items again and
    ends on the success toast. *)
Theorem vault_form_submit_outcome `{JSON}
  (dom_throws : string -> list jsval -> state -> option error)
  (entries : props) (w : world state) :
  let p := pin (vault (store w)) in
  let req := secret_request p entries in
  lookup_prop "pin" (set_prop "pin" p entries) = Some p
  /\ if unlocked (vault (store w)) then
       if failed (head (answers w)) then
         exists text,
           vault_form_submit dom_throws entries w
           = (Return tt, logged (Toast text "danger") (sent req w))
       else
         vault_form_submit dom_throws entries w
         = (Return tt,
            logged (Toast "Secret stored" "success")
              (snd (loadVaultItems dom_throws (logged (Dom "reset") (sent req w)))))
     else
       vault_form_submit dom_throws entries w
       = (Return tt, logged (Toast "Unlock vault first" "warn") w).
Proof.
  intros p req. split; [ apply lookup_set_prop_eq | ].
  unfold vault_form_submit.
  change (bind read ?k w) with (k (store w) w). cbv beta.
  destruct (unlocked (vault (store w))); [ | reflexivity ].
  cbn [negb]. cbv zeta. unfold ApiMore.vault_create.
  rewrite try_fetch_then.
  change (facade_request "/vault/items"
            (Api.POST (JObject (set_prop "pin" (pin (vault (store w))) entries))))
    with req.
  destruct (failed (head (answers w))) eqn:Hf.
  - destruct (failed_throws _ Hf) as [e ->]. eexists. reflexivity.
  - destruct (succeeded_returns _ Hf) as [v ->].
    unfold try_catch.
    change (bind (emit (Dom "reset")) ?K (sent req w))
      with (K tt (logged (Dom "reset") (sent req w))).
    cbv beta. unfold bind.
    pose proof (loadVaultItems_returns dom_throws
                  (logged (Dom "reset") (sent req w))) as Hr.
    destruct (loadVaultItems dom_throws _) as [c w2].
    simpl in Hr. subst c. reflexivity.
Qed.

(** Removing a secret.  Declined, nothing happens.  Confirmed, a DELETE
    goes out that carries the pin of the state as a JSON body; when it fails
    there is one danger toast and the items are not fetched again; when it
    succeeds they are. *)
Theorem deleteVaultItem_outcome `{JSON}
  (dom_throws : string -> list jsval -> state -> option error) (h : hub)
  (confirmed : bool) (id : jsval) (w : world state) :
  let req := removal_request id (pin (vault (store w))) in
  if negb confirmed then deleteVaultItem dom_throws h confirmed id w = (Return tt, w)
  else if failed (head (answers w)) then
    exists text,
      deleteVaultItem dom_throws h confirmed id w
      = (Return tt, logged (Toast text "danger") (sent req w))
  else
    deleteVaultItem dom_throws h confirmed id w
    = (Return tt, snd (loadVaultItems dom_throws (sent req w))).
Proof.
  intros req. unfold deleteVaultItem.
  destruct confirmed; [ | reflexivity ]. cbn [negb].
  change (try_catch (bind read ?k) ?hd w) with (try_catch (k (store w)) hd w).
  cbv beta.
  unfold ApiMore.vault_remove. rewrite try_fetch_then.
  change (facade_request ("/vault/items/" +:+ ToString id)
            [("method", JString "DELETE");
             ("body", JObject [("pin", pin (vault (store w)))])])
    with req.
  destruct (failed (head (answers w))) eqn:Hf.
  - destruct (failed_throws _ Hf) as [e ->]. eexists. reflexivity.
  - destruct (succeeded_returns _ Hf) as [v ->].
    unfold try_catch.
    pose proof (loadVaultItems_returns dom_throws (sent req w)) as Hr.
    destruct (loadVaultItems dom_throws _) as [c w2].
    simpl in Hr. subst c. reflexivity.
Qed.


(** ** What the listeners leave alone *)

(** One step of a proof that a computation keeps the pin and the lock. *)
Ltac lock_step :=
  match goal with
  | |- keeps vault_key_kept (modify _) =>
      apply keeps_modify; intros ?; split; reflexivity
  | |- keeps vault_key_kept (Api.Promise_all _) =>
      apply keeps_Promise_all;
      repeat (apply List.Forall_cons; [ apply keeps_fetchJSON | ]);
      apply List.Forall_nil
  | _ => keep_step
  end.

Ltac lock :=
  unfold Api.env, Api.dashboard, Api.assistant_providers, Api.assistant_threads,
    Api.assistant_createThread, Api.assistant_messages, Api.projects_list,
    Api.tasks_list, Api.notes_list, Api.kpi_list, Api.dataAssets_list,
    Api.rag_list, Api.budgetSummary, Api.sensors_list, Api.vault_list,
    Api.dev_status, Api.settings_config,
    ApiMore.projects_create, ApiMore.projects_update, ApiMore.projects_remove,
    ApiMore.tasks_create, ApiMore.tasks_update, ApiMore.tasks_remove,
    ApiMore.notes_create, ApiMore.notes_remove, ApiMore.vault_create,
    ApiMore.vault_remove, ApiMore.kpi_upload, ApiMore.budget_import,
    ApiMore.settings_update;
  repeat lock_step.

Section Lock.

Context `{JSON} (dom_throws : string -> list jsval -> state -> option error).

Lemma ensureThread_lock (h : hub) : keeps vault_key_kept (ensureThread h).
Proof. unfold ensureThread. lock. Qed.

Lemma renderThreads_lock (activeId : jsval) :
  keeps vault_key_kept (renderThreads dom_throws activeId).
Proof. unfold renderThreads. lock. Qed.

Lemma loadMessages_lock (h : hub) (id : jsval) :
  keeps vault_key_kept (loadMessages dom_throws h id).
Proof. unfold loadMessages. lock. Qed.

Lemma refreshThreads_fuel_lock (h : hub) (fuel : nat) (activeId : jsval) :
  keeps vault_key_kept (refreshThreads_fuel dom_throws h fuel activeId).
Proof.
  revert activeId. induction fuel as [| fuel IH]; intros activeId; simpl.
  - lock; try apply ensureThread_lock; try apply renderThreads_lock;
      try apply loadMessages_lock.
  - lock; try apply ensureThread_lock; try apply renderThreads_lock;
      try apply loadMessages_lock; try apply IH.
Qed.

Lemma refreshThreads_lock (h : hub) (activeId : jsval) :
  keeps vault_key_kept (refreshThreads dom_throws h activeId).
Proof. intros w. unfold refreshThreads. apply refreshThreads_fuel_lock. Qed.

Lemma initAssistant_lock (h : hub) : keeps vault_key_kept (initAssistant dom_throws h).
Proof.
  unfold initAssistant.
  lock; try apply ensureThread_lock; try apply refreshThreads_lock.
Qed.

Lemma run_lock (h : hub) (l : loader) : keeps vault_key_kept (run dom_throws h l).
Proof.
  destruct l; simpl;
    unfold loadEnv, loadHome, refreshProjectsSection, refreshBudget,
      refreshSensors, refreshKpi, refreshData, refreshDev, loadVaultItems;
    lock.
Qed.

Lemma loader_of_lock (h : hub) (tabId : string) (loader : M state unit) :
  loader_of dom_throws h tabId = Some loader -> keeps vault_key_kept loader.
Proof.
  unfold loader_of.
  destruct h;
    repeat match goal with
           | |- (if String.eqb tabId ?s then _ else _) = _ -> _ =>
               destruct (String.eqb tabId s)
           end;
    intros [= <-];
    first [ apply initAssistant_lock
          | apply (run_lock Home LoadHome) | apply (run_lock Work LoadHome)
          | apply (run_lock Home RefreshProjectsSection)
          | apply (run_lock Home RefreshBudget)
          | apply (run_lock Home RefreshSensors)
          | apply (run_lock Home RefreshKpi)
          | apply (run_lock Home RefreshData)
          | apply (run_lock Home RefreshDev) | apply (run_lock Work RefreshDev) ].
Qed.

Lemma activateTab_lock (h : hub) (tabId : string) :
  keeps vault_key_kept (activateTab dom_throws h tabId).
Proof.
  unfold activateTab.
  apply keeps_bind; [ apply keeps_emit | intros _ ].
  apply keeps_bind; [ apply keeps_read | intros s ].
  destruct (loaded s tabId); [ apply keeps_ret | ].
  apply keeps_bind.
  - destruct (loader_of dom_throws h tabId) as [loader |] eqn:El.
    + apply keeps_detached. now apply (loader_of_lock h tabId).
    + apply keeps_ret.
  - intros _. apply keeps_modify. intros w. split; reflexivity.
Qed.

Lemma run_listener_lock (h : hub) (l : listener) :
  keeps vault_key_kept (run_listener dom_throws h l).
Proof.
  destruct l as [l | | id | tabId | k data | m | entries | confirmed id
                 | file | file | syntax_message text]; simpl.
  - apply run_lock.
  - apply initAssistant_lock.
  - apply loadMessages_lock.
  - apply activateTab_lock.
  - unfold form_submit, create. lock; apply (run_lock Home RefreshProjectsSection).
  - destruct m; simpl;
      unfold updateProject, updateTask, deleteProject, deleteTask, deleteNote;
      lock; apply (run_lock Home RefreshProjectsSection).
  - unfold vault_form_submit. lock. apply (run_lock Home LoadVaultItems).
  - unfold deleteVaultItem. lock. apply (run_lock Home LoadVaultItems).
  - unfold budget_import_submit. lock. apply (run_lock Home RefreshBudget).
  - unfold kpi_upload_submit. lock. apply (run_lock Home RefreshKpi).
  - unfold saveConfig. lock.
Qed.

Lemma run_listeners_lock (h : hub) (ls : list listener) (w : world state) :
  vault_key_kept w (run_listeners dom_throws h ls w).
Proof.
  revert w. induction ls as [| l ls IH]; intros w; simpl.
  - apply frame_refl.
  - eapply frame_trans; [ apply (run_listener_lock h l w) | apply IH ].
Qed.

(** The first request of the two listeners that use the stored pin. *)
Lemma vault_form_submit_first (entries : props) (w : world state) :
  unlocked (vault (store w)) = true ->
  exists more,
    effects (snd (vault_form_submit dom_throws entries w))
    = effects w ++ Fetch (secret_request (pin (vault (store w))) entries) :: more.
Proof.
  intros Hu. unfold vault_form_submit.
  change (bind read ?k w) with (k (store w) w). cbv beta. rewrite Hu.
  cbn [negb]. cbv zeta.
  match goal with
  | |- exists more, effects (snd (?m w)) = _ =>
      assert (Hf : fetches_first
                     (secret_request (pin (vault (store w))) entries) m);
        [ | apply Hf ]
  end.
  unfold ApiMore.vault_create.
  apply fetches_first_try_catch; [ | intros; keep ].
  apply fetches_first_bind.
  - exact (fetches_first_fetchJSON "/vault/items"
             (Api.POST (JObject (set_prop "pin" (pin (vault (store w))) entries)))).
  - intros. keep. apply (loadVaultItems_keeps dom_throws (keys := [])).
Qed.

Lemma deleteVaultItem_first (h : hub) (id : jsval) (w : world state) :
  exists more,
    effects (snd (deleteVaultItem dom_throws h true id w))
    = effects w ++ Fetch (removal_request id (pin (vault (store w)))) :: more.
Proof.
  unfold deleteVaultItem. cbn [negb].
  change (try_catch (bind read ?k) ?hd w) with (try_catch (k (store w)) hd w).
  cbv beta.
  match goal with
  | |- exists more, effects (snd (?m w)) = _ =>
      assert (Hf : fetches_first
                     (removal_request id (pin (vault (store w)))) m);
        [ | apply Hf ]
  end.
  unfold ApiMore.vault_remove.
  apply fetches_first_try_catch; [ | intros; keep ].
  apply fetches_first_bind.
  - exact (fetches_first_fetchJSON ("/vault/items/" +:+ ToString id)
             [("method", JString "DELETE");
              ("body", JObject [("pin", pin (vault (store w)))])]).
  - intros. apply (loadVaultItems_keeps dom_throws (keys := [])).
Qed.

End Lock.

(** Of all the loaders and listeners of the hubs, in any number and any
    order and whatever the network answers, none but the unlock form writes
    the pin or the lock of the vault. *)
Theorem pin_written_by_unlock_only `{JSON}
  (dom_throws : string -> list jsval -> state -> option error) (h : hub)
  (ls : list listener) (w : world state) :
  let w' := run_listeners dom_throws h ls w in
  pin (vault (store w')) = pin (vault (store w))
  /\ unlocked (vault (store w')) = unlocked (vault (store w)).
Proof. apply run_listeners_lock. Qed.

(** The loaders and listeners of the hubs that make a bounded number of
    requests return, and never throw: each failure ends in its handler,
    which shows a toast.  [initAssistant] is left out: its [refreshThreads]
    calls itself again for as long as the server lists no thread, so whether
    it settles is up to the server.  [activateTab] does not wait for the
    loader it starts, and returns whatever becomes of it. *)
Theorem hub_listeners_never_throw `{JSON}
  (dom_throws : string -> list jsval -> state -> option error) (h : hub)
  (l : listener) (w : world state) :
  l <> InitAssistant ->
  fst (run_listener dom_throws h l w) = Return tt
  /\ forall p, fst (vault_unlock_submit dom_throws h p w) = Return tt.
Proof.
  intros Hl. split.
  - destruct l as [l | | id | tabId | k data | m | entries | confirmed id
                   | file | file | syntax_message text]; simpl.
    + destruct l; apply try_catch_returns; intros; reflexivity.
    + contradiction.
    + apply try_catch_returns; intros; reflexivity.
    + apply activateTab_returns.
    + apply try_catch_returns; intros; reflexivity.
    + destruct m as [id patch | id patch | [] id | [] id | [] id]; simpl;
        try reflexivity; apply try_catch_returns; intros; reflexivity.
    + unfold vault_form_submit. change (bind read ?k w) with (k (store w) w).
      cbv beta. destruct (unlocked (vault (store w))); [ | reflexivity ].
      apply try_catch_returns; intros; reflexivity.
    + destruct confirmed; [ | reflexivity ].
      apply try_catch_returns; intros; reflexivity.
    + unfold budget_import_submit.
      destruct (entry_missing file || entry_sizeless file); [ reflexivity | ].
      apply try_catch_returns; intros; reflexivity.
    + unfold kpi_upload_submit.
      destruct (entry_missing file); [ reflexivity | ].
      apply try_catch_returns; intros; reflexivity.
    + apply try_catch_returns; intros; reflexivity.
  - intros p. apply try_catch_returns; intros; reflexivity.
Qed.

(** The projects form submitted with the network down. *)
Lemma hub_listeners_never_throw_witness :
  @run_listener RefJSON.ref_JSON (fun _ _ _ => None) Home
    (FormSubmit Project (JObject [("name", JString "Garden")]))
    {| store := initial_state Home; effects := []; answers := [] |}
  = (Return tt,
     {| store := initial_state Home;
        effects := [Fetch (@create_request RefJSON.ref_JSON Project
                             (JObject [("name", JString "Garden")]));
                    Toast "Project error: Failed to fetch" "danger"];
        answers := [] |})
  /\ fst (@run_listener RefJSON.ref_JSON (fun _ _ _ => None) Home
            (FormSubmit Project (JObject [("name", JString "Garden")]))
            {| store := initial_state Home; effects := []; answers := [] |})
     = Return tt.
Proof.
  split; [ reflexivity | ].
  apply (@hub_listeners_never_throw RefJSON.ref_JSON (fun _ _ _ => None) Home
           (FormSubmit Project (JObject [("name", JString "Garden")]))).
  discriminate.
Defined.

(** Once the unlock form has been submitted with a pin the auth endpoint
    accepts, and whatever loaders and listeners run afterwards, the vault is
    unlocked and that pin is the one sent: by a new secret, by a removal and
    by the fetch of the items. *)
Theorem accepted_pin_is_sent `{JSON}
  (dom_throws : string -> list jsval -> state -> option error) (h : hub)
  (p : jsval) (ls : list listener) (w : world state) :
  auth_accepted (head (answers w)) = true ->
  let w1 := run_listeners dom_throws h ls
              (snd (vault_unlock_submit dom_throws h p w)) in
  unlocked (vault (store w1)) = true
  /\ (forall entries, exists more,
        effects (snd (vault_form_submit dom_throws entries w1))
        = effects w1 ++ Fetch (secret_request p entries) :: more)
  /\ (forall id, exists more,
        effects (snd (deleteVaultItem dom_throws h true id w1))
        = effects w1 ++ Fetch (removal_request id p) :: more)
  /\ exists more,
       effects (snd (loadVaultItems dom_throws w1))
       = effects w1 ++ Fetch (pin_request "/vault/items/list" p) :: more.
Proof.
  intros Hacc w1.
  assert (Hkey : pin (vault (store w1)) = p /\ unlocked (vault (store w1)) = true).
  { destruct (run_listeners_lock dom_throws h ls
                (snd (vault_unlock_submit dom_throws h p w))) as [Hp Hu].
    fold w1 in Hp, Hu. rewrite Hp, Hu.
    rewrite (vault_unlock_accepted dom_throws h p w Hacc). simpl.
    destruct (loadVaultItems_key dom_throws (unlocked_world h p w)) as [Hp' Hu'].
    rewrite Hp', Hu'. split; reflexivity. }
  destruct Hkey as [Hp Hu].
  split; [ exact Hu | ].
  split; [ | split ].
  - intros entries.
    destruct (vault_form_submit_first dom_throws entries w1 Hu) as [more E].
    rewrite Hp in E. now exists more.
  - intros id.
    destruct (deleteVaultItem_first dom_throws h id w1) as [more E].
    rewrite Hp in E. now exists more.
  - destruct (loadVaultItems_requests dom_throws w1) as [more E].
    rewrite Hp in E. now exists more.
Qed.

Lemma accepted_pin_is_sent_witness :
  let ok_true := "{" +:+ String RefJSON.dquote "ok" +:+ String RefJSON.dquote ":true}" in
  let w := {| store := initial_state Home; effects := [];
              answers := [Responded {| status := 200; statusText := "OK"; body := ok_true |};
                          Responded {| status := 200; statusText := "OK"; body := "[]" |}] |} in
  let entries := [("name", JString "wifi"); ("pin", JString "0000")] in
  let w1 := @run_listeners RefJSON.ref_JSON (fun _ _ _ => None) Home
              [ActivateTab "projects"; DeleteVaultItem false (JNumber 3)]
              (snd (@vault_unlock_submit RefJSON.ref_JSON (fun _ _ _ => None) Home
                      (JString "2468") w)) in
  @auth_accepted RefJSON.ref_JSON (head (answers w)) = true
  /\ unlocked (vault (store w1)) = true
  /\ exists more,
       effects (snd (@vault_form_submit RefJSON.ref_JSON (fun _ _ _ => None) entries w1))
       = effects w1
         ++ Fetch (@secret_request RefJSON.ref_JSON (JString "2468") entries) :: more.
Proof.
  intros ok_true w entries w1.
  split; [ reflexivity | ].
  destruct (@accepted_pin_is_sent RefJSON.ref_JSON (fun _ _ _ => None) Home
              (JString "2468")
              [ActivateTab "projects"; DeleteVaultItem false (JNumber 3)] w)
    as (Hu & Hform & _).
  - reflexivity.
  - split; [ exact Hu | apply Hform ].
Defined.


(** ** More on the options [fetchJSON] hands to [fetch] *)

Section Prepare.

Context `{JSON}.

Lemma prepare_other_keys (options : props) (k : string) :
  k <> "headers" -> k <> "body" ->
  lookup_prop k (prepare options)
  = lookup_prop k (assign [("method", JString "GET")] options).
Proof.
  intros Hh Hb. unfold prepare.
  repeat match goal with
         | |- context [if ?c then _ else _] => destruct c
         end;
    repeat (rewrite lookup_set_prop_ne by assumption); reflexivity.
Qed.

Lemma prepare_headers_object (options : props) :
  exists hs, lookup_prop "headers" (prepare options) = Some (JObject hs).
Proof.
  unfold prepare.
  repeat match goal with
         | |- context [if ?c then _ else _] => destruct c
         end;
    repeat (rewrite lookup_set_prop_ne by discriminate);
    rewrite lookup_set_prop_eq; eexists; reflexivity.
Qed.

End Prepare.

(** The options [fetchJSON] hands to [fetch] always name a method, the
    caller's when the caller names one and [GET] otherwise; they always
    carry a headers object; and every other option but the body is the
    caller's own. *)
Theorem prepare_method_and_headers `{JSON} (options : props) :
  List.NoDup (List.map fst options) ->
  lookup_prop "method" (prepare options)
  = Some (default (JString "GET") (lookup_prop "method" options))
  /\ (exists hs, lookup_prop "headers" (prepare options) = Some (JObject hs))
  /\ forall k, k <> "method" -> k <> "headers" -> k <> "body" ->
       lookup_prop k (prepare options) = lookup_prop k options.
Proof.
  intros Hnd. split; [ | split ].
  - rewrite prepare_other_keys by discriminate.
    rewrite (lookup_assign _ _ _ Hnd).
    destruct (lookup_prop "method" options); reflexivity.
  - apply prepare_headers_object.
  - intros k Hm Hh Hb. rewrite prepare_other_keys by assumption.
    rewrite (lookup_assign _ _ _ Hnd).
    destruct (lookup_prop k options); [ reflexivity | ].
    simpl. destruct (String.eqb_spec k "method"); [ contradiction | reflexivity ].
Qed.

Lemma prepare_method_and_headers_witness :
  let options := [("method", JString "DELETE"); ("cache", JString "no-store")] in
  lookup_prop "method" (@prepare RefJSON.ref_JSON options) = Some (JString "DELETE")
  /\ lookup_prop "cache" (@prepare RefJSON.ref_JSON options) = Some (JString "no-store")
  /\ lookup_prop "method" (@prepare RefJSON.ref_JSON []) = Some (JString "GET").
Proof.
  intros options.
  destruct (@prepare_method_and_headers RefJSON.ref_JSON options) as (Hm & _ & Hk).
  - repeat constructor; simpl; intuition discriminate.
  - split; [ exact Hm | ]. split; [ | reflexivity ].
    rewrite Hk by discriminate. reflexivity.
Defined.

(** The body goes out as the caller gave it whenever it is a string, a
    [FormData] or falsy, or the caller names a [Content-Type]; a [FormData]
    gets no [Content-Type] from the helper, a non-empty string gets the JSON
    one when the caller names none.  So the body differs from the caller's
    only by being serialized. *)
Theorem prepare_body_as_given `{JSON} (options : props) :
  List.NoDup (List.map fst options) ->
  (is_string (body_of options) || is_FormData (body_of options)
   || negb (truthy (body_of options))
   || truthy (header_of options "Content-Type") = true ->
   body_of (prepare options) = body_of options)
  /\ (is_FormData (body_of options) = true ->
      header_of (prepare options) "Content-Type"
      = header_of options "Content-Type")
  /\ (is_string (body_of options) = true -> truthy (body_of options) = true ->
      truthy (header_of options "Content-Type") = false ->
      header_of (prepare options) "Content-Type" = JString "application/json")
  /\ (body_of (prepare options) <> body_of options ->
      body_of (prepare options) = stringified (body_of options)).
Proof.
  intros Hnd.
  pose proof (prepare_sets_body_and_headers options Hnd) as Hp. simpl in Hp.
  assert (Hs : is_string (body_of options) = true ->
               String.eqb (typeof (body_of options)) "string" = true).
  { destruct (body_of options); simpl; congruence. }
  destruct (truthy (body_of options) && negb (is_FormData (body_of options))
            && negb (truthy (header_of options "Content-Type"))) eqn:Hcond;
    destruct Hp as [Hct Hbody].
  - apply andb_true_iff in Hcond as [Hcond Hc].
    apply andb_true_iff in Hcond as [Hb Hf].
    apply negb_true_iff in Hf, Hc.
    split; [ | split; [ | split ] ].
    + rewrite Hb, Hf, Hc. simpl. rewrite !orb_false_r.
      intros Hi. rewrite Hbody, (Hs Hi). reflexivity.
    + congruence.
    + intros _ _ _. exact Hct.
    + rewrite Hbody.
      destruct (String.eqb (typeof (body_of options)) "string");
        [ contradiction | reflexivity ].
  - split; [ | split; [ | split ] ].
    + intros _. exact Hbody.
    + intros _. exact Hct.
    + intros Hi Hb Hc. exfalso.
      rewrite Hb, Hc in Hcond.
      destruct (body_of options); simpl in *; discriminate.
    + intros Hne. contradiction.
Qed.

Lemma prepare_body_as_given_witness :
  let upload := [("method", JString "POST"); ("body", JFormData)] in
  let text := [("method", JString "POST"); ("body", JString "{}")] in
  @prepare RefJSON.ref_JSON upload
  = [("method", JString "POST"); ("body", JFormData); ("headers", JObject [])]
  /\ body_of (@prepare RefJSON.ref_JSON text) = JString "{}"
  /\ header_of (@prepare RefJSON.ref_JSON text) "Content-Type"
     = JString "application/json".
Proof.
  intros upload text.
  split; [ reflexivity | ].
  destruct (@prepare_body_as_given RefJSON.ref_JSON text) as (Hb & _ & Hc & _).
  - repeat constructor; simpl; intuition discriminate.
  - split; [ apply Hb; reflexivity | apply Hc; reflexivity ].
Defined.


(** ** The credentials form *)

Import Server.
















(** An input whose name extends the name of an earlier input with a value
    makes [collectFormValues] throw; an empty value gives way to an object.
    With no name under [integrations] nothing is written back. *)
Example collectFormValues_edges :
  collectFormValues [("a", "x"); ("a.b", "y")] = Thrown
  /\ collectFormValues [("a", ""); ("a.b", "y")]
     = Built [("a", JObject [("b", JString "y")])]
  /\ collectFormValues [("storage.work", "/srv"); ("storage.home", "/home")]
     = Built [("storage", JObject [("work", JString "/srv");
                                   ("home", JString "/home")])]
  /\ populateCredentialForm
       (JObject [("storage", JObject [("work", JString "/srv");
                                      ("home", JString "/home")])])
       ["storage.work"; "storage.home"]
     = [Untouched; Untouched].
Proof. repeat split; reflexivity. Qed.

(** ** Loading the messages of a thread *)

Lemma outcome_not_nullish `{JSON} (a : option fetch_outcome) (v : jsval) :
  outcome_of a = Return v -> forall k, get v k = Some (get_opt v k).
Proof.
  destruct a as [[reason | r] |]; simpl; try discriminate.
  unfold settle. destruct (negb (ok r)); [ discriminate | ].
  intros [= <-] k. unfold get_opt.
  destruct (payload_of (body r)); reflexivity.
Qed.

(** [loadMessages] asks for the messages of the thread it is given (of no
    thread in particular when the id is falsy).  When the request fails, or
    when the payload names no thread, the assistant state is left as it was:
    one danger toast is all that happens besides the request. *)
Theorem loadMessages_without_thread `{JSON}
  (dom_throws : string -> list jsval -> state -> option error) (h : hub)
  (id : jsval) (w : world state) :
  let req := facade_request
               ("/assistant/messages"
                +:+ (if truthy id then "?thread_id=" +:+ ToString id else "")) [] in
  match outcome_of (head (answers w)) with
  | Throw _ =>
      exists text,
        loadMessages dom_throws h id w
        = (Return tt, logged (Toast text "danger") (sent req w))
  | Return payload =>
      get_opt payload "thread" = JUndefined \/ get_opt payload "thread" = JNull ->
      exists text,
        loadMessages dom_throws h id w
        = (Return tt, logged (Toast text "danger") (sent req w))
  end.
Proof.
  intros req. unfold loadMessages, Api.assistant_messages.
  rewrite try_fetch_bind. fold req.
  destruct (outcome_of (head (answers w))) as [payload | e] eqn:Hout.
  - intros Hthread. unfold try_catch.
    unfold bind at 1. unfold get_or_throw at 1.
    rewrite (outcome_not_nullish _ _ Hout "thread").
    unfold ret at 1. unfold bind at 1. unfold get_or_throw at 1.
    destruct Hthread as [-> | ->]; simpl; eexists; reflexivity.
  - eexists. reflexivity.
Qed.

(** A payload with messages and no thread: the messages are not taken. *)
Example loadMessages_payload_without_thread :
  let body_text := "{" +:+ String RefJSON.dquote "messages" +:+ String RefJSON.dquote ":[1]}" in
  let w := {| store := initial_state Home; effects := [];
              answers := [Responded {| status := 200; statusText := "OK";
                                       body := body_text |}] |} in
  @loadMessages RefJSON.ref_JSON (fun _ _ _ => None) Home (JNumber 7) w
  = (Return tt,
     {| store := initial_state Home;
        effects := [Fetch (@GET RefJSON.ref_JSON "/assistant/messages?thread_id=7");
                    Toast "Chat load failed: Cannot read properties of undefined" "danger"];
        answers := [] |}).
Proof. reflexivity. Qed.


(** ** Uploads and the config text *)

Section Uploads.

Context `{JSON} (dom_throws : string -> list jsval -> state -> option error).

Lemma budget_import_first (file : form_entry) :
  entry_missing file || entry_sizeless file = false ->
  fetches_first (upload_request "/budget/import")
    (budget_import_submit dom_throws file).
Proof.
  intros Hg. unfold budget_import_submit. rewrite Hg.
  unfold ApiMore.budget_import.
  apply fetches_first_try_catch; [ | intros; keep ].
  apply fetches_first_bind.
  - exact (fetches_first_fetchJSON "/budget/import" (Api.POST JFormData)).
  - intros. keep. apply (refreshBudget_keeps dom_throws (keys := [])).
Qed.

Lemma kpi_upload_first (file : form_entry) :
  entry_missing file = false ->
  fetches_first (upload_request "/kpi/upload") (kpi_upload_submit dom_throws file).
Proof.
  intros Hg. unfold kpi_upload_submit. rewrite Hg.
  unfold ApiMore.kpi_upload.
  apply fetches_first_try_catch; [ | intros; keep ].
  apply fetches_first_bind.
  - exact (fetches_first_fetchJSON "/kpi/upload" (Api.POST JFormData)).
  - intros. keep. apply (refreshKpi_keeps dom_throws (keys := [])).
Qed.

End Uploads.

(** The two upload forms.  The budget import goes ahead only with a file
    that is not empty, the KPI upload with any file, an empty one included,
    and with any text that is not empty; otherwise the listener only warns
    and no request goes out.  An upload is a POST whose body is the form data
    as it is, with no [Content-Type] added by the helper. *)
Theorem upload_guards `{JSON}
  (dom_throws : string -> list jsval -> state -> option error)
  (file : form_entry) (w : world state) :
  (match file with
   | FileEntry size =>
       if size =? 0 then
         budget_import_submit dom_throws file w
         = (Return tt, logged (Toast "Select a CSV/XLSX file" "warn") w)
       else
         exists more,
           effects (snd (budget_import_submit dom_throws file w))
           = effects w ++ Fetch (upload_request "/budget/import") :: more
   | _ =>
       budget_import_submit dom_throws file w
       = (Return tt, logged (Toast "Select a CSV/XLSX file" "warn") w)
   end)
  /\ (if entry_missing file then
        kpi_upload_submit dom_throws file w
        = (Return tt, logged (Toast "Select a file to upload" "warn") w)
      else
        exists more,
          effects (snd (kpi_upload_submit dom_throws file w))
          = effects w ++ Fetch (upload_request "/kpi/upload") :: more).
Proof.
  split.
  - destruct file as [| s | size]; simpl.
    + reflexivity.
    + unfold budget_import_submit. simpl. rewrite orb_true_r. reflexivity.
    + destruct (size =? 0) eqn:Hs.
      * unfold budget_import_submit. simpl. rewrite Hs. reflexivity.
      * apply (budget_import_first dom_throws (FileEntry size)). simpl. exact Hs.
  - destruct (entry_missing file) eqn:Hm.
    + unfold kpi_upload_submit. rewrite Hm. reflexivity.
    + apply (kpi_upload_first dom_throws file Hm).
Qed.

(** Saving the config text of the dev tab.  A text that is not JSON sends
    nothing: there is one danger toast with the parser's message and the
    network is not touched.  A text that is JSON is posted as parsed; the
    success toast follows exactly when the post succeeds. *)
Theorem saveConfig_outcome `{JSON}
  (syntax_message : string -> string) (text : string) (w : world state) :
  match JSON_parse text with
  | None =>
      saveConfig syntax_message text w
      = (Return tt,
         logged (Toast ("Config save failed: " +:+ syntax_message text) "danger") w)
  | Some parsed =>
      let req := facade_request "/settings/config" (Api.POST parsed) in
      if failed (head (answers w)) then
        exists text',
          saveConfig syntax_message text w
          = (Return tt, logged (Toast text' "danger") (sent req w))
      else
        saveConfig syntax_message text w
        = (Return tt, logged (Toast "Config saved" "success") (sent req w))
  end.
Proof.
  unfold saveConfig.
  destruct (JSON_parse text) as [parsed |]; [ | reflexivity ].
  cbv zeta. unfold ApiMore.settings_update. rewrite try_fetch_then.
  destruct (failed (head (answers w))) eqn:Hf.
  - destruct (failed_throws _ Hf) as [e ->]. eexists. reflexivity.
  - destruct (succeeded_returns _ Hf) as [v ->]. reflexivity.
Qed.
